(** * OSHA logbook: the establishment router and the selection context

    A shallow embedding of

    - [server/core/api/routers/establishmentRouter.ts] (the tRPC router
      with its zod input schemas),
    - [server/core/api/trpc.ts] (context and [protectedProcedure]),
    - [server/core/db/schema.ts] (the two tables and the cascading
      foreign key),
    - [lib/validations/establishment.ts] (the form schema and
      [US_STATE_CODES]),
    - [app/hooks/useEstablishmentContext.ts] (selected establishment and
      year, persisted in [localStorage]),

    followed by the properties proved about them.

    Conventions.  JavaScript strings are [string]s; the embedding is
    exact for ASCII text (code units below 128).  Integer-valued
    JavaScript numbers are [Z]; timestamps are milliseconds in [Z].
    [null] and [undefined] are [None].  The relational store is reliable:
    a statement fails only for a reason that the data decides (text with
    the code unit 0, which the store's encoding has no place for, a
    value outside its column type, a duplicate primary key).  A value
    longer than its [varchar] column is refused; PostgreSQL cuts one
    whose excess is spaces only, which is outside the embedding (the
    schema bounds every text field by its column, and the one text that
    it does not check, the user id, is Clerk's, of 32 characters). *)

From Stdlib Require Import ZArith Ascii String DecimalString DecimalZ DecimalPos.
From stdpp Require Import base decidable option list sorting gmap strings.

Local Open Scope string_scope.

(** ** JavaScript primitives *)

Module Js.

(** [!!s] for a string: only the empty string is falsy. *)
Definition truthy (s : string) : bool :=
  match s with
  | EmptyString => false
  | String _ _ => true
  end.

(** [x || null] for [x : string | undefined]. *)
Definition or_null (x : option string) : option string :=
  match x with
  | Some s => if truthy s then Some s else None
  | None => None
  end.

Definition is_digit (c : ascii) : bool :=
  let n := N_of_ascii c in ((48 <=? n) && (n <=? 57))%N.

Definition is_lower (c : ascii) : bool :=
  let n := N_of_ascii c in ((97 <=? n) && (n <=? 122))%N.

Definition is_upper (c : ascii) : bool :=
  let n := N_of_ascii c in ((65 <=? n) && (n <=? 90))%N.

Definition upper_char (c : ascii) : ascii :=
  if is_lower c then ascii_of_N (N_of_ascii c - 32) else c.

Definition lower_char (c : ascii) : ascii :=
  if is_upper c then ascii_of_N (N_of_ascii c + 32) else c.

Fixpoint map_chars (f : ascii -> ascii) (s : string) : string :=
  match s with
  | EmptyString => EmptyString
  | String c s' => String (f c) (map_chars f s')
  end.

(** [String.prototype.toUpperCase] and [toLowerCase]. *)
Definition toUpperCase : string -> string := map_chars upper_char.
Definition toLowerCase : string -> string := map_chars lower_char.

(** A JavaScript number as far as this program needs it: an integer
    or [NaN]. *)
Inductive number : Type :=
| NaN
| Int (z : Z).

(** [Number.isSafeInteger]: below 2^53 in magnitude, where the
    integers and the numbers that represent them coincide. *)
Definition MAX_SAFE_INTEGER : Z := 9007199254740991.

Definition isSafeInteger (z : Z) : bool :=
  ((- MAX_SAFE_INTEGER <=? z) && (z <=? MAX_SAFE_INTEGER))%Z.

(** [Number.prototype.toString] on a safe integer: a minus sign for a
    negative number, then the decimal digits without leading zeros. *)
Definition toString (z : Z) : string :=
  NilZero.string_of_int (Z.to_int z).

(** StrWhiteSpaceChar, in ASCII: TAB, LF, VT, FF, CR and SP. *)
Definition is_space (c : ascii) : bool :=
  let n := N_of_ascii c in (((9 <=? n) && (n <=? 13)) || (n =? 32))%N.

Fixpoint trim_start (s : string) : string :=
  match s with
  | EmptyString => EmptyString
  | String c s' => if is_space c then trim_start s' else s
  end.

Definition digit_of (c : ascii) (rest : Decimal.uint) : option Decimal.uint :=
  uint_of_char c (Some rest).

(** The longest prefix of decimal digits, as a decimal numeral. *)
Fixpoint leading_digits (s : string) : Decimal.uint :=
  match s with
  | EmptyString => Decimal.Nil
  | String c s' =>
      match digit_of c (leading_digits s') with
      | Some d => d
      | None => Decimal.Nil
      end
  end.

Definition starts_with (c : ascii) (s : string) : bool :=
  match s with
  | EmptyString => false
  | String c' _ => Ascii.eqb c' c
  end.

Definition tail (s : string) : string :=
  match s with
  | EmptyString => EmptyString
  | String _ r => r
  end.

Definition is_Nil (d : Decimal.uint) : bool :=
  match d with
  | Decimal.Nil => true
  | _ => false
  end.

(** [parseInt(s, 10)]: skip leading white space, read an optional
    sign, then the longest prefix of digits; [NaN] when there is no
    digit. *)
Definition parseInt10 (s : string) : number :=
  let t := trim_start s in
  let sign := if starts_with "-" t then (-1)%Z else 1%Z in
  let body := if starts_with "-" t || starts_with "+" t then tail t else t in
  let d := leading_digits body in
  if is_Nil d then NaN else Int (sign * Z.of_uint d).

(** [String.prototype.trim]: white space and line terminators go from
    both ends. *)
Fixpoint trim_end (s : string) : string :=
  match s with
  | EmptyString => EmptyString
  | String c s' =>
      let t := trim_end s' in
      if negb (truthy t) && is_space c then EmptyString else String c t
  end.

Definition trim (s : string) : string := trim_end (trim_start s).

End Js.

(** ** Regular expressions

    The fragment the schemas use: character classes, concatenation,
    alternation, an optional group and bounded repetition, matched
    against the whole string ([^...$] without flags).  Matching is by
    derivatives. *)

Module Regex.

Inductive re : Type :=
| Void
| Eps
| Class (p : ascii -> bool)
| Cat (r1 r2 : re)
| Alt (r1 r2 : re).

Definition Opt (r : re) : re := Alt Eps r.

Fixpoint Rep (n : nat) (r : re) : re :=
  match n with
  | O => Eps
  | S n' => Cat r (Rep n' r)
  end.

Definition Chr (c : ascii) : re := Class (Ascii.eqb c).

Fixpoint Lit (s : string) : re :=
  match s with
  | EmptyString => Eps
  | String c s' => Cat (Chr c) (Lit s')
  end.

Fixpoint nullable (r : re) : bool :=
  match r with
  | Void => false
  | Eps => true
  | Class _ => false
  | Cat r1 r2 => nullable r1 && nullable r2
  | Alt r1 r2 => nullable r1 || nullable r2
  end.

Fixpoint deriv (c : ascii) (r : re) : re :=
  match r with
  | Void => Void
  | Eps => Void
  | Class p => if p c then Eps else Void
  | Cat r1 r2 =>
      if nullable r1
      then Alt (Cat (deriv c r1) r2) (deriv c r2)
      else Cat (deriv c r1) r2
  | Alt r1 r2 => Alt (deriv c r1) (deriv c r2)
  end.

(** [r.test(s)] for an anchored [r]. *)
Fixpoint test (r : re) (s : string) : bool :=
  match s with
  | EmptyString => nullable r
  | String c s' => test (deriv c r) s'
  end.

(** The language of a regular expression, for stating what [test]
    decides. *)
Fixpoint lang (r : re) (s : string) : Prop :=
  match r with
  | Void => False
  | Eps => s = EmptyString
  | Class p => exists c, p c = true /\ s = String c EmptyString
  | Cat r1 r2 => exists s1 s2, s = String.append s1 s2 /\ lang r1 s1 /\ lang r2 s2
  | Alt r1 r2 => lang r1 s \/ lang r2 s
  end.

(** [\d] *)
Definition digit : re := Class Js.is_digit.

End Regex.


(** ** zod: the checks the schemas are built from

    A schema parses a value into its output or a list of issues; every
    failed check adds an issue, and parsing succeeds when there is
    none. *)

Module Zod.

Inductive issue_code : Type :=
| invalid_type
| invalid_value
| too_small
| too_big
| invalid_format.

Record issue : Type := Issue { path : string; code : issue_code }.

Inductive parsed (A : Type) : Type :=
| Valid (a : A)
| Invalid (issues : list issue).
Arguments Valid {A} a.
Arguments Invalid {A} issues.

Definition check (ok : bool) (p : string) (c : issue_code) : list issue :=
  if ok then [] else [Issue p c].

(** The issues of an object held under [key] are reported under that
    key: the path [["data", "zipCode"]], written here with a dot. *)
Definition nested (key : string) (l : list issue) : list issue :=
  (fun i => Issue (String.append key (String.append "." (path i))) (code i))
    <$> l.

(** [.min(n)], [.max(n)], [.length(n)] and [.regex(r)] on a string. *)
Definition min (n : nat) (p s : string) : list issue :=
  check (n <=? String.length s)%nat p too_small.

Definition max (n : nat) (p s : string) : list issue :=
  check (String.length s <=? n)%nat p too_big.

Definition length (n : nat) (p s : string) : list issue :=
  check (n <=? String.length s)%nat p too_small ++
  check (String.length s <=? n)%nat p too_big.

Definition regex (r : Regex.re) (p s : string) : list issue :=
  check (Regex.test r s) p invalid_format.

(** [.int()] on an integer (zod 4 keeps it within the safe integers)
    and [.min(n)] on a number. *)
Definition int (p : string) (z : Z) : list issue :=
  check (z <=? Js.MAX_SAFE_INTEGER)%Z p too_big ++
  check (- Js.MAX_SAFE_INTEGER <=? z)%Z p too_small.

Definition number_min (n : Z) (p : string) (z : Z) : list issue :=
  check (n <=? z)%Z p too_small.

(** A key of [z.object]: absent where the field is not [.optional()]
    is an issue; a present value goes through the field's checks. *)
Definition required {A} (p : string) (checks : A -> list issue)
    (x : option A) : list issue :=
  match x with
  | Some a => checks a
  | None => [Issue p invalid_type]
  end.

Definition optional {A} (checks : A -> list issue) (x : option A) : list issue :=
  match x with
  | Some a => checks a
  | None => []
  end.

(** [z.enum(values)] *)
Definition enum (values : list string) (p s : string) : list issue :=
  check (bool_decide (s ∈ values)) p invalid_value.

(** The pattern behind [z.string().uuid()] in zod 4:
    [/^([0-9a-fA-F]{8}-[0-9a-fA-F]{4}-[1-8][0-9a-fA-F]{3}-[89abAB][0-9a-fA-F]{3}-[0-9a-fA-F]{12}|00000000-0000-0000-0000-000000000000|ffffffff-ffff-ffff-ffff-ffffffffffff)$/] *)
Definition is_hex (c : ascii) : bool :=
  let n := N_of_ascii c in
  (Js.is_digit c || ((97 <=? n) && (n <=? 102)) || ((65 <=? n) && (n <=? 70)))%N.

Definition is_version (c : ascii) : bool :=
  let n := N_of_ascii c in ((49 <=? n) && (n <=? 56))%N.

Definition is_variant (c : ascii) : bool :=
  bool_decide (c ∈ ["8"; "9"; "a"; "b"; "A"; "B"]%char).

Definition uuid_pattern : Regex.re :=
  let hex := Regex.Class is_hex in
  let dash := Regex.Chr "-" in
  Regex.Alt
    (Regex.Cat (Regex.Rep 8 hex) (Regex.Cat dash
    (Regex.Cat (Regex.Rep 4 hex) (Regex.Cat dash
    (Regex.Cat (Regex.Class is_version) (Regex.Cat (Regex.Rep 3 hex) (Regex.Cat dash
    (Regex.Cat (Regex.Class is_variant) (Regex.Cat (Regex.Rep 3 hex) (Regex.Cat dash
    (Regex.Rep 12 hex)))))))))))
    (Regex.Alt
       (Regex.Lit "00000000-0000-0000-0000-000000000000")
       (Regex.Lit "ffffffff-ffff-ffff-ffff-ffffffffffff")).

Definition uuid (s : string) : bool := Regex.test uuid_pattern s.

(** [.max(n)] on a number. *)
Definition number_max (n : Z) (p : string) (z : Z) : list issue :=
  check (z <=? n)%Z p too_big.

(** [a.or(z.literal(""))] on a string: the value passes when it passes
    [a] or is the empty string; otherwise the issues are those of
    [a]. *)
Definition or_empty_literal (a : string -> list issue) (s : string)
    : list issue :=
  match a s with
  | [] => []
  | l => if String.eqb s "" then [] else l
  end.

End Zod.

(** ** lib/validations/establishment.ts *)

Module Validations.

(** All 50 states and DC. *)
Definition US_STATE_CODES : list string :=
  [ "AL"; "AK"; "AZ"; "AR"; "CA"; "CO"; "CT"; "DE"; "FL"; "GA";
    "HI"; "ID"; "IL"; "IN"; "IA"; "KS"; "KY"; "LA"; "ME"; "MD";
    "MA"; "MI"; "MN"; "MS"; "MO"; "MT"; "NE"; "NV"; "NH"; "NJ";
    "NM"; "NY"; "NC"; "ND"; "OH"; "OK"; "OR"; "PA"; "RI"; "SC";
    "SD"; "TN"; "TX"; "UT"; "VT"; "VA"; "WA"; "WV"; "WI"; "WY"; "DC" ].

(** The [state] field of [establishmentFormSchema]. *)
Definition establishmentFormSchema_state (s : string) : list Zod.issue :=
  Zod.enum US_STATE_CODES "state" s.

End Validations.

(** ** server/core/db/schema.ts *)

Module Schema.

(** A row of [establishments]. *)
Module Establishments.
Record row : Type := Row {
  id : string;
  userId : string;
  name : string;
  address : string;
  city : string;
  state : string;
  zipCode : string;
  naicsCode : option string;
  industryDescription : option string;
  averageEmployees : Z;
  createdAt : Z;
  updatedAt : Z
}.
End Establishments.

(** A row of [subscriptions]; [establishmentId] is the foreign key
    with [onDelete("cascade")]. *)
Module Subscriptions.
Record row : Type := Row {
  id : string;
  establishmentId : string;
  year : Z;
  clerkSubscriptionId : string;
  status : string;
  createdAt : Z;
  updatedAt : Z
}.
End Subscriptions.

Record database : Type := Database {
  establishments : list Establishments.row;
  subscriptions : list Subscriptions.row
}.

End Schema.

Abbreviation establishment := Schema.Establishments.row.
Abbreviation subscription := Schema.Subscriptions.row.

(** The object a client sends for an establishment: every key may be
    absent.  It is the input of [establishmentInputSchema] and of its
    [.partial()], and the output of the latter. *)

Module Payload.
Record t : Type := Make {
  name : option string;
  address : option string;
  city : option string;
  state : option string;
  zipCode : option string;
  naicsCode : option string;
  industryDescription : option string;
  averageEmployees : option Z
}.

(** The text that the object holds. *)
Definition text (p : t) : list string :=
  option_list (name p) ++ option_list (address p) ++ option_list (city p) ++
  option_list (state p) ++ option_list (zipCode p) ++
  option_list (naicsCode p) ++ option_list (industryDescription p).
End Payload.

(** ** The relational store: drizzle statements on PostgreSQL *)

Module Drizzle.
Import Schema.
Module E := Schema.Establishments.
Module S := Schema.Subscriptions.

(** The input function of the [uuid] column type: a well-formed uuid
    is stored and compared in its lower-case text. *)
Definition uuid_in (s : string) : string := Js.toLowerCase s.

(** The range of an [integer] column. *)
Definition fits_integer (z : Z) : bool :=
  ((-2147483648 <=? z) && (z <=? 2147483647))%Z.

(** [where] conditions on [establishments]. *)
Inductive condition : Type :=
| eq_id (v : string)
| eq_userId (v : string)
| and (c1 c2 : condition).

Fixpoint holds (c : condition) (r : establishment) : bool :=
  match c with
  | eq_id v => String.eqb (E.id r) (uuid_in v)
  | eq_userId v => String.eqb (E.userId r) v
  | and c1 c2 => holds c1 r && holds c2 r
  end.

(** Text sent to the store must not hold the code unit 0: the
    server's encoding has no such character and refuses the
    parameter. *)
Fixpoint has_nul (s : string) : bool :=
  match s with
  | EmptyString => false
  | String c s' => Ascii.eqb c "000" || has_nul s'
  end.

(** Assignment to a [varchar(n)] column or to one that may hold
    [null]: a value of more than [n] characters is refused. *)
Definition varchar (n : nat) (s : string) : bool :=
  (String.length s <=? n)%nat.

Definition varchar_null (n : nat) (x : option string) : bool :=
  from_option (varchar n) true x.

(** The object given to [.values(...)] in [create]. *)
Module Values.
Record t : Type := Make {
  userId : string;
  name : string;
  address : string;
  city : string;
  state : string;
  zipCode : string;
  naicsCode : option string;
  industryDescription : option string;
  averageEmployees : Z;
  updatedAt : Z
}.

Definition text (v : t) : list string :=
  [userId v; name v; address v; city v; state v; zipCode v] ++
  option_list (naicsCode v) ++ option_list (industryDescription v).

(** The values fit the columns of [establishments]. *)
Definition varchars (v : t) : bool :=
  varchar 255 (userId v) && varchar 255 (name v) && varchar 500 (address v) &&
  varchar 100 (city v) && varchar 2 (state v) && varchar 10 (zipCode v) &&
  varchar_null 6 (naicsCode v) && varchar_null 500 (industryDescription v).
End Values.

(** The same for the object given to [.set(...)] in [update]. *)
Definition varchars (data : Payload.t) : bool :=
  varchar_null 255 (Payload.name data) &&
  varchar_null 500 (Payload.address data) &&
  varchar_null 100 (Payload.city data) &&
  varchar_null 2 (Payload.state data) &&
  varchar_null 10 (Payload.zipCode data) &&
  varchar_null 6 (Payload.naicsCode data) &&
  varchar_null 500 (Payload.industryDescription data).

Inductive statement : Type :=
| Select (where_ : condition) (orderBy_createdAt : bool) (limit : option nat)
| Insert (values : Values.t)
| Update (data : Payload.t) (updatedAt : Z) (where_ : condition)
| Delete (where_ : condition).

Inductive pg_error : Type :=
| character_not_in_repertoire
| numeric_value_out_of_range
| string_data_right_truncation
| unique_violation.

Inductive answer : Type :=
| Rows (rs : list establishment)
| Failed (e : pg_error).

(** What [defaultNow()] and [defaultRandom()] give when a statement
    runs. *)
Record defaults : Type := Defaults { now : Z; gen_random_uuid : string }.

Definition created_le (r1 r2 : establishment) : Prop :=
  (E.createdAt r1 <= E.createdAt r2)%Z.

#[export] Instance created_le_dec r1 r2 : Decision (created_le r1 r2).
Proof. unfold created_le. apply _. Defined.

Definition select (c : condition) (ordered : bool) (limit : option nat)
    (db : database) : list establishment :=
  let matching := filter (fun r => holds c r) (establishments db) in
  let sorted := if ordered then merge_sort created_le matching else matching in
  match limit with
  | Some n => take n sorted
  | None => sorted
  end.

(** An [INSERT ... RETURNING]: the parameters are read (text, then
    numbers), the values are assigned to their columns, and the row
    goes in unless its id is taken.  Which of several failures the
    store reports is of no consequence to the router, which turns each
    of them into the same error. *)
Definition insert (d : defaults) (v : Values.t) (db : database)
    : answer * database :=
  if existsb has_nul (Values.text v) then
    (Failed character_not_in_repertoire, db)
  else if negb (fits_integer (Values.averageEmployees v)) then
    (Failed numeric_value_out_of_range, db)
  else if negb (Values.varchars v) then
    (Failed string_data_right_truncation, db)
  else if bool_decide (gen_random_uuid d ∈ E.id <$> establishments db) then
    (Failed unique_violation, db)
  else
    let r :=
      E.Row (gen_random_uuid d) (Values.userId v) (Values.name v)
        (Values.address v) (Values.city v) (Values.state v)
        (Values.zipCode v) (Values.naicsCode v)
        (Values.industryDescription v) (Values.averageEmployees v)
        (now d) (Values.updatedAt v) in
    (Rows [r], Database (establishments db ++ [r]) (subscriptions db)).

(** [.set({...data, updatedAt})] on one row: a key that is present
    replaces the column, an absent one leaves it. *)
Definition set (data : Payload.t) (updated : Z) (r : establishment)
    : establishment :=
  E.Row (E.id r) (E.userId r)
    (default (E.name r) (Payload.name data))
    (default (E.address r) (Payload.address data))
    (default (E.city r) (Payload.city data))
    (default (E.state r) (Payload.state data))
    (default (E.zipCode r) (Payload.zipCode data))
    (match Payload.naicsCode data with
     | Some s => Some s
     | None => E.naicsCode r
     end)
    (match Payload.industryDescription data with
     | Some s => Some s
     | None => E.industryDescription r
     end)
    (default (E.averageEmployees r) (Payload.averageEmployees data))
    (E.createdAt r) updated.

(** An [UPDATE ... RETURNING]: its parameters are read and assigned
    to their columns before any row is looked at, so it fails on them
    also when no row matches. *)
Definition update (data : Payload.t) (updated : Z) (c : condition)
    (db : database) : answer * database :=
  if existsb has_nul (Payload.text data) then
    (Failed character_not_in_repertoire, db)
  else if negb (from_option fits_integer true (Payload.averageEmployees data))
  then
    (Failed numeric_value_out_of_range, db)
  else if negb (varchars data) then
    (Failed string_data_right_truncation, db)
  else
    (Rows (set data updated <$> filter (fun r => holds c r) (establishments db)),
     Database
       ((fun r => if holds c r then set data updated r else r)
          <$> establishments db)
       (subscriptions db)).

(** Deleting rows of [establishments] deletes the rows of
    [subscriptions] that reference them. *)
Definition delete (c : condition) (db : database) : answer * database :=
  let gone := E.id <$> filter (fun r => holds c r) (establishments db) in
  (Rows [],
   Database
     (filter (fun r => negb (holds c r)) (establishments db))
     (filter (fun s => S.establishmentId s ∉ gone) (subscriptions db))).

Definition execute (d : defaults) (q : statement) (db : database)
    : answer * database :=
  match q with
  | Select c ordered limit => (Rows (select c ordered limit db), db)
  | Insert v => insert d v db
  | Update data updated c => update data updated c db
  | Delete c => delete c db
  end.

End Drizzle.

(** ** server/core/api/trpc.ts *)

Module Trpc.
Import Schema Drizzle.

Inductive code : Type :=
| UNAUTHORIZED
| NOT_FOUND
| BAD_REQUEST
| INTERNAL_SERVER_ERROR.

Inductive detail : Type :=
| Message (m : string)
| Issues (l : list Zod.issue).

(** What a procedure can throw. *)
Inductive exn : Type :=
| TRPCError (c : code) (d : detail)
| Error (m : string)
| DriverError (e : pg_error).

Definition instanceof_TRPCError (e : exn) : bool :=
  match e with
  | TRPCError _ _ => true
  | _ => false
  end.

(** An [async] procedure body: it returns, throws, reads the clock
    ([new Date()]) or awaits a statement on [ctx.db] and goes on with
    the answer. *)
Inductive prog (A : Type) : Type :=
| Return (a : A)
| Throw (e : exn)
| NewDate (k : Z -> prog A)
| Await (q : statement) (k : answer -> prog A).
Arguments Return {A} a.
Arguments Throw {A} e.
Arguments NewDate {A} k.
Arguments Await {A} q k.

Fixpoint bind {A B} (p : prog A) (f : A -> prog B) : prog B :=
  match p with
  | Return a => f a
  | Throw e => Throw e
  | NewDate k => NewDate (fun t => bind (k t) f)
  | Await q k => Await q (fun a => bind (k a) f)
  end.

(** [try { p } catch (error) { h error }] *)
Fixpoint try_catch {A} (p : prog A) (h : exn -> prog A) : prog A :=
  match p with
  | Return a => Return a
  | Throw e => h e
  | NewDate k => NewDate (fun t => try_catch (k t) h)
  | Await q k => Await q (fun a => try_catch (k a) h)
  end.

(** [await ctx.db...]: the rows, or the driver's error thrown. *)
Definition db (q : statement) : prog (list establishment) :=
  Await q (fun a =>
    match a with
    | Rows rs => Return rs
    | Failed e => Throw (DriverError e)
    end).

Definition new_Date : prog Z := NewDate Return.

Inductive outcome (A : Type) : Type :=
| Ok (a : A)
| Err (e : exn).
Arguments Ok {A} a.
Arguments Err {A} e.

(** The machine-readable kind of a failed call. *)
Definition error_code {A} (o : outcome A) : option code :=
  match o with
  | Err (TRPCError c _) => Some c
  | _ => None
  end.

Record environment : Type := Environment { clock : Z; pg : defaults }.

(** One request, run to its end on the store. *)
Fixpoint run {A} (env : environment) (p : prog A) (d : database)
    : outcome A * database :=
  match p with
  | Return a => (Ok a, d)
  | Throw e => (Err e, d)
  | NewDate k => run env (k (clock env)) d
  | Await q k =>
      let '(a, d') := execute (pg env) q d in
      run env (k a) d'
  end.

(** The request run until it has issued [n] statements; what is left
    of it waits for its next statement. *)
Fixpoint advance {A} (env : environment) (p : prog A) (n : nat)
    (d : database) : prog A * database :=
  match p with
  | NewDate k => advance env (k (clock env)) n d
  | Await q k =>
      match n with
      | O => (p, d)
      | S n' =>
          let '(a, d') := execute (pg env) q d in
          advance env (k a) n' d'
      end
  | _ => (p, d)
  end.


(** The statements a request sends to the store, in order. *)
Fixpoint statements {A} (env : environment) (p : prog A) (d : database)
    : list statement :=
  match p with
  | Return _ => []
  | Throw _ => []
  | NewDate k => statements env (k (clock env)) d
  | Await q k =>
      let '(a, d') := execute (pg env) q d in
      q :: statements env (k a) d'
  end.

(** The statements of a request with the answers it got: all of
    them when it runs to its end, and the first [n] of them. *)
Fixpoint exchanges {A} (env : environment) (p : prog A) (d : database)
    : list (statement * answer) :=
  match p with
  | Return _ => []
  | Throw _ => []
  | NewDate k => exchanges env (k (clock env)) d
  | Await q k =>
      let '(a, d') := execute (pg env) q d in
      (q, a) :: exchanges env (k a) d'
  end.

Fixpoint issued {A} (env : environment) (p : prog A) (n : nat)
    (d : database) : list (statement * answer) :=
  match p with
  | NewDate k => issued env (k (clock env)) n d
  | Await q k =>
      match n with
      | O => []
      | S n' =>
          let '(a, d') := execute (pg env) q d in
          (q, a) :: issued env (k a) n' d'
      end
  | _ => []
  end.

(** What the store saw of the two requests of [interleave], in the
    order it saw it: the first [n] exchanges of the first request, the
    exchanges of the second, the remaining exchanges of the first. *)
Definition interleaved {A B} (env : environment) (n : nat)
    (p : prog A) (q : prog B) (d : database)
    : list (statement * answer) * list (statement * answer)
      * list (statement * answer) :=
  let '(p', d1) := advance env p n d in
  let '(_, d2) := run env q d1 in
  (issued env p n d, exchanges env q d1, exchanges env p' d2).

Record clerk_user : Type := ClerkUser { clerk_id : string }.

Record context : Type := Context {
  userId : option string;
  user : option clerk_user
}.

(** [currentUser()] gives the signed-in user, or nothing. *)
Definition createTRPCContext (currentUser : option clerk_user) : context :=
  Context (clerk_id <$> currentUser) currentUser.

Definition unauthorized : exn :=
  TRPCError UNAUTHORIZED
    (Message "You must be signed in to perform this action").

(** The middleware of [protectedProcedure]. *)
Definition protectedProcedure {A} (ctx : context)
    (next : string -> prog A) : prog A :=
  match userId ctx, user ctx with
  | Some u, Some _ => if Js.truthy u then next u else Throw unauthorized
  | _, _ => Throw unauthorized
  end.

(** [.input(schema)]: it runs after the middleware above. *)
Definition input {R I A} (schema : R -> Zod.parsed I) (raw : R)
    (resolver : I -> prog A) : prog A :=
  match schema raw with
  | Zod.Valid i => resolver i
  | Zod.Invalid issues => Throw (TRPCError BAD_REQUEST (Issues issues))
  end.

End Trpc.

(** ** server/core/api/routers/establishmentRouter.ts

    The calls to Sentry (breadcrumbs, captured exceptions) only report;
    they are left out. *)

Module EstablishmentRouter.
Import Schema Drizzle Trpc.
Module E := Schema.Establishments.

(** [/^\d{5}(-\d{4})?$/] *)
Definition zipCode_pattern : Regex.re :=
  Regex.Cat (Regex.Rep 5 Regex.digit)
    (Regex.Opt (Regex.Cat (Regex.Chr "-") (Regex.Rep 4 Regex.digit))).

(** [/^\d{6}$/] *)
Definition naicsCode_pattern : Regex.re := Regex.Rep 6 Regex.digit.

Definition name_checks (s : string) : list Zod.issue :=
  Zod.min 1 "name" s ++ Zod.max 255 "name" s.

Definition address_checks (s : string) : list Zod.issue :=
  Zod.min 1 "address" s ++ Zod.max 500 "address" s.

Definition city_checks (s : string) : list Zod.issue :=
  Zod.min 1 "city" s ++ Zod.max 100 "city" s.

Definition state_checks (s : string) : list Zod.issue :=
  Zod.length 2 "state" s.

Definition zipCode_checks (s : string) : list Zod.issue :=
  Zod.regex zipCode_pattern "zipCode" s ++ Zod.max 10 "zipCode" s.

Definition naicsCode_checks (s : string) : list Zod.issue :=
  Zod.regex naicsCode_pattern "naicsCode" s.

Definition industryDescription_checks (s : string) : list Zod.issue :=
  Zod.max 500 "industryDescription" s.

Definition averageEmployees_checks (z : Z) : list Zod.issue :=
  Zod.int "averageEmployees" z ++ Zod.number_min 0 "averageEmployees" z.

(** A key of the object schema, as it is ([partial = false]) or under
    [.partial()]. *)
Definition key {A} (partial : bool) (p : string)
    (checks : A -> list Zod.issue) (x : option A) : list Zod.issue :=
  if partial then Zod.optional checks x else Zod.required p checks x.

Definition issues (partial : bool) (p : Payload.t) : list Zod.issue :=
  key partial "name" name_checks (Payload.name p) ++
  key partial "address" address_checks (Payload.address p) ++
  key partial "city" city_checks (Payload.city p) ++
  key partial "state" state_checks (Payload.state p) ++
  key partial "zipCode" zipCode_checks (Payload.zipCode p) ++
  Zod.optional naicsCode_checks (Payload.naicsCode p) ++
  Zod.optional industryDescription_checks (Payload.industryDescription p) ++
  key partial "averageEmployees" averageEmployees_checks
    (Payload.averageEmployees p).

(** The output of [establishmentInputSchema]. *)
Module Input.
Record t : Type := Make {
  name : string;
  address : string;
  city : string;
  state : string;
  zipCode : string;
  naicsCode : option string;
  industryDescription : option string;
  averageEmployees : Z
}.
End Input.

Definition establishmentInputSchema (p : Payload.t) : Zod.parsed Input.t :=
  match Payload.name p, Payload.address p, Payload.city p,
        Payload.state p, Payload.zipCode p, Payload.averageEmployees p with
  | Some n, Some a, Some c, Some s, Some z, Some avg =>
      match issues false p with
      | [] =>
          Zod.Valid
            (Input.Make n a c (Js.toUpperCase s) z (Payload.naicsCode p)
               (Payload.industryDescription p) avg)
      | l => Zod.Invalid l
      end
  | _, _, _, _, _, _ => Zod.Invalid (issues false p)
  end.

(** What the schema hands on for an accepted object: [state] went
    through [.toUpperCase()]. *)
Definition normalized (p : Payload.t) : Payload.t :=
  Payload.Make (Payload.name p) (Payload.address p) (Payload.city p)
    (Js.toUpperCase <$> Payload.state p) (Payload.zipCode p)
    (Payload.naicsCode p) (Payload.industryDescription p)
    (Payload.averageEmployees p).

(** [establishmentInputSchema.partial()] *)
Definition establishmentInputSchema_partial (p : Payload.t)
    : Zod.parsed Payload.t :=
  match issues true p with
  | [] => Zod.Valid (normalized p)
  | l => Zod.Invalid l
  end.

Record update_input : Type := UpdateInput { id : string; data : Payload.t }.

Record acknowledgment : Type := Acknowledgment { success : bool }.

Definition not_found : exn :=
  TRPCError NOT_FOUND
    (Message "Establishment not found or you do not have access").

Definition internal (m : string) : exn :=
  TRPCError INTERNAL_SERVER_ERROR (Message m).

(** [catch (error) { if (error instanceof TRPCError) throw error;
    throw new TRPCError(INTERNAL_SERVER_ERROR, m) }] *)
Definition rethrow_or_internal {A} (m : string) (error : exn) : prog A :=
  if instanceof_TRPCError error then Throw error else Throw (internal m).

Section Procedures.

(** The format check of zod's [z.string().uuid()]; zod is not part
    of the repository. *)
Variable uuid : string -> bool.

(** [z.object({ id: z.string().uuid(...) })] *)
Definition id_schema (raw : string) : Zod.parsed string :=
  match Zod.check (uuid raw) "id" Zod.invalid_format with
  | [] => Zod.Valid raw
  | l => Zod.Invalid l
  end.

(** [z.object({ id: ..., data: establishmentInputSchema.partial() })] *)
Definition update_schema (raw : update_input) : Zod.parsed update_input :=
  match Zod.check (uuid (id raw)) "id" Zod.invalid_format,
        establishmentInputSchema_partial (data raw) with
  | [], Zod.Valid d => Zod.Valid (UpdateInput (id raw) d)
  | l, Zod.Valid _ => Zod.Invalid l
  | l, Zod.Invalid l' => Zod.Invalid (l ++ Zod.nested "data" l')
  end.

Definition list (ctx : context) : prog (list establishment) :=
  protectedProcedure ctx (fun userId =>
    try_catch
      (bind (db (Select (eq_userId userId) true None)) (fun results =>
       Return results))
      (fun _ => Throw (internal "Failed to fetch establishments"))).

Definition getById (ctx : context) (raw : string) : prog establishment :=
  protectedProcedure ctx (fun userId =>
  input id_schema raw (fun input_id =>
    try_catch
      (bind (db (Select (and (eq_id input_id) (eq_userId userId))
                   false (Some 1%nat))) (fun result =>
       match result with
       | [] => Throw not_found
       | r :: _ => Return r
       end))
      (rethrow_or_internal "Failed to fetch establishment"))).

Definition create (ctx : context) (raw : Payload.t) : prog establishment :=
  protectedProcedure ctx (fun userId =>
  input establishmentInputSchema raw (fun i =>
    try_catch
      (bind new_Date (fun date =>
       bind (db (Insert
               (Values.Make userId (Input.name i) (Input.address i)
                  (Input.city i) (Input.state i) (Input.zipCode i)
                  (Js.or_null (Input.naicsCode i))
                  (Js.or_null (Input.industryDescription i))
                  (Input.averageEmployees i) date))) (fun result =>
       match result with
       | [] => Throw (Error "Insert failed - no rows returned")
       | r :: _ => Return r
       end)))
      (fun _ => Throw (internal "Failed to create establishment")))).

(** [update] returns [result[0]]: the first updated row, or
    [undefined] when the statement updated none. *)
Definition update (ctx : context) (raw : update_input)
    : prog (option establishment) :=
  protectedProcedure ctx (fun userId =>
  input update_schema raw (fun i =>
    try_catch
      (bind (db (Select (and (eq_id (id i)) (eq_userId userId))
                   false (Some 1%nat))) (fun existing =>
       match existing with
       | [] => Throw not_found
       | _ :: _ =>
           bind new_Date (fun date =>
           bind (db (Update (data i) date (eq_id (id i)))) (fun result =>
           Return (head result)))
       end))
      (rethrow_or_internal "Failed to update establishment"))).

Definition delete (ctx : context) (raw : string) : prog acknowledgment :=
  protectedProcedure ctx (fun userId =>
  input id_schema raw (fun input_id =>
    try_catch
      (bind (db (Select (and (eq_id input_id) (eq_userId userId))
                   false (Some 1%nat))) (fun existing =>
       match existing with
       | [] => Throw not_found
       | _ :: _ =>
           bind (db (Drizzle.Delete (eq_id input_id))) (fun _ =>
           Return (Acknowledgment true))
       end))
      (rethrow_or_internal "Failed to delete establishment"))).

End Procedures.

End EstablishmentRouter.

(** ** lib/validations/establishment.ts and the submit handler of
    app/(dashboard)/establishments/add/page.tsx *)

Module EstablishmentForm.
Import Trpc.

(** [/^\d{5}(-\d{4})?$/] *)
Definition zipCode_pattern : Regex.re :=
  Regex.Cat (Regex.Rep 5 Regex.digit)
    (Regex.Opt (Regex.Cat (Regex.Chr "-") (Regex.Rep 4 Regex.digit))).

(** [/^\d{6}$/] *)
Definition naicsCode_pattern : Regex.re := Regex.Rep 6 Regex.digit.

Definition name_checks (s : string) : list Zod.issue :=
  Zod.min 1 "name" s ++ Zod.max 255 "name" s.

Definition address_checks (s : string) : list Zod.issue :=
  Zod.min 1 "address" s ++ Zod.max 500 "address" s.

Definition city_checks (s : string) : list Zod.issue :=
  Zod.min 1 "city" s ++ Zod.max 100 "city" s.

Definition zipCode_checks (s : string) : list Zod.issue :=
  Zod.regex zipCode_pattern "zipCode" s.

Definition naicsCode_checks (s : string) : list Zod.issue :=
  Zod.or_empty_literal (Zod.regex naicsCode_pattern "naicsCode") s.

Definition industryDescription_checks (s : string) : list Zod.issue :=
  Zod.or_empty_literal (Zod.max 500 "industryDescription") s.

Definition averageEmployees_checks (z : Z) : list Zod.issue :=
  Zod.int "averageEmployees" z ++
  Zod.number_min 0 "averageEmployees" z ++
  Zod.number_max 999999 "averageEmployees" z.

Definition issues (values : Payload.t) : list Zod.issue :=
  Zod.required "name" name_checks (Payload.name values) ++
  Zod.required "address" address_checks (Payload.address values) ++
  Zod.required "city" city_checks (Payload.city values) ++
  Zod.required "state" Validations.establishmentFormSchema_state
    (Payload.state values) ++
  Zod.required "zipCode" zipCode_checks (Payload.zipCode values) ++
  Zod.optional naicsCode_checks (Payload.naicsCode values) ++
  Zod.optional industryDescription_checks
    (Payload.industryDescription values) ++
  Zod.required "averageEmployees" averageEmployees_checks
    (Payload.averageEmployees values).

(** [establishmentFormSchema]: the checks of a string run before its
    [.trim()], which shapes the output only. *)
Definition establishmentFormSchema (values : Payload.t) : Zod.parsed Payload.t :=
  match issues values with
  | [] =>
      Zod.Valid
        (Payload.Make (Js.trim <$> Payload.name values)
           (Js.trim <$> Payload.address values)
           (Js.trim <$> Payload.city values)
           (Payload.state values)
           (Js.trim <$> Payload.zipCode values)
           (Payload.naicsCode values)
           (Payload.industryDescription values)
           (Payload.averageEmployees values))
  | l => Zod.Invalid l
  end.

(** [handleSubmit(onSubmit)]: the resolver parses the form values; with
    no error [onSubmit] sends the parsed data to
    [establishment.create], otherwise nothing is sent. *)
Definition submit (ctx : context) (values : Payload.t)
    : option (prog establishment) :=
  match establishmentFormSchema values with
  | Zod.Valid data => Some (EstablishmentRouter.create ctx data)
  | Zod.Invalid _ => None
  end.

End EstablishmentForm.

(** ** server/core/api/root.ts: the procedures under one router *)

Module AppRouter.
Import Trpc.

Inductive call : Type :=
| establishment_list
| establishment_getById (id : string)
| establishment_create (input : Payload.t)
| establishment_update (input : EstablishmentRouter.update_input)
| establishment_delete (id : string).

Inductive reply : Type :=
| Rows (rows : list establishment)
| Row (row : establishment)
| MaybeRow (row : option establishment)
| Done (ack : EstablishmentRouter.acknowledgment).

Definition handle (uuid : string -> bool) (ctx : context) (c : call)
    : prog reply :=
  match c with
  | establishment_list =>
      bind (EstablishmentRouter.list ctx) (fun l => Return (Rows l))
  | establishment_getById id =>
      bind (EstablishmentRouter.getById uuid ctx id) (fun r => Return (Row r))
  | establishment_create input =>
      bind (EstablishmentRouter.create ctx input) (fun r => Return (Row r))
  | establishment_update input =>
      bind (EstablishmentRouter.update uuid ctx input)
        (fun r => Return (MaybeRow r))
  | establishment_delete id =>
      bind (EstablishmentRouter.delete uuid ctx id) (fun a => Return (Done a))
  end.

(** The establishments a reply discloses. *)
Definition disclosed (r : reply) : list establishment :=
  match r with
  | Rows rows => rows
  | Row row => [row]
  | MaybeRow (Some row) => [row]
  | MaybeRow None => []
  | Done _ => []
  end.

End AppRouter.

(** ** app/hooks/useEstablishmentContext.ts *)

Module EstablishmentContext.

Definition ESTABLISHMENT_ID : string := "osha-selected-establishment".
Definition YEAR : string := "osha-selected-year".

(** The three [useState] cells of [EstablishmentProvider]. *)
Record state : Type := State {
  establishmentId : option string;
  year : Z;
  isHydrated : bool
}.

(** The provider as it is mounted; [currentYear] is
    [getCurrentYear()]. *)
Definition mount (currentYear : Z) : state := State None currentYear false.

(** The effect that runs once after mounting. *)
Definition hydrate (localStorage : gmap string string) (st : state) : state :=
  let savedEstablishmentId := localStorage !! ESTABLISHMENT_ID in
  let savedYear := localStorage !! YEAR in
  let st1 :=
    match savedEstablishmentId with
    | Some s =>
        if Js.truthy s then State (Some s) (year st) (isHydrated st) else st
    | None => st
    end in
  let st2 :=
    match savedYear with
    | Some s =>
        if Js.truthy s then
          match Js.parseInt10 s with
          | Js.Int parsedYear =>
              State (establishmentId st1) parsedYear (isHydrated st1)
          | Js.NaN => st1
          end
        else st1
    | None => st1
    end in
  State (establishmentId st2) (year st2) true.

Definition setEstablishmentId (id : option string)
    (w : state * gmap string string) : state * gmap string string :=
  let '(st, localStorage) := w in
  (State id (year st) (isHydrated st),
   match id with
   | Some s =>
       if Js.truthy s then <[ESTABLISHMENT_ID := s]> localStorage
       else base.delete ESTABLISHMENT_ID localStorage
   | None => base.delete ESTABLISHMENT_ID localStorage
   end).

Definition setYear (newYear : Z)
    (w : state * gmap string string) : state * gmap string string :=
  let '(st, localStorage) := w in
  (State (establishmentId st) newYear (isHydrated st),
   <[YEAR := Js.toString newYear]> localStorage).

(** A page load: the provider is mounted anew and hydrated from what
    the storage holds. *)
Definition reload (currentYear : Z) (localStorage : gmap string string)
    : state :=
  hydrate localStorage (mount currentYear).

End EstablishmentContext.

(** ** app/components/YearSelector.tsx *)

Module YearSelector.
Import EstablishmentContext.

(** [for (let i = lo; i <= hi; i++) years.push(i)] *)
Definition count_up (lo hi : Z) : list Z :=
  (fun k => (lo + Z.of_nat k)%Z) <$> seq 0 (Z.to_nat (hi - lo + 1)).

Definition descending (a b : Z) : Prop := (b <= a)%Z.

#[export] Instance descending_dec a b : Decision (descending a b).
Proof. unfold descending. apply _. Defined.

(** [years.sort((a, b) => b - a)] *)
Definition sort_descending (years : list Z) : list Z :=
  merge_sort descending years.

Definition getDefaultYearRange (currentYear : Z) : list Z :=
  sort_descending (count_up (currentYear - 5) (currentYear + 2)).

(** The [value] of [<option value={y}>]: the number as text. *)
Definition option_value (y : Z) : string := Js.toString y.

(** [handleYearChange] on the [value] of the chosen option. *)
Definition handleYearChange (value : string)
    (w : state * gmap string string) : state * gmap string string :=
  match Js.parseInt10 value with
  | Js.Int selectedYear => setYear selectedYear w
  | Js.NaN => w
  end.

End YearSelector.

(** ** app/components/EstablishmentSelector.tsx *)

Module EstablishmentSelector.
Import EstablishmentContext.

Inductive view : Type :=
| Loading
| NoEstablishments
| Dropdown (value : string) (options : list (string * string)).

(** The [value] and the text of the option of one establishment. *)
Definition option_of (est : establishment) : string * string :=
  (Schema.Establishments.id est,
   String.append (Schema.Establishments.name est)
     (String.append " - "
        (String.append (Schema.Establishments.city est)
           (String.append ", " (Schema.Establishments.state est))))).

(** What the component shows for the selected id and the state of the
    [establishment.list] query. *)
Definition render (establishmentId : option string) (isLoading : bool)
    (establishments : option (list establishment)) : view :=
  if isLoading then Loading
  else
    match establishments with
    | None => NoEstablishments
    | Some [] => NoEstablishments
    | Some l =>
        Dropdown (default "" (Js.or_null establishmentId))
          (("", "Select establishment...") :: (option_of <$> l))
    end.

(** [handleEstablishmentChange]: [setEstablishmentId(value || null)] *)
Definition handleEstablishmentChange (value : string)
    (w : state * gmap string string) : state * gmap string string :=
  setEstablishmentId (Js.or_null (Some value)) w.

End EstablishmentSelector.

(** ** What a user does with the two selectors, in order *)

Module Session.
Import EstablishmentContext.

Inductive action : Type :=
| ChooseYear (value : string)
| ChooseEstablishment (value : string).

Definition act (w : state * gmap string string) (a : action)
    : state * gmap string string :=
  match a with
  | ChooseYear value => YearSelector.handleYearChange value w
  | ChooseEstablishment value =>
      EstablishmentSelector.handleEstablishmentChange value w
  end.

(** A page load followed by the actions. *)
Definition after (currentYear : Z) (localStorage : gmap string string)
    (actions : list action) : state * gmap string string :=
  foldl act (reload currentYear localStorage, localStorage) actions.

End Session.

(** ** Vocabulary for the statements below *)

Module Spec.
Import Schema.
Module E := Schema.Establishments.

(** A signed-in caller with Clerk id [u]. *)
Definition signed_in (u : string) : Trpc.context :=
  Trpc.createTRPCContext (Some (Trpc.ClerkUser u)).

Fixpoint every (p : ascii -> bool) (s : string) : Prop :=
  match s with
  | EmptyString => True
  | String c s' => p c = true /\ every p s'
  end.

Definition digits (s : string) : Prop := every Js.is_digit s.

(** Five digits, or five digits, a hyphen and four more digits. *)
Definition postal_code (s : string) : Prop :=
  (String.length s = 5%nat /\ digits s) \/
  (exists a b,
      s = String.append a (String "-" b) /\
      String.length a = 5%nat /\ digits a /\
      String.length b = 4%nat /\ digits b).

(** Exactly six digits. *)
Definition classification_code (s : string) : Prop :=
  String.length s = 6%nat /\ digits s.

Definition between (lo hi : nat) (s : string) : Prop :=
  (lo <= String.length s <= hi)%nat.

(** The constraints of [establishmentInputSchema], field by field. *)
Record constraints (n a c s z : string) (naics descr : option string)
    (avg : Z) : Prop := Constraints {
  name_ok : between 1 255 n;
  address_ok : between 1 500 a;
  city_ok : between 1 100 c;
  state_ok : String.length s = 2%nat;
  zipCode_ok : postal_code z;
  naicsCode_ok : forall x, naics = Some x -> classification_code x;
  industryDescription_ok :
    forall x, descr = Some x -> (String.length x <= 500)%nat;
  averageEmployees_ok : (0 <= avg <= Js.MAX_SAFE_INTEGER)%Z
}.

(** The row that [create] inserts for an accepted payload. *)
Definition created (env : Trpc.environment) (u n a c s z : string)
    (naics descr : option string) (avg : Z) : establishment :=
  E.Row (Drizzle.gen_random_uuid (Trpc.pg env)) u n a c (Js.toUpperCase s) z
    (Js.or_null naics) (Js.or_null descr) avg
    (Drizzle.now (Trpc.pg env)) (Trpc.clock env).

(** The primary key of [establishments]. *)
Definition primary_key (d : database) : Prop :=
  NoDup (E.id <$> establishments d).

(** [r] is the row of [d] that [id] names and [u] owns. *)
Definition owns (d : database) (u id : string) (r : establishment) : Prop :=
  r ∈ establishments d /\ E.id r = Drizzle.uuid_in id /\ E.userId r = u.

(** Text that the store takes: no code unit 0 in what the object
    holds, and for [create] a caller id that is such text and fits its
    column. *)
Definition nul_free (p : Payload.t) : Prop :=
  existsb Drizzle.has_nul (Payload.text p) = false.

Definition storable (u : string) (p : Payload.t) : Prop :=
  Drizzle.has_nul u = false /\ (String.length u <= 255)%nat /\ nul_free p.

(** A request that the middleware of [protectedProcedure] turns away. *)
Definition anonymous (ctx : Trpc.context) : Prop :=
  Trpc.userId ctx = None \/ Trpc.user ctx = None \/ Trpc.userId ctx = Some "".

End Spec.

(** ** Invariants of the store *)

Module Invariant.
Import Schema.
Module E := Schema.Establishments.
Module S := Schema.Subscriptions.

(** The foreign key of [subscriptions]. *)
Definition foreign_key (d : database) : Prop :=
  forall s, s ∈ subscriptions d ->
    S.establishmentId s ∈ E.id <$> establishments d.

(** A row as the server schema lets it in. *)
Record valid_row (r : establishment) : Prop := ValidRow {
  valid_name : Spec.between 1 255 (E.name r);
  valid_address : Spec.between 1 500 (E.address r);
  valid_city : Spec.between 1 100 (E.city r);
  valid_state : String.length (E.state r) = 2%nat /\
                Js.toUpperCase (E.state r) = E.state r;
  valid_zipCode : Spec.postal_code (E.zipCode r);
  valid_naicsCode :
    forall x, E.naicsCode r = Some x -> Spec.classification_code x;
  valid_industryDescription :
    forall x, E.industryDescription r = Some x -> (String.length x <= 500)%nat;
  valid_averageEmployees : (0 <= E.averageEmployees r <= 2147483647)%Z
}.

Definition valid_rows (d : database) : Prop :=
  forall r, r ∈ establishments d -> valid_row r.

(** [r'] is [r] as far as identity goes. *)
Definition same_identity (r r' : establishment) : Prop :=
  E.id r' = E.id r /\ E.userId r' = E.userId r /\ E.createdAt r' = E.createdAt r.

(** A request that threw and left the store [d] as it was; it threw
    [UNAUTHORIZED] only if the middleware turned it away. *)
Definition fails {A} (ctx : Trpc.context) (r : Trpc.outcome A * database)
    (d : database) : Prop :=
  exists e, r = (Trpc.Err e, d) /\ (e = Trpc.unauthorized -> Spec.anonymous ctx).

(** The ways a call to the router can end, with the store it leaves:
    the case analysis that the facts about calls go through. *)
Inductive effect (env : Trpc.environment) (ctx : Trpc.context) (d : database)
    : AppRouter.call -> Trpc.outcome AppRouter.reply -> database -> Prop :=
| failed c e :
    (e = Trpc.unauthorized -> Spec.anonymous ctx) ->
    effect env ctx d c (Trpc.Err e) d
| listed u :
    Trpc.userId ctx = Some u -> u <> "" ->
    effect env ctx d AppRouter.establishment_list
      (Trpc.Ok (AppRouter.Rows
                  (Drizzle.select (Drizzle.eq_userId u) true None d))) d
| fetched u id r :
    Trpc.userId ctx = Some u -> u <> "" -> Spec.owns d u id r ->
    effect env ctx d (AppRouter.establishment_getById id)
      (Trpc.Ok (AppRouter.Row r)) d
| inserted u n a c s z naics descr avg :
    Trpc.userId ctx = Some u -> u <> "" ->
    Spec.constraints n a c s z naics descr avg ->
    Drizzle.fits_integer avg = true ->
    Drizzle.gen_random_uuid (Trpc.pg env) ∉ E.id <$> establishments d ->
    effect env ctx d
      (AppRouter.establishment_create
         (Payload.Make (Some n) (Some a) (Some c) (Some s) (Some z) naics descr
            (Some avg)))
      (Trpc.Ok (AppRouter.Row (Spec.created env u n a c s z naics descr avg)))
      (Database
         (establishments d ++ [Spec.created env u n a c s z naics descr avg])
         (subscriptions d))
| updated u id data a :
    Trpc.userId ctx = Some u -> u <> "" ->
    EstablishmentRouter.issues true data = [] ->
    (forall n, Payload.averageEmployees data = Some n ->
               Drizzle.fits_integer n = true) ->
    Spec.owns d u id a ->
    effect env ctx d
      (AppRouter.establishment_update (EstablishmentRouter.UpdateInput id data))
      (Trpc.Ok (AppRouter.MaybeRow
         (head (Drizzle.set (EstablishmentRouter.normalized data)
                  (Trpc.clock env)
                <$> filter (fun r => Drizzle.holds (Drizzle.eq_id id) r)
                      (establishments d)))))
      (Database
         ((fun r => if Drizzle.holds (Drizzle.eq_id id) r
                    then Drizzle.set (EstablishmentRouter.normalized data)
                           (Trpc.clock env) r
                    else r)
            <$> establishments d)
         (subscriptions d))
| deleted u id a :
    Trpc.userId ctx = Some u -> u <> "" -> Spec.owns d u id a ->
    effect env ctx d (AppRouter.establishment_delete id)
      (Trpc.Ok (AppRouter.Done (EstablishmentRouter.Acknowledgment true)))
      (Drizzle.delete (Drizzle.eq_id id) d).2.

End Invariant.

(** ** A small store to run the procedures on *)

Module Fixture.
Import Schema.
Module E := Schema.Establishments.
Module S := Schema.Subscriptions.

Definition alice : string := "user_alice".
Definition bob : string := "user_bob".

Definition id1 : string := "3f2504e0-4f89-41d3-9a0c-0305e82c3301".
Definition id2 : string := "3f2504e0-4f89-41d3-9a0c-0305e82c3302".
Definition id3 : string := "3f2504e0-4f89-41d3-9a0c-0305e82c3303".

Definition foundry : establishment :=
  E.Row id1 alice "Foundry" "1 Main St" "Fresno" "CA" "93650"
    (Some "331110") None 40 100 100.

Definition sawmill : establishment :=
  E.Row id2 bob "Sawmill" "2 Oak Ave" "Eugene" "OR" "97401-1234"
    None (Some "Lumber") 12 200 250.

Definition coverage : subscription :=
  S.Row "9b2c1a50-0000-4000-8000-000000000001" id1 2026 "sub_1" "active" 300 300.

Definition store : database := Database [foundry; sawmill] [coverage].

Definition env : Trpc.environment :=
  Trpc.Environment 2000 (Drizzle.Defaults 1999 id3).

Definition payload (region : string) : Payload.t :=
  Payload.Make (Some "Press shop") (Some "3 Mill Rd") (Some "Reno")
    (Some region) (Some "89501") None (Some "") (Some 7%Z).

Definition headcount_only : Payload.t :=
  Payload.Make None None None None None None None (Some 55%Z).

(** What the add form holds when it is filled in, with the
    classification code left blank or given. *)
Definition form_values (naics : string) : Payload.t :=
  Payload.Make (Some " Press shop ") (Some "3 Mill Rd") (Some "Reno")
    (Some "NV") (Some "89501") (Some naics) (Some "") (Some 7%Z).

End Fixture.

(** * Properties *)

(** ** JavaScript primitives *)

Module JsFacts.
Import Js.

Lemma leading_digits_string_of_uint d :
  leading_digits (NilEmpty.string_of_uint d) = d.
Proof. induction d; simpl; rewrite ?IHd; reflexivity. Qed.

Lemma string_of_uint_head d :
  d <> Decimal.Nil ->
  exists c s,
    NilEmpty.string_of_uint d = String c s /\
    is_space c = false /\ c <> "-"%char /\ c <> "+"%char.
Proof.
  destruct d; [congruence | ..]; intros _; simpl;
    eexists _, _; (split; [reflexivity |]); repeat split; discriminate.
Qed.

Lemma is_Nil_false d : d <> Decimal.Nil -> is_Nil d = false.
Proof. destruct d; [congruence | reflexivity..]. Qed.

(** A numeral printed without sign reads back as itself. *)
Lemma parseInt10_numeral d :
  d <> Decimal.Nil ->
  parseInt10 (NilEmpty.string_of_uint d) = Int (Z.of_uint d).
Proof.
  intros Hd. destruct (string_of_uint_head d Hd) as (c & s & Hs & Hsp & Hm & Hp).
  unfold parseInt10.
  assert (Ht : trim_start (NilEmpty.string_of_uint d) = NilEmpty.string_of_uint d)
    by (rewrite Hs; simpl; rewrite Hsp; reflexivity).
  rewrite Ht.
  assert (H1 : starts_with "-" (NilEmpty.string_of_uint d) = false)
    by (rewrite Hs; simpl; apply Ascii.eqb_neq; assumption).
  assert (H2 : starts_with "+" (NilEmpty.string_of_uint d) = false)
    by (rewrite Hs; simpl; apply Ascii.eqb_neq; assumption).
  rewrite H1, H2. simpl orb. cbv iota.
  rewrite leading_digits_string_of_uint, is_Nil_false by assumption.
  destruct (Z.of_uint d); reflexivity.
Qed.

Lemma parseInt10_minus d :
  d <> Decimal.Nil ->
  parseInt10 (String "-" (NilEmpty.string_of_uint d)) = Int (- Z.of_uint d).
Proof.
  intros Hd. unfold parseInt10.
  change (trim_start (String "-" (NilEmpty.string_of_uint d)))
    with (String "-" (NilEmpty.string_of_uint d)).
  change (starts_with "-" (String "-" (NilEmpty.string_of_uint d))) with true.
  simpl orb. cbv iota. simpl tail.
  rewrite leading_digits_string_of_uint, is_Nil_false by assumption.
  destruct (Z.of_uint d); reflexivity.
Qed.

(** Printing an integer and parsing it back. *)
Lemma parseInt10_toString z : parseInt10 (toString z) = Int z.
Proof.
  unfold toString. destruct z as [| p | p].
  - reflexivity.
  - change (Z.to_int (Z.pos p)) with (Decimal.Pos (Pos.to_uint p)).
    pose proof (Unsigned.to_uint_nonnil p) as Hn.
    assert (NilZero.string_of_int (Decimal.Pos (Pos.to_uint p))
            = NilEmpty.string_of_uint (Pos.to_uint p)) as ->
      by (simpl; unfold NilZero.string_of_uint; destruct (Pos.to_uint p); congruence).
    rewrite parseInt10_numeral by assumption.
    f_equal. exact (DecimalZ.of_to (Z.pos p)).
  - change (Z.to_int (Z.neg p)) with (Decimal.Neg (Pos.to_uint p)).
    pose proof (Unsigned.to_uint_nonnil p) as Hn.
    assert (NilZero.string_of_int (Decimal.Neg (Pos.to_uint p))
            = String "-" (NilEmpty.string_of_uint (Pos.to_uint p))) as ->
      by (simpl; unfold NilZero.string_of_uint; destruct (Pos.to_uint p); congruence).
    rewrite parseInt10_minus by assumption.
    f_equal. exact (DecimalZ.of_to (Z.neg p)).
Qed.

Lemma toString_truthy z : truthy (toString z) = true.
Proof.
  unfold toString. destruct z as [| p | p]; try reflexivity.
  change (Z.to_int (Z.pos p)) with (Decimal.Pos (Pos.to_uint p)).
  pose proof (Unsigned.to_uint_nonnil p) as Hn.
  simpl. unfold NilZero.string_of_uint.
  destruct (Pos.to_uint p); [congruence | reflexivity..].
Qed.

Lemma truthy_nonempty s : s <> "" -> truthy s = true.
Proof. destruct s; [congruence | reflexivity]. Qed.

Lemma toUpperCase_length s : String.length (toUpperCase s) = String.length s.
Proof. induction s; simpl; [reflexivity | f_equal; assumption]. Qed.

Lemma or_null_some x y : or_null x = Some y -> x = Some y.
Proof.
  destruct x as [s |]; [| discriminate]. simpl.
  destruct (truthy s); [auto | discriminate].
Qed.

End JsFacts.

(** ** Regular expressions: [test] decides the language *)

Module RegexFacts.
Import Regex.
#[local] Arguments String.append !_ _ : simpl nomatch.

Lemma append_nil_r s : String.append s "" = s.
Proof. induction s; simpl; [reflexivity | f_equal; assumption]. Qed.

Lemma append_eq_nil s1 s2 :
  String.append s1 s2 = "" -> s1 = "" /\ s2 = "".
Proof. destruct s1; simpl; [auto | discriminate]. Qed.

Lemma append_length s1 s2 :
  String.length (String.append s1 s2) = (String.length s1 + String.length s2)%nat.
Proof. induction s1; simpl; [reflexivity | f_equal; assumption]. Qed.

Lemma nullable_lang r : nullable r = true <-> lang r "".
Proof.
  induction r as [| | p | r1 IH1 r2 IH2 | r1 IH1 r2 IH2]; simpl.
  - split; [discriminate | tauto].
  - tauto.
  - split; [discriminate | intros (c & _ & [=])].
  - rewrite andb_true_iff, IH1, IH2. split.
    + intros [H1 H2]. exists "", "". auto.
    + intros (s1 & s2 & Heq & H1 & H2).
      symmetry in Heq. apply append_eq_nil in Heq as [-> ->]. auto.
  - rewrite orb_true_iff, IH1, IH2. tauto.
Qed.

Lemma deriv_lang c r : forall s, lang (deriv c r) s <-> lang r (String c s).
Proof.
  induction r as [| | p | r1 IH1 r2 IH2 | r1 IH1 r2 IH2]; intros s; simpl.
  - tauto.
  - split; [tauto | discriminate].
  - destruct (p c) eqn:Hp; simpl.
    + split.
      * intros ->. exists c. auto.
      * intros (c' & _ & [= _ ->]). reflexivity.
    + split; [tauto |]. intros (c' & Hc' & [= <- _]). congruence.
  - assert (Hcat : (exists s1 s2, s = String.append s1 s2 /\
                       lang (deriv c r1) s1 /\ lang r2 s2) <->
                   (exists t s2, String c s = String.append (String c t) s2 /\
                       lang r1 (String c t) /\ lang r2 s2)).
    { split; intros (s1 & s2 & Heq & H1 & H2); exists s1, s2.
      - rewrite <- IH1. simpl. subst s. auto.
      - rewrite IH1. simpl in Heq. injection Heq as ->. auto. }
    destruct (nullable r1) eqn:Hn; simpl; rewrite ?Hcat, ?IH2.
    + split.
      * intros [(t & s2 & Heq & H1 & H2) | H2].
        -- exists (String c t), s2. auto.
        -- exists "", (String c s). split; [reflexivity |].
           split; [apply nullable_lang; assumption | assumption].
      * intros (s1 & s2 & Heq & H1 & H2). destruct s1 as [| c' t].
        -- right. simpl in Heq. subst s2. assumption.
        -- left. simpl in Heq. injection Heq as <- ->.
           exists t, s2. auto.
    + split.
      * intros (t & s2 & Heq & H1 & H2). exists (String c t), s2. auto.
      * intros (s1 & s2 & Heq & H1 & H2). destruct s1 as [| c' t].
        -- apply nullable_lang in H1. congruence.
        -- simpl in Heq. injection Heq as <- ->. exists t, s2. auto.
  - rewrite IH1, IH2. tauto.
Qed.

Theorem test_lang s : forall r, test r s = true <-> lang r s.
Proof.
  induction s as [| c s IH]; intros r; simpl.
  - apply nullable_lang.
  - rewrite IH. apply deriv_lang.
Qed.

(** [p{n}]: exactly [n] characters, each in the class. *)
Lemma lang_Rep_Class p n :
  forall s, lang (Rep n (Class p)) s <-> String.length s = n /\ Spec.every p s.
Proof.
  induction n as [| n IH]; intros s; simpl.
  - split.
    + intros ->. simpl. auto.
    + intros [H _]. destruct s; [reflexivity | discriminate].
  - split.
    + intros (s1 & s2 & -> & (c & Hc & ->) & H2). apply IH in H2 as [<- H2].
      simpl. auto.
    + intros [Hlen Hall]. destruct s as [| c s]; [discriminate |].
      simpl in Hlen, Hall. injection Hlen as Hlen. destruct Hall as [Hc Hall].
      exists (String c ""), s. split; [reflexivity |].
      split; [exists c; auto | apply IH; auto].
Qed.

Lemma lang_Chr c s : lang (Chr c) s <-> s = String c "".
Proof.
  unfold Chr; simpl. split.
  - intros (c' & Hc & ->). apply Ascii.eqb_eq in Hc. congruence.
  - intros ->. exists c. split; [apply Ascii.eqb_refl | reflexivity].
Qed.

End RegexFacts.

(** ** The input schema *)

Module SchemaFacts.
Import Zod.
Import EstablishmentRouter(name_checks, address_checks, city_checks,
  state_checks, zipCode_checks, naicsCode_checks, industryDescription_checks,
  averageEmployees_checks, zipCode_pattern, naicsCode_pattern, issues, key).
#[local] Arguments String.append !_ _ : simpl nomatch.

Lemma check_nil ok p c : check ok p c = [] <-> ok = true.
Proof. destruct ok; simpl; split; congruence. Qed.

Lemma min_nil n p s : Zod.min n p s = [] <-> (n <= String.length s)%nat.
Proof. unfold Zod.min. rewrite check_nil. apply Nat.leb_le. Qed.

Lemma max_nil n p s : Zod.max n p s = [] <-> (String.length s <= n)%nat.
Proof. unfold Zod.max. rewrite check_nil. apply Nat.leb_le. Qed.

Lemma length_nil n p s : Zod.length n p s = [] <-> String.length s = n.
Proof.
  unfold Zod.length. rewrite app_nil, !check_nil, !Nat.leb_le. lia.
Qed.

Lemma regex_nil r p s : Zod.regex r p s = [] <-> Regex.lang r s.
Proof. unfold Zod.regex. rewrite check_nil. apply RegexFacts.test_lang. Qed.

Lemma name_checks_nil s : name_checks s = [] <-> Spec.between 1 255 s.
Proof. unfold name_checks. rewrite app_nil, min_nil, max_nil. reflexivity. Qed.

Lemma address_checks_nil s : address_checks s = [] <-> Spec.between 1 500 s.
Proof. unfold address_checks. rewrite app_nil, min_nil, max_nil. reflexivity. Qed.

Lemma city_checks_nil s : city_checks s = [] <-> Spec.between 1 100 s.
Proof. unfold city_checks. rewrite app_nil, min_nil, max_nil. reflexivity. Qed.

(** The server's check on the region code: two characters, nothing
    else. *)
Lemma state_checks_nil s : state_checks s = [] <-> String.length s = 2%nat.
Proof. apply length_nil. Qed.

Lemma zipCode_pattern_lang s :
  Regex.lang zipCode_pattern s <-> Spec.postal_code s.
Proof.
  unfold Spec.postal_code, Spec.digits.
  change (Regex.lang zipCode_pattern s) with
    (exists s1 s2, s = String.append s1 s2 /\
       Regex.lang (Regex.Rep 5 Regex.digit) s1 /\
       (s2 = "" \/
        exists t1 t2, s2 = String.append t1 t2 /\
          Regex.lang (Regex.Chr "-") t1 /\
          Regex.lang (Regex.Rep 4 Regex.digit) t2)).
  split.
  - intros (s1 & s2 & -> & H1 & H2).
    apply (RegexFacts.lang_Rep_Class Js.is_digit 5) in H1 as [Hl1 Hd1].
    destruct H2 as [-> | (t1 & t2 & -> & Hdash & H4)].
    + left. rewrite RegexFacts.append_nil_r. auto.
    + right. apply RegexFacts.lang_Chr in Hdash as ->.
      apply (RegexFacts.lang_Rep_Class Js.is_digit 4) in H4 as [Hl4 Hd4].
      exists s1, t2. simpl. auto.
  - intros [[Hl Hd] | (a & b & -> & Hla & Hda & Hlb & Hdb)].
    + exists s, "". split; [symmetry; apply RegexFacts.append_nil_r |].
      split; [apply (RegexFacts.lang_Rep_Class Js.is_digit 5); auto | left; reflexivity].
    + exists a, (String "-" b). split; [reflexivity |].
      split; [apply (RegexFacts.lang_Rep_Class Js.is_digit 5); auto |].
      right. exists (String "-" ""), b. split; [reflexivity |].
      split; [apply RegexFacts.lang_Chr; reflexivity |].
      apply (RegexFacts.lang_Rep_Class Js.is_digit 4); auto.
Qed.

Lemma postal_code_length s : Spec.postal_code s -> (String.length s <= 10)%nat.
Proof.
  intros [[Hl _] | (a & b & -> & Hla & _ & Hlb & _)].
  - lia.
  - rewrite RegexFacts.append_length. simpl. lia.
Qed.

(** The postal code passes exactly when it has one of the two shapes;
    [.max(10)] adds nothing. *)
Lemma zipCode_checks_nil s : zipCode_checks s = [] <-> Spec.postal_code s.
Proof.
  unfold zipCode_checks. rewrite app_nil, regex_nil, max_nil, zipCode_pattern_lang.
  split; [tauto |]. intros H. split; [assumption | apply postal_code_length; assumption].
Qed.

Lemma naicsCode_checks_nil s :
  naicsCode_checks s = [] <-> Spec.classification_code s.
Proof.
  unfold naicsCode_checks, naicsCode_pattern. rewrite regex_nil.
  apply (RegexFacts.lang_Rep_Class Js.is_digit 6).
Qed.

Lemma industryDescription_checks_nil s :
  industryDescription_checks s = [] <-> (String.length s <= 500)%nat.
Proof. apply max_nil. Qed.

Lemma averageEmployees_checks_nil z :
  averageEmployees_checks z = [] <-> (0 <= z <= Js.MAX_SAFE_INTEGER)%Z.
Proof.
  unfold averageEmployees_checks, int, number_min.
  rewrite !app_nil, !check_nil, !Z.leb_le.
  unfold Js.MAX_SAFE_INTEGER. lia.
Qed.

Lemma optional_nil {A} (checks : A -> list issue) (P : A -> Prop) x :
  (forall a, checks a = [] <-> P a) ->
  optional checks x = [] <-> (forall a, x = Some a -> P a).
Proof.
  intros H. destruct x as [a |]; simpl.
  - rewrite H. split; [intros Ha ? [= <-]; assumption | auto].
  - split; [intros _ ? [=] | reflexivity].
Qed.

(** A payload with all required keys passes exactly when every field
    meets its constraint. *)
Lemma issues_nil n a c s z naics descr avg :
  issues false
    (Payload.Make (Some n) (Some a) (Some c) (Some s) (Some z) naics descr
       (Some avg)) = []
  <-> Spec.constraints n a c s z naics descr avg.
Proof.
  unfold issues, key. simpl.
  rewrite !app_nil, name_checks_nil, address_checks_nil, city_checks_nil,
    state_checks_nil, zipCode_checks_nil, averageEmployees_checks_nil,
    (optional_nil _ _ naics naicsCode_checks_nil),
    (optional_nil _ _ descr industryDescription_checks_nil).
  split.
  - intros (? & ? & ? & ? & ? & ? & ? & ?). constructor; assumption.
  - intros []. do 7 (split; [assumption |]). assumption.
Qed.

(** A missing required key is an issue. *)
Lemma issues_required_missing (p : Payload.t) :
  Payload.name p = None \/ Payload.address p = None \/ Payload.city p = None \/
  Payload.state p = None \/ Payload.zipCode p = None \/
  Payload.averageEmployees p = None ->
  issues false p <> [].
Proof.
  unfold issues, key. rewrite !app_nil.
  intros H (H1 & H2 & H3 & H4 & H5 & _ & _ & H6).
  destruct H as [H | [H | [H | [H | [H | H]]]]]; rewrite H in *; discriminate.
Qed.

End SchemaFacts.

(** ** The store *)

Module StoreFacts.
Import Schema Drizzle.
Module E := Schema.Establishments.
Module S := Schema.Subscriptions.

Lemma holds_eq_id id r : holds (eq_id id) r = true <-> E.id r = uuid_in id.
Proof. apply String.eqb_eq. Qed.

Lemma holds_eq_userId u r : holds (eq_userId u) r = true <-> E.userId r = u.
Proof. apply String.eqb_eq. Qed.

Lemma holds_and c1 c2 r :
  holds (and c1 c2) r = true <-> holds c1 r = true /\ holds c2 r = true.
Proof. apply andb_true_iff. Qed.

Lemma holds_id_owner id u r :
  holds (and (eq_id id) (eq_userId u)) r = true
  <-> E.id r = uuid_in id /\ E.userId r = u.
Proof. rewrite holds_and, holds_eq_id, holds_eq_userId. reflexivity. Qed.

Lemma elem_of_matching c (l : list establishment) r :
  r ∈ filter (fun r => holds c r) l <-> holds c r = true /\ r ∈ l.
Proof. rewrite list_elem_of_filter, Is_true_true. reflexivity. Qed.

Lemma filter_none {A} (P : A -> Prop) `{forall x, Decision (P x)} (l : list A) :
  (forall r, r ∈ l -> ~ P r) -> filter P l = [].
Proof.
  intros Hno. induction l as [| x l IH]; [reflexivity |].
  rewrite filter_cons_False by (apply Hno; left).
  apply IH. intros r Hr. apply Hno. right. assumption.
Qed.

(** On a key column, a condition that pins the key selects one row. *)
Lemma filter_unique {A B} (f : A -> B) (P : A -> Prop)
    `{forall x, Decision (P x)} (l : list A) (a : A) :
  NoDup (f <$> l) -> a ∈ l -> P a -> (forall r, P r -> f r = f a) ->
  filter P l = [a].
Proof.
  intros Hnd Hin Pa Hkey. induction l as [| x l IH]; [inversion Hin |].
  rewrite fmap_cons in Hnd. apply NoDup_cons in Hnd as [Hx Hnd].
  rewrite filter_cons. destruct (decide (P x)) as [Px | Px].
  - assert (a = x) as ->.
    { apply elem_of_cons in Hin as [-> | Hin]; [reflexivity |].
      exfalso. apply Hx. rewrite (Hkey x Px).
      apply list_elem_of_fmap_2. assumption. }
    f_equal. apply filter_none. intros r Hr Pr.
    apply Hx. rewrite <- (Hkey r Pr). apply list_elem_of_fmap_2. assumption.
  - apply elem_of_cons in Hin as [-> | Hin]; [contradiction |]. auto.
Qed.

(** Ownership check, no row: the select is empty. *)
Lemma select_owned_none d id u :
  (forall r, r ∈ establishments d -> E.id r = uuid_in id -> E.userId r <> u) ->
  select (and (eq_id id) (eq_userId u)) false (Some 1%nat) d = [].
Proof.
  intros Hno. unfold select.
  assert (filter (fun r => holds (and (eq_id id) (eq_userId u)) r)
            (establishments d) = []) as ->; [| reflexivity].
  apply filter_none. intros r Hr Hh.
  apply Is_true_true, holds_id_owner in Hh as [Hid Hu].
  exact (Hno r Hr Hid Hu).
Qed.

(** Ownership check, the caller's row: the select finds a row. *)
Lemma select_owned_some d id u a :
  Spec.owns d u id a ->
  exists r, select (and (eq_id id) (eq_userId u)) false (Some 1%nat) d = [r]
            /\ Spec.owns d u id r.
Proof.
  intros (Hin & Hid & Hu). unfold select.
  destruct (filter (fun r => holds (and (eq_id id) (eq_userId u)) r)
              (establishments d)) as [| r rest] eqn:Hf.
  - exfalso. apply (filter_nil_not_elem_of _ _ a Hf); [| assumption].
    apply Is_true_true, holds_id_owner. auto.
  - exists r. split; [reflexivity |].
    assert (Hr : r ∈ filter (fun r => holds (and (eq_id id) (eq_userId u)) r)
                   (establishments d)) by (rewrite Hf; left).
    apply elem_of_matching in Hr as [Hh Hr]. apply holds_id_owner in Hh.
    split; tauto.
Qed.

Lemma select_owned_unique d id u a :
  Spec.primary_key d -> Spec.owns d u id a ->
  select (and (eq_id id) (eq_userId u)) false (Some 1%nat) d = [a].
Proof.
  intros Hpk (Hin & Hid & Hu). unfold select.
  rewrite (filter_unique E.id _ (establishments d) a); try assumption.
  - reflexivity.
  - apply Is_true_true, holds_id_owner. auto.
  - intros r Hr. apply Is_true_true, holds_id_owner in Hr as [-> _]. auto.
Qed.

Lemma matching_id_unique d id a :
  Spec.primary_key d -> a ∈ establishments d -> E.id a = uuid_in id ->
  filter (fun r => holds (eq_id id) r) (establishments d) = [a].
Proof.
  intros Hpk Hin Hid.
  apply (filter_unique E.id); try assumption.
  - apply Is_true_true, holds_eq_id. assumption.
  - intros r Hr. apply Is_true_true, holds_eq_id in Hr. congruence.
Qed.

(** The statements keep the primary key. *)
Lemma set_id data t r : E.id (set data t r) = E.id r.
Proof. reflexivity. Qed.

(** *** What the store refuses *)

Lemma varchar_within n s : (String.length s <= n)%nat -> varchar n s = true.
Proof. intros H. unfold varchar. apply Nat.leb_le. assumption. Qed.

Lemma varchar_null_within n x :
  (forall s, x = Some s -> (String.length s <= n)%nat) ->
  varchar_null n x = true.
Proof.
  intros H. destruct x as [s |]; [| reflexivity]. simpl.
  apply varchar_within. auto.
Qed.

Lemma has_nul_append s1 s2 :
  has_nul (String.append s1 s2) = has_nul s1 || has_nul s2.
Proof.
  induction s1 as [| c s1 IH]; [reflexivity |].
  change (String.append (String c s1) s2) with (String c (String.append s1 s2)).
  cbn [has_nul]. rewrite IH. apply orb_assoc.
Qed.

Lemma has_nul_upper_char c :
  Ascii.eqb (Js.upper_char c) "000" = Ascii.eqb c "000".
Proof. destruct c as [[] [] [] [] [] [] [] []]; reflexivity. Qed.

Lemma has_nul_toUpperCase s : has_nul (Js.toUpperCase s) = has_nul s.
Proof.
  induction s as [| c s IH]; [reflexivity |].
  change (Js.toUpperCase (String c s))
    with (String (Js.upper_char c) (Js.toUpperCase s)).
  cbn [has_nul]. rewrite has_nul_upper_char, IH. reflexivity.
Qed.

Lemma digit_is_not_nul c : Js.is_digit c = true -> Ascii.eqb c "000" = false.
Proof. destruct c as [[] [] [] [] [] [] [] []]; vm_compute; congruence. Qed.

Lemma digits_have_no_nul s : Spec.digits s -> has_nul s = false.
Proof.
  induction s as [| c s IH]; [reflexivity |]. intros [Hc Hs].
  cbn [has_nul]. rewrite (digit_is_not_nul c Hc), IH by assumption.
  reflexivity.
Qed.

Lemma postal_code_has_no_nul z : Spec.postal_code z -> has_nul z = false.
Proof.
  intros [[_ Hz] | (a & b & -> & _ & Ha & _ & Hb)].
  - apply digits_have_no_nul. assumption.
  - rewrite has_nul_append. cbn [has_nul].
    rewrite (digits_have_no_nul a Ha), (digits_have_no_nul b Hb). reflexivity.
Qed.

Lemma existsb_option_list (f : string -> bool) x :
  existsb f (option_list x) = false <-> forall s, x = Some s -> f s = false.
Proof.
  destruct x as [s |]; simpl.
  - rewrite orb_false_r. split; [intros H ? [= <-]; assumption | auto].
  - split; [intros _ ? [=] | reflexivity].
Qed.

(** [insert] fails and leaves the store, or puts in the row made of
    the values. *)
Lemma insert_outcomes d v db :
  (exists e, insert d v db = (Failed e, db)) \/
  existsb has_nul (Values.text v) = false /\
  fits_integer (Values.averageEmployees v) = true /\
  Values.varchars v = true /\
  (gen_random_uuid d ∉ E.id <$> establishments db) /\
  insert d v db
  = (let r :=
       E.Row (gen_random_uuid d) (Values.userId v) (Values.name v)
         (Values.address v) (Values.city v) (Values.state v)
         (Values.zipCode v) (Values.naicsCode v)
         (Values.industryDescription v) (Values.averageEmployees v)
         (now d) (Values.updatedAt v) in
     (Rows [r], Database (establishments db ++ [r]) (subscriptions db))).
Proof.
  unfold insert.
  destruct (existsb has_nul (Values.text v)); [left; eauto |].
  destruct (fits_integer (Values.averageEmployees v)); simpl negb; cbv iota;
    [| left; eauto].
  destruct (Values.varchars v); simpl negb; cbv iota; [| left; eauto].
  case_bool_decide as Hfresh; [left; eauto |].
  right. auto.
Qed.

Lemma update_outcomes data t c db :
  (exists e, Drizzle.update data t c db = (Failed e, db)) \/
  existsb has_nul (Payload.text data) = false /\
  from_option fits_integer true (Payload.averageEmployees data) = true /\
  varchars data = true /\
  Drizzle.update data t c db
  = (Rows (set data t <$> filter (fun r => holds c r) (establishments db)),
     Database
       ((fun r => if holds c r then set data t r else r) <$> establishments db)
       (subscriptions db)).
Proof.
  unfold Drizzle.update.
  destruct (existsb has_nul (Payload.text data)); [left; eauto |].
  destruct (from_option fits_integer true (Payload.averageEmployees data));
    simpl negb; cbv iota; [| left; eauto].
  destruct (varchars data); simpl negb; cbv iota; [| left; eauto].
  right. auto.
Qed.


Lemma insert_refuses_head_count d v db :
  fits_integer (Values.averageEmployees v) = false ->
  exists e, insert d v db = (Failed e, db).
Proof.
  intros Hfit. unfold insert. rewrite Hfit.
  destruct (existsb has_nul (Values.text v)); eauto.
Qed.

Lemma update_refuses_head_count data t c db n :
  Payload.averageEmployees data = Some n -> fits_integer n = false ->
  exists e, Drizzle.update data t c db = (Failed e, db).
Proof.
  intros Hn Hfit. unfold Drizzle.update. rewrite Hn. cbn [from_option].
  rewrite Hfit. destruct (existsb has_nul (Payload.text data)); eauto.
Qed.

Lemma execute_primary_key env q d :
  Spec.primary_key d -> Spec.primary_key (execute env q d).2.
Proof.
  unfold Spec.primary_key. intros Hpk. destruct q as [c o l | v | data t c | c]; simpl.
  - assumption.
  - destruct (insert_outcomes env v d) as [(e & ->) | (_ & _ & _ & Hfresh & ->)];
      [assumption |]. simpl.
    rewrite fmap_app. apply NoDup_app. split; [assumption |].
    split; [| apply NoDup_singleton].
    intros x Hx Hx'. apply list_elem_of_singleton in Hx'. simpl in Hx'. subst x.
    contradiction.
  - destruct (update_outcomes data t c d) as [(e & ->) | (_ & _ & _ & ->)];
      [assumption |]. simpl.
    rewrite <- list_fmap_compose.
    erewrite list_fmap_ext; [exact Hpk |].
    intros i r _. simpl. destruct (holds c r); reflexivity.
  - revert Hpk. generalize (establishments d). intros l Hpk.
    induction l as [| r l IH]; [constructor |].
    rewrite fmap_cons in Hpk. apply NoDup_cons in Hpk as [Hr Hpk].
    rewrite filter_cons. destruct (decide _); [| auto].
    rewrite fmap_cons. apply NoDup_cons. split; [| auto].
    intros Hin. apply Hr. apply list_elem_of_fmap in Hin as (r' & -> & Hr').
    apply list_elem_of_filter in Hr' as [_ Hr']. apply list_elem_of_fmap_2. assumption.
Qed.

End StoreFacts.

(** ** The procedures, run on a store *)

Module RouterFacts.
Import Schema Drizzle Trpc.
Import Spec(signed_in).
Module E := Schema.Establishments.
Module R := EstablishmentRouter.

Lemma protected_signed_in {A} u (next : string -> prog A) :
  u <> "" -> protectedProcedure (signed_in u) next = next u.
Proof.
  intros Hu. unfold protectedProcedure, signed_in. simpl.
  rewrite JsFacts.truthy_nonempty by assumption. reflexivity.
Qed.

(** Behind the middleware the caller's id is known and not empty. *)
Lemma protected_inv {A} ctx (next : string -> prog A) :
  protectedProcedure ctx next = Throw unauthorized \/
  exists u, userId ctx = Some u /\ u <> "" /\ protectedProcedure ctx next = next u.
Proof.
  unfold protectedProcedure.
  destruct (userId ctx) as [u |]; [| auto]. destruct (user ctx); [| auto].
  destruct u; simpl; [auto |]. right. eexists. split; [reflexivity |].
  split; [discriminate | reflexivity].
Qed.

Lemma establishmentInputSchema_valid n a c s z naics descr avg :
  Spec.constraints n a c s z naics descr avg ->
  R.establishmentInputSchema
    (Payload.Make (Some n) (Some a) (Some c) (Some s) (Some z) naics descr
       (Some avg))
  = Zod.Valid (R.Input.Make n a c (Js.toUpperCase s) z naics descr avg).
Proof.
  intros H. apply SchemaFacts.issues_nil in H.
  unfold R.establishmentInputSchema. cbn [Payload.name Payload.address
    Payload.city Payload.state Payload.zipCode Payload.averageEmployees
    Payload.naicsCode Payload.industryDescription].
  rewrite H. reflexivity.
Qed.

Lemma establishmentInputSchema_invalid p :
  R.issues false p <> [] ->
  R.establishmentInputSchema p = Zod.Invalid (R.issues false p).
Proof.
  intros H. unfold R.establishmentInputSchema.
  destruct (Payload.name p), (Payload.address p), (Payload.city p),
    (Payload.state p), (Payload.zipCode p), (Payload.averageEmployees p);
    try reflexivity.
  destruct (R.issues false p); [congruence | reflexivity].
Qed.

Lemma establishmentInputSchema_inv p i :
  R.establishmentInputSchema p = Zod.Valid i ->
  exists n a c s z avg,
    p = Payload.Make (Some n) (Some a) (Some c) (Some s) (Some z)
          (Payload.naicsCode p) (Payload.industryDescription p) (Some avg) /\
    Spec.constraints n a c s z (Payload.naicsCode p)
      (Payload.industryDescription p) avg /\
    i = R.Input.Make n a c (Js.toUpperCase s) z (Payload.naicsCode p)
          (Payload.industryDescription p) avg.
Proof.
  unfold R.establishmentInputSchema. destruct p as [n a c s z naics descr avg].
  cbn [Payload.name Payload.address Payload.city Payload.state
    Payload.zipCode Payload.averageEmployees Payload.naicsCode
    Payload.industryDescription].
  destruct n as [n |], a as [a |], c as [c |], s as [s |], z as [z |],
    avg as [avg |]; try discriminate.
  destruct (R.issues false _) eqn:Hi; [| discriminate].
  intros [= <-]. exists n, a, c, s, z, avg.
  split; [reflexivity |]. split; [| reflexivity].
  apply SchemaFacts.issues_nil. assumption.
Qed.

Lemma list_run u env d :
  u <> "" ->
  run env (R.list (signed_in u)) d
  = (Ok (select (eq_userId u) true None d), d).
Proof.
  intros Hu. unfold R.list. rewrite protected_signed_in by assumption.
  reflexivity.
Qed.

(** [create] with an accepted payload: what the insert answers. *)
(** [create] with an accepted payload is its [INSERT]. *)
Lemma create_run_insert u env d n a c s z naics descr avg :
  u <> "" ->
  Spec.constraints n a c s z naics descr avg ->
  run env
    (R.create (signed_in u)
       (Payload.Make (Some n) (Some a) (Some c) (Some s) (Some z) naics descr
          (Some avg))) d
  = match insert (pg env)
            (Values.Make u n a c (Js.toUpperCase s) z (Js.or_null naics)
               (Js.or_null descr) avg (clock env)) d with
    | (Rows (r :: _), d') => (Ok r, d')
    | (_, d') => (Err (R.internal "Failed to create establishment"), d')
    end.
Proof.
  intros Hu Hc. unfold R.create. rewrite protected_signed_in by assumption.
  unfold input. rewrite (establishmentInputSchema_valid _ _ _ _ _ _ _ _ Hc).
  cbn [run try_catch bind db new_Date execute R.Input.name R.Input.address
       R.Input.city R.Input.state R.Input.zipCode R.Input.naicsCode
       R.Input.industryDescription R.Input.averageEmployees].
  destruct (insert _ _ d) as [[[| r l] | e] d']; reflexivity.
Qed.

(** The store takes the values of an accepted payload whose text has
    no code unit 0, from a caller whose id is such text and fits its
    column. *)
Lemma created_values_accepted u n a c s z naics descr avg t :
  Spec.storable u
    (Payload.Make (Some n) (Some a) (Some c) (Some s) (Some z) naics descr
       (Some avg)) ->
  Spec.constraints n a c s z naics descr avg ->
  existsb has_nul
    (Values.text
       (Values.Make u n a c (Js.toUpperCase s) z (Js.or_null naics)
          (Js.or_null descr) avg t)) = false /\
  Values.varchars
    (Values.Make u n a c (Js.toUpperCase s) z (Js.or_null naics)
       (Js.or_null descr) avg t) = true.
Proof.
  intros (Hu0 & Hlen & Hnf) [].
  unfold Spec.nul_free in Hnf.
  simpl in Hnf.
  apply orb_false_iff in Hnf as [Hn Hnf]. apply orb_false_iff in Hnf as [Ha Hnf].
  apply orb_false_iff in Hnf as [Hc Hnf]. apply orb_false_iff in Hnf as [Hs Hnf].
  apply orb_false_iff in Hnf as [Hz Hnf]. rewrite existsb_app in Hnf.
  apply orb_false_iff in Hnf as [Hnaics Hdescr].
  split.
  - simpl.
    rewrite Hu0, Hn, Ha, Hc, StoreFacts.has_nul_toUpperCase, Hs, Hz.
    cbn [orb]. rewrite existsb_app. apply orb_false_iff. split.
    + apply StoreFacts.existsb_option_list. intros x Hx.
      apply JsFacts.or_null_some in Hx.
      exact (proj1 (StoreFacts.existsb_option_list _ _) Hnaics x Hx).
    + apply StoreFacts.existsb_option_list. intros x Hx.
      apply JsFacts.or_null_some in Hx.
      exact (proj1 (StoreFacts.existsb_option_list _ _) Hdescr x Hx).
  - unfold Values.varchars.
    cbn [Values.userId Values.name Values.address Values.city Values.state
         Values.zipCode Values.naicsCode Values.industryDescription].
    unfold Spec.between in *.
    rewrite !StoreFacts.varchar_within; cbn [andb];
      try rewrite JsFacts.toUpperCase_length; try lia.
    + rewrite !StoreFacts.varchar_null_within; [reflexivity | |].
      * intros x Hx. apply JsFacts.or_null_some in Hx. auto.
      * intros x Hx. apply JsFacts.or_null_some in Hx.
        destruct (naicsCode_ok x Hx) as [Hx6 _]. lia.
    + apply SchemaFacts.postal_code_length. assumption.
Qed.

Lemma create_run u env d n a c s z naics descr avg :
  u <> "" ->
  Spec.constraints n a c s z naics descr avg ->
  Spec.storable u
    (Payload.Make (Some n) (Some a) (Some c) (Some s) (Some z) naics descr
       (Some avg)) ->
  run env
    (R.create (signed_in u)
       (Payload.Make (Some n) (Some a) (Some c) (Some s) (Some z) naics descr
          (Some avg))) d
  = if negb (fits_integer avg) then
      (Err (R.internal "Failed to create establishment"), d)
    else if bool_decide (gen_random_uuid (pg env) ∈ E.id <$> establishments d) then
      (Err (R.internal "Failed to create establishment"), d)
    else
      let r := Spec.created env u n a c s z naics descr avg in
      (Ok r, Database (establishments d ++ [r]) (subscriptions d)).
Proof.
  intros Hu Hc Hst. rewrite create_run_insert by assumption.
  destruct (created_values_accepted u n a c s z naics descr avg (clock env)
              Hst Hc) as [Hnul Hcol].
  unfold insert. rewrite Hnul, Hcol.
  cbn [Values.averageEmployees negb].
  destruct (negb (fits_integer avg)); [reflexivity |].
  case_bool_decide; reflexivity.
Qed.


Lemma create_run_invalid u env d p :
  u <> "" ->
  R.issues false p <> [] ->
  run env (R.create (signed_in u) p) d
  = (Err (TRPCError BAD_REQUEST (Issues (R.issues false p))), d).
Proof.
  intros Hu Hi. unfold R.create. rewrite protected_signed_in by assumption.
  unfold input. rewrite establishmentInputSchema_invalid by assumption.
  reflexivity.
Qed.

(** A row that [create] returns is the caller's and is in the table. *)
Lemma create_ok_inv ctx env d p r d' :
  run env (R.create ctx p) d = (Ok r, d') ->
  userId ctx = Some (E.userId r) /\
  establishments d' = (establishments d ++ [r])%list /\
  subscriptions d' = subscriptions d.
Proof.
  unfold R.create.
  destruct (protected_inv ctx (fun userId =>
    input R.establishmentInputSchema p (fun i =>
      try_catch
        (bind new_Date (fun date =>
         bind (db (Insert
                 (Values.Make userId (R.Input.name i) (R.Input.address i)
                    (R.Input.city i) (R.Input.state i) (R.Input.zipCode i)
                    (Js.or_null (R.Input.naicsCode i))
                    (Js.or_null (R.Input.industryDescription i))
                    (R.Input.averageEmployees i) date))) (fun result =>
         match result with
         | [] => Throw (Error "Insert failed - no rows returned")
         | r :: _ => Return r
         end)))
        (fun _ => Throw (R.internal "Failed to create establishment")))))
    as [-> | (u & Hu & _ & ->)]; [discriminate |].
  unfold input. destruct (R.establishmentInputSchema p) as [i |]; [| discriminate].
  cbn [run try_catch bind db new_Date execute].
  destruct (StoreFacts.insert_outcomes (pg env)
              (Values.Make u (R.Input.name i) (R.Input.address i)
                 (R.Input.city i) (R.Input.state i) (R.Input.zipCode i)
                 (Js.or_null (R.Input.naicsCode i))
                 (Js.or_null (R.Input.industryDescription i))
                 (R.Input.averageEmployees i) (clock env)) d)
    as [(e & ->) | (_ & _ & _ & _ & ->)]; [discriminate |].
  cbn. intros [= <- <-]. cbn. auto.
Qed.

(** What the partial schema asks of an accepted object: each key that
    is present meets the constraint of its field. *)
Lemma issues_partial_nil p :
  R.issues true p = [] <->
  (forall x, Payload.name p = Some x -> Spec.between 1 255 x) /\
  (forall x, Payload.address p = Some x -> Spec.between 1 500 x) /\
  (forall x, Payload.city p = Some x -> Spec.between 1 100 x) /\
  (forall x, Payload.state p = Some x -> String.length x = 2%nat) /\
  (forall x, Payload.zipCode p = Some x -> Spec.postal_code x) /\
  (forall x, Payload.naicsCode p = Some x -> Spec.classification_code x) /\
  (forall x, Payload.industryDescription p = Some x ->
             (String.length x <= 500)%nat) /\
  (forall x, Payload.averageEmployees p = Some x ->
             (0 <= x <= Js.MAX_SAFE_INTEGER)%Z).
Proof.
  unfold R.issues, R.key.
  rewrite !app_nil,
    (SchemaFacts.optional_nil _ _ (Payload.name p) SchemaFacts.name_checks_nil),
    (SchemaFacts.optional_nil _ _ (Payload.address p) SchemaFacts.address_checks_nil),
    (SchemaFacts.optional_nil _ _ (Payload.city p) SchemaFacts.city_checks_nil),
    (SchemaFacts.optional_nil _ _ (Payload.state p) SchemaFacts.state_checks_nil),
    (SchemaFacts.optional_nil _ _ (Payload.zipCode p) SchemaFacts.zipCode_checks_nil),
    (SchemaFacts.optional_nil _ _ (Payload.naicsCode p) SchemaFacts.naicsCode_checks_nil),
    (SchemaFacts.optional_nil _ _ (Payload.industryDescription p)
       SchemaFacts.industryDescription_checks_nil),
    (SchemaFacts.optional_nil _ _ (Payload.averageEmployees p)
       SchemaFacts.averageEmployees_checks_nil).
  reflexivity.
Qed.




Section WithUuid.

Variable uuid : string -> bool.

Lemma id_schema_valid id : uuid id = true -> R.id_schema uuid id = Zod.Valid id.
Proof. intros H. unfold R.id_schema. rewrite H. reflexivity. Qed.

Lemma id_schema_invalid id :
  uuid id = false ->
  R.id_schema uuid id = Zod.Invalid [Zod.Issue "id" Zod.invalid_format].
Proof. intros H. unfold R.id_schema. rewrite H. reflexivity. Qed.

Lemma update_schema_valid id data :
  uuid id = true -> R.issues true data = [] ->
  R.update_schema uuid (R.UpdateInput id data)
  = Zod.Valid (R.UpdateInput id (R.normalized data)).
Proof.
  intros Hid Hd. unfold R.update_schema, R.establishmentInputSchema_partial.
  simpl. rewrite Hid, Hd. reflexivity.
Qed.

Lemma update_schema_invalid_id id data :
  uuid id = false ->
  exists l,
    R.update_schema uuid (R.UpdateInput id data)
    = Zod.Invalid (Zod.Issue "id" Zod.invalid_format :: l).
Proof.
  intros Hid. unfold R.update_schema. simpl. rewrite Hid. simpl.
  destruct (R.establishmentInputSchema_partial data); eauto.
Qed.

Lemma update_schema_inv raw i :
  R.update_schema uuid raw = Zod.Valid i ->
  uuid (R.id raw) = true /\ R.issues true (R.data raw) = [] /\
  i = R.UpdateInput (R.id raw) (R.normalized (R.data raw)).
Proof.
  unfold R.update_schema, R.establishmentInputSchema_partial.
  destruct (uuid (R.id raw)); simpl;
    destruct (R.issues true (R.data raw)); try discriminate.
  intros [= <-]. auto.
Qed.

Lemma getById_run u id env d :
  u <> "" -> uuid id = true ->
  run env (R.getById uuid (signed_in u) id) d
  = (match select (and (eq_id id) (eq_userId u)) false (Some 1%nat) d with
     | [] => Err R.not_found
     | r :: _ => Ok r
     end, d).
Proof.
  intros Hu Hid. unfold R.getById. rewrite protected_signed_in by assumption.
  unfold input. rewrite id_schema_valid by assumption.
  cbn [run try_catch bind db new_Date execute advance R.id R.data].
  destruct (select _ _ _ d); reflexivity.
Qed.

Lemma update_run u id data env d :
  u <> "" -> uuid id = true -> R.issues true data = [] ->
  run env (R.update uuid (signed_in u) (R.UpdateInput id data)) d
  = match select (and (eq_id id) (eq_userId u)) false (Some 1%nat) d with
    | [] => (Err R.not_found, d)
    | _ :: _ =>
        match Drizzle.update (R.normalized data) (clock env) (eq_id id) d with
        | (Rows rs, d') => (Ok (head rs), d')
        | (Failed _, d') =>
            (Err (R.internal "Failed to update establishment"), d')
        end
    end.
Proof.
  intros Hu Hid Hd. unfold R.update. rewrite protected_signed_in by assumption.
  unfold input. rewrite update_schema_valid by assumption.
  cbn [run try_catch bind db new_Date execute advance R.id R.data].
  destruct (select _ _ _ d); [reflexivity |].
  cbn [run try_catch bind db new_Date execute advance R.id R.data].
  destruct (Drizzle.update _ _ _ d) as [[rs | e] d']; reflexivity.
Qed.

Lemma delete_run u id env d :
  u <> "" -> uuid id = true ->
  run env (R.delete uuid (signed_in u) id) d
  = match select (and (eq_id id) (eq_userId u)) false (Some 1%nat) d with
    | [] => (Err R.not_found, d)
    | _ :: _ => (Ok (R.Acknowledgment true), (Drizzle.delete (eq_id id) d).2)
    end.
Proof.
  intros Hu Hid. unfold R.delete. rewrite protected_signed_in by assumption.
  unfold input. rewrite id_schema_valid by assumption.
  cbn [run try_catch bind db new_Date execute advance R.id R.data].
  destruct (select _ _ _ d); reflexivity.
Qed.



End WithUuid.

End RouterFacts.

(** ** Ownership-scoped reads *)

Module E := Schema.Establishments.
Module S := Schema.Subscriptions.
Module R := EstablishmentRouter.

Section Reads.
Import Schema Drizzle Trpc.
Import Spec(signed_in).

#[local] Instance created_le_total : Total created_le.
Proof. intros r1 r2. unfold created_le. lia. Qed.

#[local] Instance created_le_trans : Transitive created_le.
Proof. intros r1 r2 r3. unfold created_le. lia. Qed.

Lemma select_by_owner u d :
  select (eq_userId u) true None d
  = merge_sort created_le (filter (fun r => E.userId r = u) (establishments d)).
Proof.
  unfold select. f_equal. apply list_filter_iff. intros r.
  rewrite Is_true_true. apply StoreFacts.holds_eq_userId.
Qed.

(** C1.  For a signed-in caller [u], [list] succeeds and returns the
    rows of [establishments] whose [userId] is [u], each as often as
    the table holds it and no other row, in ascending order of
    [createdAt]; it returns the empty list when [u] owns no row.  A
    row that a caller has just created is in that caller's list and
    in nobody else's. *)
Theorem list_returns_own_rows_by_creation_time
    (u : string) (env : environment) (d : database) :
  u <> "" ->
  exists rows,
    run env (R.list (signed_in u)) d = (Ok rows, d) /\
    rows ≡ₚ filter (fun r => E.userId r = u) (establishments d) /\
    (forall r, r ∈ rows <-> r ∈ establishments d /\ E.userId r = u) /\
    StronglySorted created_le rows /\
    ((forall r, r ∈ establishments d -> E.userId r <> u) -> rows = []) /\
    (forall ctx env0 d0 p r,
        run env0 (R.create ctx p) d0 = (Ok r, d) ->
        (userId ctx = Some u -> r ∈ rows) /\
        (userId ctx <> Some u -> r ∉ rows)).
Proof.
  intros Hu. exists (select (eq_userId u) true None d).
  assert (Hperm : select (eq_userId u) true None d
                  ≡ₚ filter (fun r => E.userId r = u) (establishments d))
    by (rewrite select_by_owner; apply merge_sort_Permutation).
  assert (Hmem : forall r, r ∈ select (eq_userId u) true None d
                           <-> r ∈ establishments d /\ E.userId r = u).
  { intros r. rewrite Hperm, list_elem_of_filter. tauto. }
  split; [apply RouterFacts.list_run; assumption |].
  split; [assumption |]. split; [assumption |].
  split; [rewrite select_by_owner; apply StronglySorted_merge_sort; apply _ |].
  split.
  - intros Hnone. apply Permutation_nil_r. rewrite Hperm.
    rewrite StoreFacts.filter_none by assumption. reflexivity.
  - intros ctx env0 d0 p r Hcreate.
    apply RouterFacts.create_ok_inv in Hcreate as (Hctx & Hests & _).
    assert (Hin : r ∈ establishments d)
      by (rewrite Hests; apply elem_of_app; right; left).
    rewrite Hmem. split.
    + intros Hsame. rewrite Hctx in Hsame. injection Hsame as Hsame. auto.
    + intros Hother [_ Hr]. apply Hother. rewrite Hctx, Hr. reflexivity.
Qed.

Lemma list_returns_own_rows_by_creation_time_witness :
  exists rows,
    run Fixture.env (R.list (signed_in Fixture.alice)) Fixture.store
    = (Ok rows, Fixture.store) /\
    rows ≡ₚ filter (fun r => E.userId r = Fixture.alice)
              (establishments Fixture.store) /\
    (forall r, r ∈ rows <->
               r ∈ establishments Fixture.store /\ E.userId r = Fixture.alice) /\
    StronglySorted created_le rows /\
    ((forall r, r ∈ establishments Fixture.store -> E.userId r <> Fixture.alice)
     -> rows = []) /\
    (forall ctx env0 d0 p r,
        run env0 (R.create ctx p) d0 = (Ok r, Fixture.store) ->
        (userId ctx = Some Fixture.alice -> r ∈ rows) /\
        (userId ctx <> Some Fixture.alice -> r ∉ rows)).
Proof.
  apply (list_returns_own_rows_by_creation_time
           Fixture.alice Fixture.env Fixture.store).
  discriminate.
Defined.

(** C2.  For a signed-in caller [u] and an id in uuid format,
    [getById] answers with the same [NOT_FOUND] error, and leaves the
    store as it is, on a store with no row of that id and on a store
    where the row of that id belongs to someone else. *)
Theorem getById_not_found_hides_foreign_rows
    (uuid : string -> bool) (u id : string) (env : environment)
    (d1 d2 : database) :
  u <> "" ->
  uuid id = true ->
  (forall r, r ∈ establishments d1 -> E.id r <> uuid_in id) ->
  (exists r, r ∈ establishments d2 /\ E.id r = uuid_in id) ->
  (forall r, r ∈ establishments d2 -> E.id r = uuid_in id -> E.userId r <> u) ->
  run env (R.getById uuid (signed_in u) id) d1 = (Err R.not_found, d1) /\
  run env (R.getById uuid (signed_in u) id) d2 = (Err R.not_found, d2) /\
  error_code (run env (R.getById uuid (signed_in u) id) d1).1 = Some NOT_FOUND /\
  (run env (R.getById uuid (signed_in u) id) d1).1
  = (run env (R.getById uuid (signed_in u) id) d2).1.
Proof.
  intros Hu Hid Habsent _ Hforeign.
  assert (H1 : run env (R.getById uuid (signed_in u) id) d1 = (Err R.not_found, d1)).
  { rewrite RouterFacts.getById_run by assumption.
    rewrite StoreFacts.select_owned_none; [reflexivity |].
    intros r Hr Hrid. exfalso. exact (Habsent r Hr Hrid). }
  assert (H2 : run env (R.getById uuid (signed_in u) id) d2 = (Err R.not_found, d2)).
  { rewrite RouterFacts.getById_run by assumption.
    rewrite StoreFacts.select_owned_none; [reflexivity | assumption]. }
  rewrite H1, H2. auto.
Qed.

Lemma getById_not_found_hides_foreign_rows_witness :
  run Fixture.env (R.getById Zod.uuid (signed_in Fixture.alice) Fixture.id2)
    (Database [Fixture.foundry] [])
  = (Err R.not_found, Database [Fixture.foundry] []) /\
  run Fixture.env (R.getById Zod.uuid (signed_in Fixture.alice) Fixture.id2)
    Fixture.store
  = (Err R.not_found, Fixture.store) /\
  error_code
    (run Fixture.env (R.getById Zod.uuid (signed_in Fixture.alice) Fixture.id2)
       (Database [Fixture.foundry] [])).1 = Some NOT_FOUND /\
  (run Fixture.env (R.getById Zod.uuid (signed_in Fixture.alice) Fixture.id2)
     (Database [Fixture.foundry] [])).1
  = (run Fixture.env (R.getById Zod.uuid (signed_in Fixture.alice) Fixture.id2)
       Fixture.store).1.
Proof.
  apply (getById_not_found_hides_foreign_rows Zod.uuid Fixture.alice
           Fixture.id2 Fixture.env (Database [Fixture.foundry] []) Fixture.store).
  - discriminate.
  - vm_compute. reflexivity.
  - intros r Hr. apply list_elem_of_singleton in Hr. subst r. vm_compute. discriminate.
  - exists Fixture.sawmill. split; [right; left | vm_compute; reflexivity].
  - intros r Hr Hid. apply elem_of_cons in Hr as [-> | Hr].
    + vm_compute in Hid. discriminate.
    + apply list_elem_of_singleton in Hr. subst r. vm_compute. discriminate.
Defined.

End Reads.

(** ** Validation on [create] *)

Section Create.
Import Schema Drizzle Trpc.
Import Spec(signed_in).


Example region_code_lower_case_is_stored_upper_case :
  exists r,
    run Fixture.env (R.create (signed_in Fixture.alice) (Fixture.payload "ca"))
      Fixture.store
    = (Ok r, Database [Fixture.foundry; Fixture.sawmill; r] [Fixture.coverage]) /\
    E.state r = "CA".
Proof. eexists. split; vm_compute; reflexivity. Qed.

Example region_code_of_other_length_is_rejected :
  error_code
    (run Fixture.env (R.create (signed_in Fixture.alice) (Fixture.payload "CAL"))
       Fixture.store).1 = Some BAD_REQUEST.
Proof. vm_compute. reflexivity. Qed.

(** C3.  The server schema does not look the region code up in
    [US_STATE_CODES]: [create] with region code ["ZZ"], which is none
    of the 51 codes and which the form schema rejects, succeeds and
    stores ["ZZ"]. *)
Theorem create_accepts_unrecognized_region_code :
  ("ZZ" ∉ Validations.US_STATE_CODES) /\
  length Validations.US_STATE_CODES = 51%nat /\
  Validations.establishmentFormSchema_state "ZZ" <> [] /\
  exists r,
    run Fixture.env (R.create (signed_in Fixture.alice) (Fixture.payload "ZZ"))
      Fixture.store
    = (Ok r, Database [Fixture.foundry; Fixture.sawmill; r] [Fixture.coverage]) /\
    E.state r = "ZZ".
Proof.
  split; [| split; [| split]].
  - apply (bool_decide_eq_false_1 ("ZZ" ∈ Validations.US_STATE_CODES)).
    vm_compute. reflexivity.
  - reflexivity.
  - vm_compute. discriminate.
  - eexists. split; vm_compute; reflexivity.
Qed.


Example postal_code_of_four_digits_is_rejected :
  error_code
    (run Fixture.env
       (R.create (signed_in Fixture.alice)
          (Payload.Make (Some "Press shop") (Some "3 Mill Rd") (Some "Reno")
             (Some "NV") (Some "9000") None None (Some 7%Z)))
       Fixture.store).1 = Some BAD_REQUEST.
Proof. vm_compute. reflexivity. Qed.

Example postal_codes_of_both_shapes_pass :
  R.zipCode_checks "90001" = [] /\ R.zipCode_checks "90001-1234" = [] /\
  R.zipCode_checks "9000" <> [] /\
  R.naicsCode_checks "123456" = [] /\ R.naicsCode_checks "12345" <> [].
Proof. vm_compute. repeat split; discriminate. Qed.



Lemma fixture_id_fresh :
  gen_random_uuid (pg Fixture.env) ∉ E.id <$> establishments Fixture.store.
Proof.
  apply (bool_decide_eq_false_1
           (gen_random_uuid (pg Fixture.env) ∈ E.id <$> establishments Fixture.store)).
  vm_compute. reflexivity.
Defined.


(** Text with the code unit 0 passes the schema and is refused by the
    store: the call ends with the procedure's internal error. *)
Example name_with_code_unit_0_is_refused_by_the_store :
  run Fixture.env
    (R.create (signed_in Fixture.alice)
       (Payload.Make (Some (String "a" (String "000" "b"))) (Some "3 Mill Rd")
          (Some "Reno") (Some "NV") (Some "89501") None None (Some 7%Z)))
    Fixture.store
  = (Err (R.internal "Failed to create establishment"), Fixture.store).
Proof. vm_compute. reflexivity. Qed.



End Create.

(** ** Ownership-scoped writes *)

Section Writes.
Import Schema Drizzle Trpc.
Import Spec(signed_in).

Variable uuid : string -> bool.

Lemma holds_eq_id_false id r : holds (eq_id id) r = false <-> E.id r <> uuid_in id.
Proof. apply String.eqb_neq. Qed.



(** C6.  For a signed-in caller [u] and a row [a] of [u] named by a
    well-formed id, [delete] acknowledges success; afterwards the
    store holds the rows it held except those with the id of [a], and
    the subscriptions it held except those that reference that id;
    and [getById] by [u] with the same id then ends with
    [NOT_FOUND]. *)
Theorem delete_removes_row_and_its_subscriptions
    (u id : string) (env : environment) (d : database) (a : establishment) :
  u <> "" ->
  uuid id = true ->
  Spec.owns d u id a ->
  exists d',
    run env (R.delete uuid (signed_in u) id) d
    = (Ok (R.Acknowledgment true), d') /\
    (forall r, r ∈ establishments d' <->
               r ∈ establishments d /\ E.id r <> E.id a) /\
    (forall s, s ∈ subscriptions d' <->
               s ∈ subscriptions d /\ S.establishmentId s <> E.id a) /\
    (forall env',
        run env' (R.getById uuid (signed_in u) id) d' = (Err R.not_found, d')).
Proof.
  intros Hu Hid Hown. pose proof Hown as (Hin & Haid & Hau).
  exists (Drizzle.delete (eq_id id) d).2.
  assert (Hests : forall r, r ∈ establishments (Drizzle.delete (eq_id id) d).2
                            <-> r ∈ establishments d /\ E.id r <> E.id a).
  { intros r. unfold Drizzle.delete. cbn [snd establishments].
    rewrite list_elem_of_filter, Haid, <- holds_eq_id_false.
    destruct (holds (eq_id id) r); simpl; intuition congruence. }
  split; [| split; [assumption | split]].
  - rewrite (RouterFacts.delete_run uuid) by assumption.
    destruct (StoreFacts.select_owned_some d id u a Hown) as (r & -> & _).
    reflexivity.
  - intros s. unfold Drizzle.delete. cbn [snd subscriptions].
    rewrite list_elem_of_filter, Haid.
    assert (Hgone : S.establishmentId s
                      ∈ E.id <$> filter (fun r => holds (eq_id id) r) (establishments d)
                    <-> S.establishmentId s = uuid_in id).
    { rewrite list_elem_of_fmap. split.
      - intros (r & -> & Hr). apply StoreFacts.elem_of_matching in Hr as [Hr _].
        apply StoreFacts.holds_eq_id. assumption.
      - intros ->. exists a. split; [congruence |].
        apply StoreFacts.elem_of_matching. split; [| assumption].
        apply StoreFacts.holds_eq_id. assumption. }
    rewrite Hgone. tauto.
  - intros env'. rewrite (RouterFacts.getById_run uuid) by assumption.
    rewrite StoreFacts.select_owned_none; [reflexivity |].
    intros r Hr Hrid _. apply Hests in Hr as [_ Hr]. congruence.
Qed.



Lemma getById_malformed ctx id :
  uuid id = false ->
  R.getById uuid ctx id = Throw unauthorized \/
  R.getById uuid ctx id
  = Throw (TRPCError BAD_REQUEST (Issues [Zod.Issue "id" Zod.invalid_format])).
Proof.
  intros Hid. unfold R.getById.
  match goal with
  | |- protectedProcedure ctx ?next = _ \/ _ =>
      destruct (RouterFacts.protected_inv ctx next) as [-> | (u & _ & _ & ->)]
  end; [auto |].
  right. unfold input. rewrite RouterFacts.id_schema_invalid by assumption.
  reflexivity.
Qed.

Lemma delete_malformed ctx id :
  uuid id = false ->
  R.delete uuid ctx id = Throw unauthorized \/
  R.delete uuid ctx id
  = Throw (TRPCError BAD_REQUEST (Issues [Zod.Issue "id" Zod.invalid_format])).
Proof.
  intros Hid. unfold R.delete.
  match goal with
  | |- protectedProcedure ctx ?next = _ \/ _ =>
      destruct (RouterFacts.protected_inv ctx next) as [-> | (u & _ & _ & ->)]
  end; [auto |].
  right. unfold input. rewrite RouterFacts.id_schema_invalid by assumption.
  reflexivity.
Qed.

Lemma update_malformed ctx id data :
  uuid id = false ->
  R.update uuid ctx (R.UpdateInput id data) = Throw unauthorized \/
  exists l,
    R.update uuid ctx (R.UpdateInput id data)
    = Throw (TRPCError BAD_REQUEST
               (Issues (Zod.Issue "id" Zod.invalid_format :: l))).
Proof.
  intros Hid. unfold R.update.
  match goal with
  | |- protectedProcedure ctx ?next = _ \/ _ =>
      destruct (RouterFacts.protected_inv ctx next) as [-> | (u & _ & _ & ->)]
  end; [auto |].
  right. unfold input.
  destruct (RouterFacts.update_schema_invalid_id uuid id data Hid) as (l & ->).
  eauto.
Qed.

(** C9.  With an id that is not in uuid format, [getById], [update]
    and [delete] by a signed-in caller end with a validation error
    ([BAD_REQUEST]) that names the [id] field, without sending any
    statement to the store and without changing it; and whoever the
    caller is, none of the three ends with [NOT_FOUND] or reaches the
    store for such an id. *)
Theorem malformed_id_is_a_validation_error
    (u id : string) (data : Payload.t) (env : environment) (d : database) :
  u <> "" ->
  uuid id = false ->
  (run env (R.getById uuid (signed_in u) id) d
   = (Err (TRPCError BAD_REQUEST (Issues [Zod.Issue "id" Zod.invalid_format])), d) /\
   (exists l,
      run env (R.update uuid (signed_in u) (R.UpdateInput id data)) d
      = (Err (TRPCError BAD_REQUEST
                (Issues (Zod.Issue "id" Zod.invalid_format :: l))), d)) /\
   run env (R.delete uuid (signed_in u) id) d
   = (Err (TRPCError BAD_REQUEST (Issues [Zod.Issue "id" Zod.invalid_format])), d)) /\
  (forall ctx,
      statements env (R.getById uuid ctx id) d = [] /\
      statements env (R.update uuid ctx (R.UpdateInput id data)) d = [] /\
      statements env (R.delete uuid ctx id) d = [] /\
      error_code (run env (R.getById uuid ctx id) d).1 <> Some NOT_FOUND /\
      error_code (run env (R.update uuid ctx (R.UpdateInput id data)) d).1
      <> Some NOT_FOUND /\
      error_code (run env (R.delete uuid ctx id) d).1 <> Some NOT_FOUND).
Proof.
  intros Hu Hid. split.
  - unfold R.getById, R.update, R.delete.
    rewrite !RouterFacts.protected_signed_in by assumption. unfold input.
    rewrite !RouterFacts.id_schema_invalid by assumption.
    destruct (RouterFacts.update_schema_invalid_id uuid id data Hid) as (l & ->).
    split; [reflexivity |]. split; [exists l |]; reflexivity.
  - intros ctx.
    destruct (getById_malformed ctx id Hid) as [-> | ->],
      (delete_malformed ctx id Hid) as [-> | ->],
      (update_malformed ctx id data Hid) as [-> | (l & ->)];
      simpl; repeat split; discriminate.
Qed.

End Writes.

Section WritesOnTheFixture.
Import Schema Drizzle Trpc.
Import Spec(signed_in).

Lemma fixture_primary_key : Spec.primary_key Fixture.store.
Proof.
  unfold Spec.primary_key. simpl. apply NoDup_cons. split.
  - rewrite list_elem_of_singleton. discriminate.
  - apply NoDup_singleton.
Defined.

Lemma fixture_owns :
  Spec.owns Fixture.store Fixture.alice Fixture.id1 Fixture.foundry.
Proof. split; [left | split; vm_compute; reflexivity]. Defined.



Lemma delete_removes_row_and_its_subscriptions_witness :
  exists d',
    run Fixture.env (R.delete Zod.uuid (signed_in Fixture.alice) Fixture.id1)
      Fixture.store
    = (Ok (R.Acknowledgment true), d') /\
    (forall r, r ∈ establishments d' <->
               r ∈ establishments Fixture.store /\ E.id r <> E.id Fixture.foundry) /\
    (forall s, s ∈ subscriptions d' <->
               s ∈ subscriptions Fixture.store /\
               S.establishmentId s <> E.id Fixture.foundry) /\
    (forall env',
        run env' (R.getById Zod.uuid (signed_in Fixture.alice) Fixture.id1) d'
        = (Err R.not_found, d')).
Proof.
  apply (delete_removes_row_and_its_subscriptions Zod.uuid Fixture.alice
           Fixture.id1 Fixture.env Fixture.store Fixture.foundry).
  - discriminate.
  - vm_compute. reflexivity.
  - exact fixture_owns.
Defined.

Example delete_on_the_fixture :
  run Fixture.env (R.delete Zod.uuid (signed_in Fixture.alice) Fixture.id1)
    Fixture.store
  = (Ok (R.Acknowledgment true), Database [Fixture.sawmill] []).
Proof. vm_compute. reflexivity. Qed.


(** A resolver that sent no statement would not do: the exchanges
    above are those of the procedure. *)
Example interleaved_on_the_fixture :
  interleaved Fixture.env 1
    (R.update Zod.uuid (signed_in Fixture.alice)
       (R.UpdateInput Fixture.id1 Fixture.headcount_only))
    (R.delete Zod.uuid (signed_in Fixture.alice) Fixture.id1) Fixture.store
  = ([(Select (and (eq_id Fixture.id1) (eq_userId Fixture.alice)) false
         (Some 1%nat), Rows [Fixture.foundry])],
     [(Select (and (eq_id Fixture.id1) (eq_userId Fixture.alice)) false
         (Some 1%nat), Rows [Fixture.foundry]);
      (Delete (eq_id Fixture.id1), Rows [])],
     [(Update (R.normalized Fixture.headcount_only) (clock Fixture.env)
         (eq_id Fixture.id1), Rows [])]).
Proof. vm_compute. reflexivity. Qed.

(** Text with the code unit 0 passes the partial schema and is
    refused by the store. *)
Example update_with_code_unit_0_is_refused_by_the_store :
  run Fixture.env
    (R.update Zod.uuid (signed_in Fixture.alice)
       (R.UpdateInput Fixture.id1
          (Payload.Make (Some (String "a" (String "000" "b"))) None None None
             None None None None))) Fixture.store
  = (Err (R.internal "Failed to update establishment"), Fixture.store).
Proof. vm_compute. reflexivity. Qed.

Example update_alone_on_the_fixture :
  exists a',
    run Fixture.env
      (R.update Zod.uuid (signed_in Fixture.alice)
         (R.UpdateInput Fixture.id1 Fixture.headcount_only)) Fixture.store
    = (Ok (Some a'), Database [a'; Fixture.sawmill] [Fixture.coverage]).
Proof. eexists. vm_compute. reflexivity. Qed.

Lemma malformed_id_is_a_validation_error_witness :
  (run Fixture.env (R.getById Zod.uuid (signed_in Fixture.alice) "42")
     Fixture.store
   = (Err (TRPCError BAD_REQUEST (Issues [Zod.Issue "id" Zod.invalid_format])),
      Fixture.store) /\
   (exists l,
      run Fixture.env
        (R.update Zod.uuid (signed_in Fixture.alice)
           (R.UpdateInput "42" Fixture.headcount_only)) Fixture.store
      = (Err (TRPCError BAD_REQUEST
                (Issues (Zod.Issue "id" Zod.invalid_format :: l))),
         Fixture.store)) /\
   run Fixture.env (R.delete Zod.uuid (signed_in Fixture.alice) "42")
     Fixture.store
   = (Err (TRPCError BAD_REQUEST (Issues [Zod.Issue "id" Zod.invalid_format])),
      Fixture.store)) /\
  (forall ctx,
      statements Fixture.env (R.getById Zod.uuid ctx "42") Fixture.store = [] /\
      statements Fixture.env
        (R.update Zod.uuid ctx (R.UpdateInput "42" Fixture.headcount_only))
        Fixture.store = [] /\
      statements Fixture.env (R.delete Zod.uuid ctx "42") Fixture.store = [] /\
      error_code (run Fixture.env (R.getById Zod.uuid ctx "42") Fixture.store).1
      <> Some NOT_FOUND /\
      error_code
        (run Fixture.env
           (R.update Zod.uuid ctx (R.UpdateInput "42" Fixture.headcount_only))
           Fixture.store).1
      <> Some NOT_FOUND /\
      error_code (run Fixture.env (R.delete Zod.uuid ctx "42") Fixture.store).1
      <> Some NOT_FOUND).
Proof.
  apply (malformed_id_is_a_validation_error Zod.uuid Fixture.alice "42"
           Fixture.headcount_only Fixture.env Fixture.store).
  - discriminate.
  - vm_compute. reflexivity.
Defined.

End WritesOnTheFixture.

(** ** The selection kept in [localStorage] *)

Section Selection.
Import EstablishmentContext.

Lemma hydrate_year (localStorage : gmap string string) (st : state) :
  year (hydrate localStorage st)
  = match localStorage !! YEAR with
    | Some s =>
        if Js.truthy s then
          match Js.parseInt10 s with
          | Js.Int parsedYear => parsedYear
          | Js.NaN => year st
          end
        else year st
    | None => year st
    end.
Proof.
  unfold hydrate.
  destruct (localStorage !! ESTABLISHMENT_ID) as [e |];
    [destruct (Js.truthy e) |];
    (destruct (localStorage !! YEAR) as [s |];
     [destruct (Js.truthy s); [destruct (Js.parseInt10 s) |] |]); reflexivity.
Qed.

Lemma hydrate_isHydrated (localStorage : gmap string string) (st : state) :
  isHydrated (hydrate localStorage st) = true.
Proof. reflexivity. Qed.

(** C7.  Setting the year to a (safe) integer [y] writes its decimal
    text under the year key, and a reload from that storage yields
    [y] again.  When the storage holds a year value that [parseInt]
    cannot read, a reload drops it: the year is the current calendar
    year and hydration completes. *)
Theorem year_survives_reload_and_corrupt_value_is_dropped
    (y currentYear : Z) (st : state) (localStorage corrupted : gmap string string)
    (saved : string) :
  Js.isSafeInteger y = true ->
  corrupted !! YEAR = Some saved ->
  Js.parseInt10 saved = Js.NaN ->
  year (setYear y (st, localStorage)).1 = y /\
  (setYear y (st, localStorage)).2 !! YEAR = Some (Js.toString y) /\
  year (reload currentYear (setYear y (st, localStorage)).2) = y /\
  year (reload currentYear corrupted) = currentYear /\
  isHydrated (reload currentYear corrupted) = true.
Proof.
  intros _ Hsaved Hnan. unfold reload, setYear. cbn [fst snd].
  split; [reflexivity |].
  split; [apply lookup_insert_eq |].
  rewrite !hydrate_year, lookup_insert_eq, Hsaved, Hnan,
    JsFacts.toString_truthy, JsFacts.parseInt10_toString.
  split; [reflexivity |].
  split; [destruct (Js.truthy saved); reflexivity | reflexivity].
Qed.

Lemma year_survives_reload_and_corrupt_value_is_dropped_witness :
  year (setYear 2026 (mount 2025, ∅)).1 = 2026%Z /\
  (setYear 2026 (mount 2025, ∅)).2 !! YEAR = Some (Js.toString 2026) /\
  year (reload 2031 (setYear 2026 (mount 2025, ∅)).2) = 2026%Z /\
  year (reload 2031 (<[YEAR := "twenty"]> ∅)) = 2031%Z /\
  isHydrated (reload 2031 (<[YEAR := "twenty"]> ∅)) = true.
Proof.
  apply (year_survives_reload_and_corrupt_value_is_dropped
           2026 2031 (mount 2025) ∅ (<[YEAR := "twenty"]> ∅) "twenty").
  - reflexivity.
  - apply lookup_insert_eq.
  - reflexivity.
Defined.

Example year_2026_survives_reload :
  year (reload 2031 (setYear 2026 (mount 2031, ∅)).2) = 2026%Z.
Proof. vm_compute. reflexivity. Qed.

Example year_with_trailing_text_is_read_by_its_digits :
  year (reload 2031 (<[YEAR := "2026abc"]> ∅)) = 2026%Z.
Proof. vm_compute. reflexivity. Qed.

End Selection.

(** ** More on the JavaScript primitives *)

Module JsMoreFacts.
Import Js.

Lemma upper_char_idemp c : upper_char (upper_char c) = upper_char c.
Proof. destruct c as [[] [] [] [] [] [] [] []]; reflexivity. Qed.

Lemma toUpperCase_idemp s : toUpperCase (toUpperCase s) = toUpperCase s.
Proof.
  induction s as [| c s IH]; [reflexivity |].
  unfold toUpperCase in *. simpl. rewrite upper_char_idemp, IH. reflexivity.
Qed.

Lemma trim_start_length s : (String.length (trim_start s) <= String.length s)%nat.
Proof.
  induction s as [| c s IH]; simpl; [lia |].
  destruct (is_space c); simpl; lia.
Qed.

Lemma trim_end_length s : (String.length (trim_end s) <= String.length s)%nat.
Proof.
  induction s as [| c s IH]; simpl; [lia |].
  destruct (negb (truthy (trim_end s)) && is_space c); simpl; lia.
Qed.

Lemma trim_length s : (String.length (trim s) <= String.length s)%nat.
Proof.
  unfold trim. pose proof (trim_end_length (trim_start s)).
  pose proof (trim_start_length s). lia.
Qed.

(** Text without white space is its own trimmed form. *)
Lemma trim_without_space s :
  Spec.every (fun c => negb (is_space c)) s -> trim s = s.
Proof.
  intros H. unfold trim.
  assert (trim_start s = s) as ->.
  { destruct s as [| c s]; [reflexivity |]. simpl in *. destruct H as [Hc _].
    destruct (is_space c); [discriminate | reflexivity]. }
  induction s as [| c s IH]; [reflexivity |].
  simpl in *. destruct H as [Hc H]. rewrite (IH H).
  destruct (is_space c); [discriminate |].
  rewrite andb_false_r. reflexivity.
Qed.

Lemma every_impl (p q : ascii -> bool) s :
  (forall c, p c = true -> q c = true) -> Spec.every p s -> Spec.every q s.
Proof.
  intros Hpq. induction s as [| c s IH]; simpl; [auto |]. intros [Hc H]. auto.
Qed.

Lemma every_append p s1 s2 :
  Spec.every p (String.append s1 s2) <-> Spec.every p s1 /\ Spec.every p s2.
Proof.
  induction s1 as [| c s1 IH].
  - change (String.append "" s2) with s2. simpl. tauto.
  - change (String.append (String c s1) s2) with (String c (String.append s1 s2)).
    simpl. rewrite IH. tauto.
Qed.

Lemma digit_is_not_space c : is_digit c = true -> negb (is_space c) = true.
Proof. destruct c as [[] [] [] [] [] [] [] []]; vm_compute; intros H; congruence. Qed.

Lemma trim_postal_code z : Spec.postal_code z -> trim z = z.
Proof.
  intros Hz. apply trim_without_space.
  destruct Hz as [[_ Hd] | (a & b & -> & _ & Ha & _ & Hb)].
  - revert Hd. apply every_impl, digit_is_not_space.
  - apply every_append. split.
    + revert Ha. apply every_impl, digit_is_not_space.
    + simpl. split; [reflexivity |].
      revert Hb. apply every_impl, digit_is_not_space.
Qed.

(** [parseInt] reads past leading white space. *)
Lemma parseInt10_leading_space c s :
  is_space c = true -> parseInt10 (String c s) = parseInt10 s.
Proof. intros H. unfold parseInt10. simpl trim_start. rewrite H. reflexivity. Qed.

Lemma leading_digits_append d t :
  leading_digits t = Decimal.Nil ->
  leading_digits (String.append (NilEmpty.string_of_uint d) t) = d.
Proof.
  intros Ht. induction d;
    [exact Ht | ..];
    simpl NilEmpty.string_of_uint;
    match goal with
    | |- context [String.append (String ?c ?s) t] =>
        change (String.append (String c s) t) with (String c (String.append s t))
    end;
    simpl leading_digits; rewrite IHd; reflexivity.
Qed.

End JsMoreFacts.

(** ** The add form and the server schema *)

Module FormFacts.
Import Zod.
Module F := EstablishmentForm.
#[local] Arguments String.append !_ _ : simpl nomatch.

Lemma number_max_nil n p z : number_max n p z = [] <-> (z <= n)%Z.
Proof. unfold number_max. rewrite SchemaFacts.check_nil. apply Z.leb_le. Qed.

Lemma number_min_nil n p z : number_min n p z = [] <-> (n <= z)%Z.
Proof. unfold number_min. rewrite SchemaFacts.check_nil. apply Z.leb_le. Qed.

Lemma or_empty_literal_nil (a : string -> list issue) s :
  or_empty_literal a s = [] <-> s = "" \/ a s = [].
Proof.
  unfold or_empty_literal. destruct (a s) as [| i l]; [tauto |].
  destruct (String.eqb_spec s "") as [-> | Hne].
  - split; auto.
  - split; [discriminate | intros [? | ?]; [contradiction | discriminate]].
Qed.

Lemma state_in_codes s :
  Validations.establishmentFormSchema_state s = []
  <-> s ∈ Validations.US_STATE_CODES.
Proof.
  unfold Validations.establishmentFormSchema_state, enum.
  rewrite SchemaFacts.check_nil. apply bool_decide_eq_true.
Qed.

(** The 51 codes are two upper-case letters each, and all different. *)
Lemma codes_shape s :
  s ∈ Validations.US_STATE_CODES ->
  String.length s = 2%nat /\ Js.toUpperCase s = s.
Proof.
  revert s. apply Forall_forall. unfold Validations.US_STATE_CODES.
  repeat (constructor; [split; reflexivity |]). constructor.
Qed.

Lemma codes_distinct : NoDup Validations.US_STATE_CODES.
Proof.
  apply (bool_decide_unpack (NoDup Validations.US_STATE_CODES)).
  vm_compute. exact I.
Qed.

Lemma form_averageEmployees_checks_nil z :
  F.averageEmployees_checks z = [] <-> (0 <= z <= 999999)%Z.
Proof.
  unfold F.averageEmployees_checks, int.
  rewrite !app_nil, !SchemaFacts.check_nil, number_min_nil, number_max_nil,
    !Z.leb_le.
  unfold Js.MAX_SAFE_INTEGER. lia.
Qed.

Lemma form_zipCode_checks_nil z : F.zipCode_checks z = [] <-> Spec.postal_code z.
Proof.
  unfold F.zipCode_checks. rewrite SchemaFacts.regex_nil.
  apply SchemaFacts.zipCode_pattern_lang.
Qed.

Lemma form_naicsCode_checks_nil x :
  F.naicsCode_checks x = [] <-> x = "" \/ Spec.classification_code x.
Proof.
  unfold F.naicsCode_checks. rewrite or_empty_literal_nil, SchemaFacts.regex_nil.
  apply or_iff_compat_l.
  apply (RegexFacts.lang_Rep_Class Js.is_digit 6).
Qed.

Lemma form_industryDescription_checks_nil x :
  F.industryDescription_checks x = [] <-> (String.length x <= 500)%nat.
Proof.
  unfold F.industryDescription_checks.
  rewrite or_empty_literal_nil, SchemaFacts.max_nil.
  split; [intros [-> | H]; simpl; lia | auto].
Qed.

(** What the form accepts, and what it hands on. *)
Lemma form_accepts values data :
  F.establishmentFormSchema values = Valid data ->
  exists n a c s z naics descr avg,
    values = Payload.Make (Some n) (Some a) (Some c) (Some s) (Some z)
               naics descr (Some avg) /\
    data = Payload.Make (Some (Js.trim n)) (Some (Js.trim a)) (Some (Js.trim c))
             (Some s) (Some z) naics descr (Some avg) /\
    Spec.between 1 255 n /\ Spec.between 1 500 a /\ Spec.between 1 100 c /\
    s ∈ Validations.US_STATE_CODES /\ Spec.postal_code z /\
    (forall x, naics = Some x -> x = "" \/ Spec.classification_code x) /\
    (forall x, descr = Some x -> (String.length x <= 500)%nat) /\
    (0 <= avg <= 999999)%Z.
Proof.
  unfold F.establishmentFormSchema.
  destruct (F.issues values) as [| i l] eqn:Hi; [| discriminate].
  intros [= <-]. revert Hi. unfold F.issues. rewrite !app_nil.
  destruct values as [n a c s z naics descr avg].
  cbn [Payload.name Payload.address Payload.city Payload.state Payload.zipCode
         Payload.naicsCode Payload.industryDescription Payload.averageEmployees].
  intros (Hn & Ha & Hc & Hs & Hz & Hnaics & Hdescr & Havg).
  destruct n as [n |]; [| discriminate]. destruct a as [a |]; [| discriminate].
  destruct c as [c |]; [| discriminate]. destruct s as [s |]; [| discriminate].
  destruct z as [z |]; [| discriminate]. destruct avg as [avg |]; [| discriminate].
  simpl in Hn, Ha, Hc, Hs, Hz, Havg.
  apply SchemaFacts.name_checks_nil in Hn.
  apply SchemaFacts.address_checks_nil in Ha.
  apply SchemaFacts.city_checks_nil in Hc.
  apply state_in_codes in Hs. apply form_zipCode_checks_nil in Hz.
  apply form_averageEmployees_checks_nil in Havg.
  exists n, a, c, s, z, naics, descr, avg. split; [reflexivity |].
  split; [simpl; rewrite (JsMoreFacts.trim_postal_code z Hz); reflexivity |].
  do 5 (split; [assumption |]). split; [| split; [| assumption]].
  - apply (SchemaFacts.optional_nil _ _ naics form_naicsCode_checks_nil). assumption.
  - apply (SchemaFacts.optional_nil _ _ descr form_industryDescription_checks_nil).
    assumption.
Qed.

Lemma empty_is_no_classification_code : ~ Spec.classification_code "".
Proof. intros [H _]. discriminate. Qed.

Lemma nonempty_length s : s <> "" <-> (1 <= String.length s)%nat.
Proof. destruct s; simpl; split; try congruence; try lia. Qed.

End FormFacts.

Section AddForm.
Import Schema Drizzle Trpc.
Import Spec(signed_in).

(** X1.  Data that the add form accepts passes the server's
    [establishmentInputSchema] exactly when the trimmed name, address
    and city are not empty and the classification code was not sent
    as the empty string. *)
Theorem form_data_passes_server_schema_iff (values data : Payload.t) :
  EstablishmentForm.establishmentFormSchema values = Zod.Valid data ->
  R.issues false data = [] <->
  (forall n, Payload.name values = Some n -> Js.trim n <> "") /\
  (forall a, Payload.address values = Some a -> Js.trim a <> "") /\
  (forall c, Payload.city values = Some c -> Js.trim c <> "") /\
  Payload.naicsCode values <> Some "".
Proof.
  intros Hform.
  destruct (FormFacts.form_accepts values data Hform)
    as (n & a & c & s & z & naics & descr & avg & -> & -> & Hn & Ha & Hc & Hs
        & Hz & Hnaics & Hdescr & Havg).
  rewrite SchemaFacts.issues_nil.
  cbn [Payload.name Payload.address Payload.city Payload.naicsCode].
  pose proof (JsMoreFacts.trim_length n). pose proof (JsMoreFacts.trim_length a).
  pose proof (JsMoreFacts.trim_length c).
  unfold Spec.between in *. split.
  - intros [Hn' Ha' Hc' _ _ Hx _ _]. unfold Spec.between in *.
    split; [intros ? [= <-]; apply FormFacts.nonempty_length; lia |].
    split; [intros ? [= <-]; apply FormFacts.nonempty_length; lia |].
    split; [intros ? [= <-]; apply FormFacts.nonempty_length; lia |].
    intros Hblank. apply FormFacts.empty_is_no_classification_code. auto.
  - intros (Hn' & Ha' & Hc' & Hblank).
    specialize (Hn' n eq_refl). specialize (Ha' a eq_refl).
    specialize (Hc' c eq_refl).
    apply FormFacts.nonempty_length in Hn', Ha', Hc'.
    constructor; unfold Spec.between; try lia.
    + apply FormFacts.codes_shape. assumption.
    + assumption.
    + intros x Hx. destruct (Hnaics x Hx) as [-> | Hcc]; [contradiction | assumption].
    + assumption.
    + unfold Js.MAX_SAFE_INTEGER. lia.
Qed.

Lemma form_data_passes_server_schema_iff_witness :
  R.issues false
    (Payload.Make (Some "Press shop") (Some "3 Mill Rd") (Some "Reno")
       (Some "NV") (Some "89501") (Some "") (Some "") (Some 7%Z)) = [] <->
  (forall n, Payload.name (Fixture.form_values "") = Some n -> Js.trim n <> "") /\
  (forall a, Payload.address (Fixture.form_values "") = Some a -> Js.trim a <> "") /\
  (forall c, Payload.city (Fixture.form_values "") = Some c -> Js.trim c <> "") /\
  Payload.naicsCode (Fixture.form_values "") <> Some "".
Proof.
  apply (form_data_passes_server_schema_iff (Fixture.form_values "")).
  vm_compute. reflexivity.
Defined.

(** X2.  When a signed-in user submits the add form and the form
    accepts the values, with name, address and city that are not blank
    and a classification code that is absent or given, [create]
    succeeds when the store takes the text (no code unit 0 in what is
    sent or in the caller's id, that id within its column) and the
    generated id is new: the row is the caller's, its region code is
    the one chosen, one of the 51 codes, its name is the trimmed name
    and its head count the one entered.  No head count that the form
    accepts overflows the column. *)
Theorem accepted_form_is_created
    (u : string) (env : environment) (d : database) (values data : Payload.t) :
  u <> "" ->
  EstablishmentForm.establishmentFormSchema values = Zod.Valid data ->
  (forall n, Payload.name values = Some n -> Js.trim n <> "") ->
  (forall a, Payload.address values = Some a -> Js.trim a <> "") ->
  (forall c, Payload.city values = Some c -> Js.trim c <> "") ->
  Payload.naicsCode values <> Some "" ->
  Spec.storable u data ->
  gen_random_uuid (pg env) ∉ E.id <$> establishments d ->
  EstablishmentForm.submit (signed_in u) values
  = Some (R.create (signed_in u) data) /\
  exists r,
    run env (R.create (signed_in u) data) d
    = (Ok r, Database (establishments d ++ [r]) (subscriptions d)) /\
    E.userId r = u /\
    E.state r ∈ Validations.US_STATE_CODES /\
    Some (E.state r) = Payload.state values /\
    Some (E.name r) = Js.trim <$> Payload.name values /\
    Some (E.averageEmployees r) = Payload.averageEmployees values.
Proof.
  intros Hu Hform Hn' Ha' Hc' Hblank Hst Hfresh.
  assert (Hserver : R.issues false data = [])
    by (apply (form_data_passes_server_schema_iff values data Hform); auto).
  split; [unfold EstablishmentForm.submit; rewrite Hform; reflexivity |].
  destruct (FormFacts.form_accepts values data Hform)
    as (n & a & c & s & z & naics & descr & avg & -> & -> & _ & _ & _ & Hs & _
        & _ & _ & Havg).
  apply SchemaFacts.issues_nil in Hserver.
  exists (Spec.created env u (Js.trim n) (Js.trim a) (Js.trim c) s z
            naics descr avg).
  split.
  - rewrite RouterFacts.create_run by assumption.
    assert (fits_integer avg = true) as ->
      by (unfold fits_integer; apply andb_true_iff; rewrite !Z.leb_le; lia).
    simpl negb. cbv iota. rewrite bool_decide_eq_false_2 by assumption.
    reflexivity.
  - simpl. destruct (FormFacts.codes_shape s Hs) as [_ ->]. auto.
Qed.

Lemma accepted_form_is_created_witness :
  EstablishmentForm.submit (signed_in Fixture.alice) (Fixture.form_values "332710")
  = Some (R.create (signed_in Fixture.alice)
            (Payload.Make (Some "Press shop") (Some "3 Mill Rd") (Some "Reno")
               (Some "NV") (Some "89501") (Some "332710") (Some "") (Some 7%Z))) /\
  exists r,
    run Fixture.env
      (R.create (signed_in Fixture.alice)
         (Payload.Make (Some "Press shop") (Some "3 Mill Rd") (Some "Reno")
            (Some "NV") (Some "89501") (Some "332710") (Some "") (Some 7%Z)))
      Fixture.store
    = (Ok r, Database (establishments Fixture.store ++ [r])
               (subscriptions Fixture.store)) /\
    E.userId r = Fixture.alice /\
    E.state r ∈ Validations.US_STATE_CODES /\
    Some (E.state r) = Payload.state (Fixture.form_values "332710") /\
    Some (E.name r) = Js.trim <$> Payload.name (Fixture.form_values "332710") /\
    Some (E.averageEmployees r)
    = Payload.averageEmployees (Fixture.form_values "332710").
Proof.
  apply (accepted_form_is_created Fixture.alice Fixture.env Fixture.store
           (Fixture.form_values "332710")).
  - discriminate.
  - vm_compute. reflexivity.
  - intros n [= <-]. vm_compute. discriminate.
  - intros a [= <-]. vm_compute. discriminate.
  - intros c [= <-]. vm_compute. discriminate.
  - discriminate.
  - split; [reflexivity | split; [simpl; lia | reflexivity]].
  - exact fixture_id_fresh.
Defined.

(** X3.  The add form accepts a classification code left blank (the
    empty string, the form's default) and sends it on, and the
    server's schema then rejects the call: [create] ends with a
    validation error on [naicsCode] and the store is unchanged. *)
Theorem blank_classification_code_from_form_is_rejected
    (u : string) (env : environment) (d : database) (values data : Payload.t) :
  u <> "" ->
  EstablishmentForm.establishmentFormSchema values = Zod.Valid data ->
  Payload.naicsCode values = Some "" ->
  EstablishmentForm.submit (signed_in u) values
  = Some (R.create (signed_in u) data) /\
  exists l,
    run env (R.create (signed_in u) data) d
    = (Err (TRPCError BAD_REQUEST (Issues l)), d) /\
    Zod.Issue "naicsCode" Zod.invalid_format ∈ l.
Proof.
  intros Hu Hform Hblank.
  split; [unfold EstablishmentForm.submit; rewrite Hform; reflexivity |].
  destruct (FormFacts.form_accepts values data Hform)
    as (n & a & c & s & z & naics & descr & avg & -> & -> & _).
  simpl in Hblank. subst naics.
  assert (Hin : Zod.Issue "naicsCode" Zod.invalid_format
                  ∈ R.issues false
                      (Payload.Make (Some (Js.trim n)) (Some (Js.trim a))
                         (Some (Js.trim c)) (Some s) (Some z)
                         (Some "") descr (Some avg))).
  { unfold R.issues. cbn [Payload.naicsCode].
    rewrite !elem_of_app. do 5 right. left. vm_compute. left. }
  eexists. split; [| exact Hin].
  apply RouterFacts.create_run_invalid; [assumption |].
  intros Hnil. rewrite Hnil in Hin. inversion Hin.
Qed.

Lemma blank_classification_code_from_form_is_rejected_witness :
  EstablishmentForm.submit (signed_in Fixture.alice) (Fixture.form_values "")
  = Some (R.create (signed_in Fixture.alice)
            (Payload.Make (Some "Press shop") (Some "3 Mill Rd") (Some "Reno")
               (Some "NV") (Some "89501") (Some "") (Some "") (Some 7%Z))) /\
  exists l,
    run Fixture.env
      (R.create (signed_in Fixture.alice)
         (Payload.Make (Some "Press shop") (Some "3 Mill Rd") (Some "Reno")
            (Some "NV") (Some "89501") (Some "") (Some "") (Some 7%Z)))
      Fixture.store
    = (Err (TRPCError BAD_REQUEST (Issues l)), Fixture.store) /\
    Zod.Issue "naicsCode" Zod.invalid_format ∈ l.
Proof.
  apply (blank_classification_code_from_form_is_rejected Fixture.alice
           Fixture.env Fixture.store (Fixture.form_values "")).
  - discriminate.
  - vm_compute. reflexivity.
  - reflexivity.
Defined.

End AddForm.

(** ** More on the selection kept in [localStorage] *)

Module SelectionFacts.
Import Js EstablishmentContext.
#[local] Arguments String.append !_ _ : simpl nomatch.

Lemma not_digit_of c d : is_digit c = false -> digit_of c d = None.
Proof.
  destruct c as [[] [] [] [] [] [] [] []]; vm_compute; intros H; congruence.
Qed.

Lemma leading_digits_not_digit t :
  (forall c t', t = String c t' -> is_digit c = false) ->
  leading_digits t = Decimal.Nil.
Proof.
  destruct t as [| c t']; [reflexivity |]. intros H. simpl.
  rewrite (not_digit_of c _ (H c t' eq_refl)). reflexivity.
Qed.

Lemma parseInt10_spaces ws s :
  Spec.every is_space ws -> parseInt10 (String.append ws s) = parseInt10 s.
Proof.
  induction ws as [| c ws IH]; simpl; [reflexivity |]. intros [Hc Hws].
  rewrite JsMoreFacts.parseInt10_leading_space by assumption. auto.
Qed.

Lemma parseInt10_numeral_append d t :
  d <> Decimal.Nil ->
  leading_digits t = Decimal.Nil ->
  parseInt10 (String.append (NilEmpty.string_of_uint d) t) = Int (Z.of_uint d).
Proof.
  intros Hd Ht.
  destruct (JsFacts.string_of_uint_head d Hd) as (c & s & Hs & Hsp & Hm & Hp).
  unfold parseInt10.
  pose proof (JsMoreFacts.leading_digits_append d t Ht) as Hl.
  rewrite Hs in *. simpl String.append in *.
  simpl trim_start. rewrite Hsp. simpl starts_with.
  rewrite (proj2 (Ascii.eqb_neq c "-") Hm), (proj2 (Ascii.eqb_neq c "+") Hp).
  simpl orb. cbv iota. rewrite Hl, JsFacts.is_Nil_false by assumption.
  destruct (Z.of_uint d); reflexivity.
Qed.

Lemma parseInt10_minus_append d t :
  d <> Decimal.Nil ->
  leading_digits t = Decimal.Nil ->
  parseInt10 (String "-" (String.append (NilEmpty.string_of_uint d) t))
  = Int (- Z.of_uint d).
Proof.
  intros Hd Ht. unfold parseInt10.
  change (trim_start (String "-" ?s)) with (String "-" s).
  simpl starts_with. simpl orb. cbv iota. simpl tail.
  rewrite JsMoreFacts.leading_digits_append, JsFacts.is_Nil_false by assumption.
  destruct (Z.of_uint d); reflexivity.
Qed.

(** [parseInt] reads an integer's text whatever follows it, as long as
    that is not one more digit. *)
Lemma parseInt10_toString_append z t :
  leading_digits t = Decimal.Nil ->
  parseInt10 (String.append (toString z) t) = Int z.
Proof.
  intros Ht. unfold toString. destruct z as [| p | p].
  - change (NilZero.string_of_int (Z.to_int 0)) with "0".
    unfold parseInt10. simpl. rewrite Ht. reflexivity.
  - change (Z.to_int (Z.pos p)) with (Decimal.Pos (Pos.to_uint p)).
    pose proof (Unsigned.to_uint_nonnil p) as Hn.
    assert (NilZero.string_of_int (Decimal.Pos (Pos.to_uint p))
            = NilEmpty.string_of_uint (Pos.to_uint p)) as ->
      by (simpl; unfold NilZero.string_of_uint; destruct (Pos.to_uint p); congruence).
    rewrite parseInt10_numeral_append by assumption.
    f_equal. exact (DecimalZ.of_to (Z.pos p)).
  - change (Z.to_int (Z.neg p)) with (Decimal.Neg (Pos.to_uint p)).
    pose proof (Unsigned.to_uint_nonnil p) as Hn.
    assert (NilZero.string_of_int (Decimal.Neg (Pos.to_uint p))
            = String "-" (NilEmpty.string_of_uint (Pos.to_uint p))) as ->
      by (simpl; unfold NilZero.string_of_uint; destruct (Pos.to_uint p); congruence).
    simpl String.append. rewrite parseInt10_minus_append by assumption.
    f_equal. exact (DecimalZ.of_to (Z.neg p)).
Qed.

Lemma truthy_append_r s t : truthy t = true -> truthy (String.append s t) = true.
Proof. destruct s; simpl; auto. Qed.

Lemma truthy_append_l s t : truthy s = true -> truthy (String.append s t) = true.
Proof. destruct s; simpl; [discriminate | reflexivity]. Qed.

Lemma keys_differ : YEAR <> ESTABLISHMENT_ID.
Proof. discriminate. Qed.

Lemma hydrate_establishmentId (localStorage : gmap string string) (st : state) :
  establishmentId (hydrate localStorage st)
  = match localStorage !! ESTABLISHMENT_ID with
    | Some s => if truthy s then Some s else establishmentId st
    | None => establishmentId st
    end.
Proof.
  unfold hydrate.
  destruct (localStorage !! ESTABLISHMENT_ID) as [e |];
    [destruct (truthy e) |];
    (destruct (localStorage !! YEAR) as [s |];
     [destruct (truthy s); [destruct (parseInt10 s) |] |]); reflexivity.
Qed.

Lemma state_eq (st st' : state) :
  establishmentId st = establishmentId st' -> year st = year st' ->
  isHydrated st = isHydrated st' -> st = st'.
Proof. destruct st, st'. simpl. congruence. Qed.

End SelectionFacts.

Section Selectors.
Import EstablishmentContext.

#[local] Instance descending_total : Total YearSelector.descending.
Proof. intros a b. unfold YearSelector.descending. lia. Qed.

#[local] Instance descending_trans : Transitive YearSelector.descending.
Proof. intros a b c. unfold YearSelector.descending. lia. Qed.

#[local] Instance descending_antisymm : AntiSymm (=) YearSelector.descending.
Proof. intros a b. unfold YearSelector.descending. lia. Qed.

(** X4.  The year dropdown offers by default the eight years from two
    years ahead of the current year down to five years back, newest
    first. *)
Theorem getDefaultYearRange_is_eight_years_descending (currentYear : Z) :
  YearSelector.getDefaultYearRange currentYear
  = [currentYear + 2; currentYear + 1; currentYear; currentYear - 1;
     currentYear - 2; currentYear - 3; currentYear - 4; currentYear - 5]%Z.
Proof.
  unfold YearSelector.getDefaultYearRange, YearSelector.sort_descending,
    YearSelector.count_up.
  replace (currentYear + 2 - (currentYear - 5) + 1)%Z with 8%Z by lia.
  apply (Sorted_unique YearSelector.descending).
  - apply Sorted_merge_sort. apply _.
  - repeat (constructor; [| try constructor; unfold YearSelector.descending; lia]).
    constructor.
  - rewrite merge_sort_Permutation.
    transitivity (reverse [currentYear - 5; currentYear - 4; currentYear - 3;
                           currentYear - 2; currentYear - 1; currentYear;
                           currentYear + 1; currentYear + 2]%Z);
      [| reflexivity].
    rewrite reverse_Permutation.
    assert (((fun k : nat => (currentYear - 5 + Z.of_nat k)%Z)
               <$> seq 0 (Z.to_nat 8))
            = [currentYear - 5; currentYear - 4; currentYear - 3;
               currentYear - 2; currentYear - 1; currentYear;
               currentYear + 1; currentYear + 2]%Z) as ->; [| reflexivity].
    simpl. repeat (f_equal; try lia).
Qed.

(** X5.  Choosing a year in the dropdown (the option's value is the
    year as text) sets that year in the state, stores its text, leaves
    the selected establishment as it is, and a reload yields the year
    again; an option value without a leading integer changes
    nothing. *)
Theorem choosing_a_year_sets_and_persists_it
    (y currentYear : Z) (w : state * gmap string string) (value : string) :
  Js.isSafeInteger y = true ->
  Js.parseInt10 value = Js.NaN ->
  let w' := YearSelector.handleYearChange (YearSelector.option_value y) w in
  year w'.1 = y /\
  w'.2 !! YEAR = Some (Js.toString y) /\
  year (reload currentYear w'.2) = y /\
  establishmentId w'.1 = establishmentId w.1 /\
  w'.2 !! ESTABLISHMENT_ID = w.2 !! ESTABLISHMENT_ID /\
  YearSelector.handleYearChange value w = w.
Proof.
  intros _ Hnan. destruct w as [st ls].
  unfold YearSelector.handleYearChange, YearSelector.option_value.
  rewrite JsFacts.parseInt10_toString, Hnan. unfold setYear. cbn [fst snd].
  split; [reflexivity |]. split; [apply lookup_insert_eq |].
  split; [| split; [reflexivity | split; [| reflexivity]]].
  - unfold reload. rewrite hydrate_year, lookup_insert_eq,
      JsFacts.toString_truthy, JsFacts.parseInt10_toString. reflexivity.
  - apply lookup_insert_ne. exact SelectionFacts.keys_differ.
Qed.

Lemma choosing_a_year_sets_and_persists_it_witness :
  let w : state * gmap string string := (mount 2026, ∅) in
  let w' := YearSelector.handleYearChange (YearSelector.option_value 2027) w in
  year w'.1 = 2027%Z /\
  w'.2 !! YEAR = Some (Js.toString 2027) /\
  year (reload 2026 w'.2) = 2027%Z /\
  establishmentId w'.1 = establishmentId w.1 /\
  w'.2 !! ESTABLISHMENT_ID = w.2 !! ESTABLISHMENT_ID /\
  YearSelector.handleYearChange "" w = w.
Proof.
  intros w.
  apply (choosing_a_year_sets_and_persists_it 2027 2026 w ""); reflexivity.
Defined.

(** X6.  Choosing an option of the establishment dropdown selects the
    option's value, or nothing for the placeholder (whose value is the
    empty string): the state, the storage and a reload agree on it, the
    stored entry is removed for the placeholder, the year is left as it
    is, and the dropdown then shows the chosen option. *)
Theorem choosing_an_establishment_sets_and_persists_it
    (value : string) (currentYear : Z) (w : state * gmap string string)
    (est : establishment) (ests : list establishment) :
  let w' := EstablishmentSelector.handleEstablishmentChange value w in
  establishmentId w'.1 = Js.or_null (Some value) /\
  w'.2 !! ESTABLISHMENT_ID = Js.or_null (Some value) /\
  establishmentId (reload currentYear w'.2) = Js.or_null (Some value) /\
  year w'.1 = year w.1 /\
  w'.2 !! YEAR = w.2 !! YEAR /\
  EstablishmentSelector.render (establishmentId w'.1) false (Some (est :: ests))
  = EstablishmentSelector.Dropdown value
      (("", "Select establishment...")
         :: (EstablishmentSelector.option_of <$> est :: ests)).
Proof.
  destruct w as [st ls].
  unfold EstablishmentSelector.handleEstablishmentChange, setEstablishmentId,
    reload. cbn [fst snd]. rewrite SelectionFacts.hydrate_establishmentId.
  pose proof SelectionFacts.keys_differ as Hk.
  destruct value as [| c value]; cbn [Js.or_null Js.truthy].
  - rewrite lookup_delete_eq. repeat split; try reflexivity.
    apply lookup_delete_ne. congruence.
  - rewrite lookup_insert_eq. repeat split; try reflexivity.
    apply lookup_insert_ne. congruence.
Qed.

(** X7.  After a page load and any choices in the two dropdowns, the
    state is what a reload (in the same calendar year) rebuilds from
    the storage: nothing of the selection lives in memory only. *)
Theorem selection_is_rebuilt_by_reload
    (currentYear : Z) (localStorage : gmap string string)
    (actions : list Session.action) :
  Forall (fun a =>
            forall v y, a = Session.ChooseYear v -> Js.parseInt10 v = Js.Int y ->
                        Js.isSafeInteger y = true) actions ->
  reload currentYear (Session.after currentYear localStorage actions).2
  = (Session.after currentYear localStorage actions).1.
Proof.
  intros _. unfold Session.after.
  assert (Hstart : reload currentYear
                     (reload currentYear localStorage, localStorage).2
                   = (reload currentYear localStorage, localStorage).1)
    by reflexivity.
  revert Hstart. generalize (reload currentYear localStorage, localStorage).
  induction actions as [| a actions IH]; intros w Hw; [exact Hw |].
  simpl. apply IH. clear IH. destruct w as [st ls]. cbn [fst snd] in Hw.
  pose proof SelectionFacts.keys_differ as Hk.
  assert (Hest : establishmentId st
                 = match ls !! ESTABLISHMENT_ID with
                   | Some s => if Js.truthy s then Some s else None
                   | None => None
                   end)
    by (rewrite <- Hw; apply SelectionFacts.hydrate_establishmentId).
  assert (Hyear : year st
                  = match ls !! YEAR with
                    | Some s =>
                        if Js.truthy s then
                          match Js.parseInt10 s with
                          | Js.Int parsedYear => parsedYear
                          | Js.NaN => currentYear
                          end
                        else currentYear
                    | None => currentYear
                    end)
    by (rewrite <- Hw; apply hydrate_year).
  assert (Hhyd : isHydrated st = true) by (rewrite <- Hw; reflexivity).
  destruct a as [v | v]; unfold Session.act.
  - unfold YearSelector.handleYearChange.
    destruct (Js.parseInt10 v) as [| y]; [exact Hw |].
    unfold setYear, reload. cbn [fst snd]. apply SelectionFacts.state_eq.
    + rewrite SelectionFacts.hydrate_establishmentId,
        lookup_insert_ne by exact Hk. symmetry. exact Hest.
    + rewrite hydrate_year, lookup_insert_eq, JsFacts.toString_truthy,
        JsFacts.parseInt10_toString. reflexivity.
    + symmetry. exact Hhyd.
  - unfold EstablishmentSelector.handleEstablishmentChange, setEstablishmentId,
      reload. cbn [fst snd].
    destruct v as [| c v]; cbn [Js.or_null Js.truthy];
      apply SelectionFacts.state_eq.
    + rewrite SelectionFacts.hydrate_establishmentId, lookup_delete_eq. reflexivity.
    + rewrite hydrate_year, lookup_delete_ne by congruence. symmetry. exact Hyear.
    + symmetry. exact Hhyd.
    + rewrite SelectionFacts.hydrate_establishmentId, lookup_insert_eq. reflexivity.
    + rewrite hydrate_year, lookup_insert_ne by congruence. symmetry. exact Hyear.
    + symmetry. exact Hhyd.
Qed.

Lemma selection_is_rebuilt_by_reload_witness :
  reload 2026
    (Session.after 2026 ∅
       [Session.ChooseYear "2024"; Session.ChooseEstablishment Fixture.id1;
        Session.ChooseYear "x"; Session.ChooseEstablishment ""]).2
  = (Session.after 2026 ∅
       [Session.ChooseYear "2024"; Session.ChooseEstablishment Fixture.id1;
        Session.ChooseYear "x"; Session.ChooseEstablishment ""]).1.
Proof.
  apply (selection_is_rebuilt_by_reload 2026 ∅).
  apply Forall_cons_2.
  { intros v y [= <-] H. cbv in H. injection H as <-. reflexivity. }
  apply Forall_cons_2; [intros v y Hv; discriminate Hv |].
  apply Forall_cons_2.
  { intros v y [= <-] H. cbv in H. discriminate H. }
  apply Forall_cons_2; [intros v y Hv; discriminate Hv |].
  apply Forall_nil_2.
Defined.

(** X8.  Hydrating twice is hydrating once: running the mount effect
    again on the same storage changes nothing. *)
Theorem hydrate_is_idempotent (localStorage : gmap string string) (st : state) :
  hydrate localStorage (hydrate localStorage st) = hydrate localStorage st.
Proof.
  apply SelectionFacts.state_eq.
  - rewrite !SelectionFacts.hydrate_establishmentId.
    destruct (localStorage !! ESTABLISHMENT_ID) as [s |]; [| reflexivity].
    destruct (Js.truthy s); reflexivity.
  - rewrite !hydrate_year.
    destruct (localStorage !! YEAR) as [s |]; [| reflexivity].
    destruct (Js.truthy s); [| reflexivity].
    destruct (Js.parseInt10 s); reflexivity.
  - reflexivity.
Qed.

(** X9.  A stored year is read by its leading integer: white space
    before the year's text and anything but a digit after it do not
    keep a reload from yielding the year. *)
Theorem stored_year_is_read_by_its_leading_integer
    (y currentYear : Z) (before after : string)
    (localStorage : gmap string string) :
  Js.isSafeInteger y = true ->
  Spec.every Js.is_space before ->
  (forall c rest, after = String c rest -> Js.is_digit c = false) ->
  year (reload currentYear
          (<[YEAR := String.append before (String.append (Js.toString y) after)]>
             localStorage)) = y.
Proof.
  intros _ Hbefore Hafter. unfold reload.
  rewrite hydrate_year, lookup_insert_eq.
  rewrite SelectionFacts.truthy_append_r
    by (apply SelectionFacts.truthy_append_l, JsFacts.toString_truthy).
  rewrite SelectionFacts.parseInt10_spaces by assumption.
  rewrite SelectionFacts.parseInt10_toString_append
    by (apply SelectionFacts.leading_digits_not_digit; assumption).
  reflexivity.
Qed.

Lemma stored_year_is_read_by_its_leading_integer_witness :
  year (reload 2026
          (<[YEAR := String.append "  " (String.append (Js.toString 2024) ".5 (draft)")]>
             ∅)) = 2024%Z.
Proof.
  apply (stored_year_is_read_by_its_leading_integer 2024 2026 "  " ".5 (draft)" ∅).
  - reflexivity.
  - simpl. auto.
  - intros c rest [= <- _]. reflexivity.
Defined.

End Selectors.

(** ** Every call, whatever the context and the input *)

Module CallFacts.
Import Schema Drizzle Trpc.
Import Spec(signed_in, anonymous).
Import Invariant(fails).

Lemma run_bind {A B} env (p : prog A) (f : A -> prog B) d :
  run env (bind p f) d
  = match run env p d with
    | (Ok a, d') => run env (f a) d'
    | (Err e, d') => (Err e, d')
    end.
Proof.
  revert d. induction p as [a | e | k IH | q k IH]; intros d; simpl.
  - reflexivity.
  - reflexivity.
  - apply IH.
  - destruct (execute (pg env) q d) as [ans d']. apply IH.
Qed.

Lemma protected_anonymous {A} ctx (next : string -> prog A) :
  anonymous ctx -> protectedProcedure ctx next = Throw unauthorized.
Proof.
  unfold protectedProcedure. intros [H | [H | H]]; rewrite H.
  - reflexivity.
  - destruct (userId ctx); reflexivity.
  - destruct (user ctx); reflexivity.
Qed.

Lemma protected_cases {A} ctx (next : string -> prog A) :
  anonymous ctx /\ protectedProcedure ctx next = Throw unauthorized \/
  exists u, userId ctx = Some u /\ u <> "" /\
            protectedProcedure ctx next = protectedProcedure (signed_in u) next.
Proof.
  unfold anonymous, protectedProcedure.
  destruct (userId ctx) as [u |]; [| auto].
  destruct (user ctx); [| auto].
  destruct u as [| ch u]; [auto |]. right. eexists. split; [reflexivity |].
  split; [discriminate | reflexivity].
Qed.

Lemma select_head_owns d id u r l :
  select (and (eq_id id) (eq_userId u)) false (Some 1%nat) d = r :: l ->
  Spec.owns d u id r.
Proof.
  unfold select.
  destruct (filter (fun r => holds (and (eq_id id) (eq_userId u)) r)
              (establishments d)) as [| x rest] eqn:Hf; [discriminate |].
  simpl. intros [= <- _].
  assert (Hx : x ∈ filter (fun r => holds (and (eq_id id) (eq_userId u)) r)
                 (establishments d)) by (rewrite Hf; left).
  apply StoreFacts.elem_of_matching in Hx as [Hh Hx].
  apply StoreFacts.holds_id_owner in Hh. split; tauto.
Qed.

Lemma select_nil_not_owned d id u :
  select (and (eq_id id) (eq_userId u)) false (Some 1%nat) d = [] ->
  forall r, ~ Spec.owns d u id r.
Proof.
  intros Hsel r Hown.
  destruct (StoreFacts.select_owned_some d id u r Hown) as (x & Hx & _).
  congruence.
Qed.

(** Under the primary key two rows of the table with one id are one
    row. *)
Lemma primary_key_inj d r r' :
  Spec.primary_key d -> r ∈ establishments d -> r' ∈ establishments d ->
  E.id r' = E.id r -> r' = r.
Proof.
  intros Hpk Hr Hr' Hid.
  assert (Hf : filter (fun x => E.id x = E.id r) (establishments d) = [r])
    by (apply (StoreFacts.filter_unique E.id); auto).
  assert (Hin : r' ∈ filter (fun x => E.id x = E.id r) (establishments d))
    by (apply list_elem_of_filter; auto).
  rewrite Hf in Hin. apply list_elem_of_singleton in Hin. assumption.
Qed.

Lemma owner_of_id d u id a r :
  Spec.primary_key d -> Spec.owns d u id a -> r ∈ establishments d ->
  E.id r = uuid_in id -> r = a.
Proof.
  intros Hpk (Ha & Hid & _) Hr Hrid.
  apply (primary_key_inj d a r Hpk Ha Hr). congruence.
Qed.

Lemma elem_of_select_by_owner u d r :
  r ∈ select (eq_userId u) true None d
  <-> r ∈ establishments d /\ E.userId r = u.
Proof.
  rewrite select_by_owner, merge_sort_Permutation, list_elem_of_filter. tauto.
Qed.

Lemma set_userId data t r : E.userId (set data t r) = E.userId r.
Proof. reflexivity. Qed.

Lemma set_createdAt data t r : E.createdAt (set data t r) = E.createdAt r.
Proof. reflexivity. Qed.

Lemma updated_ids data t c (l : list establishment) :
  E.id <$> ((fun r => if holds c r then set data t r else r) <$> l) = E.id <$> l.
Proof.
  rewrite <- list_fmap_compose. apply list_fmap_ext.
  intros i r _. simpl. destruct (holds c r); reflexivity.
Qed.

Lemma elem_of_updated data t c (l : list establishment) r' :
  r' ∈ (fun r => if holds c r then set data t r else r) <$> l
  <-> exists r, r ∈ l /\ r' = (if holds c r then set data t r else r).
Proof.
  rewrite list_elem_of_fmap. split; intros (r & H1 & H2); exists r; tauto.
Qed.

Lemma filter_all {A} (P : A -> Prop) `{forall x, Decision (P x)} (l : list A) :
  (forall x, x ∈ l -> P x) -> filter P l = l.
Proof.
  induction l as [| x l IH]; intros Hall; [reflexivity |].
  rewrite filter_cons_True by (apply Hall; left).
  f_equal. apply IH. intros y Hy. apply Hall. right. assumption.
Qed.

Lemma filter_fmap_fixed {A} (P : A -> Prop) `{forall x, Decision (P x)}
    (f : A -> A) (l : list A) :
  (forall x, x ∈ l -> P (f x) <-> P x) ->
  (forall x, x ∈ l -> P x -> f x = x) ->
  filter P (f <$> l) = filter P l.
Proof.
  induction l as [| x l IH]; intros Hiff Hfix; [reflexivity |].
  rewrite fmap_cons.
  assert (IH' : filter P (f <$> l) = filter P l).
  { apply IH; intros y Hy; [apply Hiff | apply Hfix]; right; assumption. }
  destruct (decide (P x)) as [Hx | Hx].
  - rewrite (filter_cons_True P x) by assumption.
    rewrite filter_cons_True by (apply Hiff; [left | assumption]).
    rewrite Hfix by (assumption || left). f_equal. assumption.
  - rewrite (filter_cons_False P x) by assumption.
    rewrite filter_cons_False; [assumption |].
    intros Hfx. apply Hx. apply Hiff; [left | assumption].
Qed.

Lemma filter_filter_kept {A} (P Q : A -> Prop) `{forall x, Decision (P x)}
    `{forall x, Decision (Q x)} (l : list A) :
  (forall x, x ∈ l -> P x -> Q x) ->
  filter P (filter Q l) = filter P l.
Proof.
  induction l as [| x l IH]; intros Himp; [reflexivity |].
  assert (IH' : filter P (filter Q l) = filter P l).
  { apply IH. intros y Hy. apply Himp. right. assumption. }
  destruct (decide (P x)) as [Hx | Hx].
  - rewrite (filter_cons_True Q x) by (apply Himp; [left | assumption]).
    rewrite !filter_cons_True by assumption. f_equal. assumption.
  - rewrite (filter_cons_False P x) by assumption.
    destruct (decide (Q x)).
    + rewrite (filter_cons_True Q x) by assumption.
      rewrite filter_cons_False by assumption. assumption.
    + rewrite (filter_cons_False Q x) by assumption. assumption.
Qed.

Lemma fits_integer_le z : fits_integer z = true -> (z <= 2147483647)%Z.
Proof.
  unfold fits_integer. intros H. apply andb_true_iff in H as [_ H].
  apply Z.leb_le in H. exact H.
Qed.

(** The row that [create] inserts meets the constraints of the
    schema and of the columns. *)
Lemma created_valid env u n a c s z naics descr avg :
  Spec.constraints n a c s z naics descr avg -> fits_integer avg = true ->
  Invariant.valid_row (Spec.created env u n a c s z naics descr avg).
Proof.
  intros [] Hfit. constructor; cbn [Spec.created E.name E.address E.city
    E.state E.zipCode E.naicsCode E.industryDescription E.averageEmployees];
    try assumption.
  - rewrite JsFacts.toUpperCase_length, JsMoreFacts.toUpperCase_idemp. auto.
  - intros x Hx. apply JsFacts.or_null_some in Hx. auto.
  - intros x Hx. apply JsFacts.or_null_some in Hx. auto.
  - apply fits_integer_le in Hfit. lia.
Qed.

(** So does a valid row after [.set] with an accepted object. *)
Lemma set_valid data t r :
  R.issues true data = [] ->
  (forall n, Payload.averageEmployees data = Some n -> fits_integer n = true) ->
  Invariant.valid_row r ->
  Invariant.valid_row (set (R.normalized data) t r).
Proof.
  intros Hd Hfit [].
  apply RouterFacts.issues_partial_nil in Hd
    as (Hn & Ha & Hc & Hs & Hz & Hnaics & Hdescr & Havg).
  destruct data as [n a c s z naics descr avg].
  cbn [Payload.name Payload.address Payload.city Payload.state Payload.zipCode
       Payload.naicsCode Payload.industryDescription Payload.averageEmployees]
    in *.
  constructor; cbn [set R.normalized E.name E.address E.city E.state E.zipCode
    E.naicsCode E.industryDescription E.averageEmployees Payload.name
    Payload.address Payload.city Payload.state Payload.zipCode
    Payload.naicsCode Payload.industryDescription Payload.averageEmployees].
  - destruct n; simpl; auto.
  - destruct a; simpl; auto.
  - destruct c; simpl; auto.
  - destruct s as [s |]; simpl; [| assumption].
    rewrite JsFacts.toUpperCase_length, JsMoreFacts.toUpperCase_idemp. auto.
  - destruct z; simpl; auto.
  - destruct naics; auto.
  - destruct descr; auto.
  - destruct avg as [n' |]; simpl; [| assumption].
    specialize (Havg n' eq_refl). specialize (Hfit n' eq_refl).
    apply fits_integer_le in Hfit. lia.
Qed.

Lemma list_ctx ctx :
  anonymous ctx /\ R.list ctx = Throw unauthorized \/
  exists u, userId ctx = Some u /\ u <> "" /\ R.list ctx = R.list (signed_in u).
Proof. unfold R.list. apply protected_cases. Qed.

Lemma create_ctx ctx raw :
  anonymous ctx /\ R.create ctx raw = Throw unauthorized \/
  exists u, userId ctx = Some u /\ u <> "" /\
            R.create ctx raw = R.create (signed_in u) raw.
Proof. unfold R.create. apply protected_cases. Qed.

Lemma fails_anonymous {A} ctx d :
  anonymous ctx -> @fails A ctx (Err unauthorized, d) d.
Proof. intros H. exists unauthorized. auto. Qed.

Lemma fails_not_found {A} ctx d : @fails A ctx (Err R.not_found, d) d.
Proof. exists R.not_found. split; [reflexivity | discriminate]. Qed.

Lemma fails_internal {A} ctx m d : @fails A ctx (Err (R.internal m), d) d.
Proof. exists (R.internal m). split; [reflexivity | discriminate]. Qed.

Lemma fails_bad_request {A} ctx l d :
  @fails A ctx (Err (TRPCError BAD_REQUEST (Issues l)), d) d.
Proof. eexists. split; [reflexivity | discriminate]. Qed.

Lemma list_cases ctx env d :
  fails ctx (run env (R.list ctx) d) d \/
  exists u, userId ctx = Some u /\ u <> "" /\
            run env (R.list ctx) d = (Ok (select (eq_userId u) true None d), d).
Proof.
  destruct (list_ctx ctx) as [[Hanon ->] | (u & Hctx & Hu & ->)];
    [left; apply fails_anonymous, Hanon |].
  right. exists u. split; [assumption |]. split; [assumption |].
  exact (RouterFacts.list_run u env d Hu).
Qed.

Lemma create_cases ctx raw env d :
  fails ctx (run env (R.create ctx raw) d) d \/
  exists u n a c s z naics descr avg,
    userId ctx = Some u /\ u <> "" /\
    raw = Payload.Make (Some n) (Some a) (Some c) (Some s) (Some z) naics descr
            (Some avg) /\
    Spec.constraints n a c s z naics descr avg /\
    fits_integer avg = true /\
    (gen_random_uuid (pg env) ∉ E.id <$> establishments d) /\
    run env (R.create ctx raw) d
    = (Ok (Spec.created env u n a c s z naics descr avg),
       Database
         (establishments d ++ [Spec.created env u n a c s z naics descr avg])
         (subscriptions d)).
Proof.
  destruct (create_ctx ctx raw) as [[Hanon ->] | (u & Hctx & Hu & ->)];
    [left; apply fails_anonymous, Hanon |].
  destruct (decide (R.issues false raw = [])) as [Hnil | Hnil];
    [| left; rewrite RouterFacts.create_run_invalid by assumption;
       apply fails_bad_request].
  destruct raw as [[n |] [a |] [c |] [s |] [z |] naics descr [avg |]];
    try (exfalso; revert Hnil; apply SchemaFacts.issues_required_missing;
         simpl; tauto).
  apply SchemaFacts.issues_nil in Hnil.
  rewrite RouterFacts.create_run_insert by assumption.
  destruct (StoreFacts.insert_outcomes (pg env)
              (Values.Make u n a c (Js.toUpperCase s) z (Js.or_null naics)
                 (Js.or_null descr) avg (clock env)) d)
    as [(e & ->) | (_ & Hfit & _ & Hfresh & ->)];
    [left; apply fails_internal |].
  right. exists u, n, a, c, s, z, naics, descr, avg.
  repeat (split; [assumption || reflexivity |]). reflexivity.
Qed.

Section WithUuid.

Variable uuid : string -> bool.

Lemma update_schema_cases raw :
  uuid (R.id raw) = true /\ R.issues true (R.data raw) = [] /\
  R.update_schema uuid raw
  = Zod.Valid (R.UpdateInput (R.id raw) (R.normalized (R.data raw))) \/
  (uuid (R.id raw) = false \/ R.issues true (R.data raw) <> []) /\
  exists l, l <> [] /\ R.update_schema uuid raw = Zod.Invalid l.
Proof.
  unfold R.update_schema, R.establishmentInputSchema_partial.
  destruct (uuid (R.id raw)); simpl;
    destruct (R.issues true (R.data raw)) as [| i l] eqn:Hi.
  - left. auto.
  - right. split; [right; discriminate |]. eexists. split; [| reflexivity].
    discriminate.
  - right. split; [left; reflexivity |]. eexists. split; [| reflexivity].
    discriminate.
  - right. split; [left; reflexivity |]. eexists. split; [| reflexivity].
    discriminate.
Qed.

Lemma getById_ctx ctx raw :
  anonymous ctx /\ R.getById uuid ctx raw = Throw unauthorized \/
  exists u, userId ctx = Some u /\ u <> "" /\
            R.getById uuid ctx raw = R.getById uuid (signed_in u) raw.
Proof. unfold R.getById. apply protected_cases. Qed.

Lemma update_ctx ctx raw :
  anonymous ctx /\ R.update uuid ctx raw = Throw unauthorized \/
  exists u, userId ctx = Some u /\ u <> "" /\
            R.update uuid ctx raw = R.update uuid (signed_in u) raw.
Proof. unfold R.update. apply protected_cases. Qed.

Lemma delete_ctx ctx raw :
  anonymous ctx /\ R.delete uuid ctx raw = Throw unauthorized \/
  exists u, userId ctx = Some u /\ u <> "" /\
            R.delete uuid ctx raw = R.delete uuid (signed_in u) raw.
Proof. unfold R.delete. apply protected_cases. Qed.

(** The procedures one by one: a call either fails and leaves the
    store, with [UNAUTHORIZED] only for a caller the middleware turns
    away, or it is the call of a signed-in user that went through. *)
Lemma getById_cases ctx raw env d :
  fails ctx (run env (R.getById uuid ctx raw) d) d \/
  exists u r, userId ctx = Some u /\ u <> "" /\ uuid raw = true /\
              Spec.owns d u raw r /\
              run env (R.getById uuid ctx raw) d = (Ok r, d).
Proof.
  destruct (getById_ctx ctx raw) as [[Hanon ->] | (u & Hctx & Hu & ->)];
    [left; apply fails_anonymous, Hanon |].
  destruct (uuid raw) eqn:Hid.
  - rewrite (RouterFacts.getById_run uuid u raw env d Hu Hid).
    destruct (select _ _ _ d) as [| r l] eqn:Hsel;
      [left; apply fails_not_found |].
    right. exists u, r. repeat (split; [assumption || reflexivity |]).
    split; [exact (select_head_owns d raw u r l Hsel) | reflexivity].
  - left. unfold R.getById. rewrite RouterFacts.protected_signed_in by assumption.
    unfold input. rewrite RouterFacts.id_schema_invalid by assumption.
    apply fails_bad_request.
Qed.

Lemma update_cases ctx raw env d :
  fails ctx (run env (R.update uuid ctx raw) d) d \/
  exists u a,
    userId ctx = Some u /\ u <> "" /\ uuid (R.id raw) = true /\
    R.issues true (R.data raw) = [] /\
    (forall n, Payload.averageEmployees (R.data raw) = Some n ->
               fits_integer n = true) /\
    Spec.owns d u (R.id raw) a /\
    run env (R.update uuid ctx raw) d
    = (Ok (head (set (R.normalized (R.data raw)) (clock env)
                   <$> filter (fun r => holds (eq_id (R.id raw)) r)
                         (establishments d))),
       Database
         ((fun r => if holds (eq_id (R.id raw)) r
                    then set (R.normalized (R.data raw)) (clock env) r else r)
            <$> establishments d)
         (subscriptions d)).
Proof.
  destruct (update_ctx ctx raw) as [[Hanon ->] | (u & Hctx & Hu & ->)];
    [left; apply fails_anonymous, Hanon |].
  destruct (update_schema_cases raw) as [(Hid & Hd & _) | (_ & l & _ & Hl)].
  - destruct raw as [id data]. cbn [R.id R.data] in *.
    rewrite (RouterFacts.update_run uuid u id data env d Hu Hid Hd).
    destruct (select _ _ _ d) as [| r rest] eqn:Hsel;
      [left; apply fails_not_found |].
    destruct (StoreFacts.update_outcomes (R.normalized data) (clock env)
                (eq_id id) d) as [(e & ->) | (_ & Hfit & _ & ->)];
      [left; apply fails_internal |].
    right. exists u, r. repeat (split; [assumption |]).
    split; [| split; [exact (select_head_owns d id u r rest Hsel) | reflexivity]].
    intros n Hn. simpl in Hfit. rewrite Hn in Hfit. exact Hfit.
  - left. unfold R.update. rewrite RouterFacts.protected_signed_in by assumption.
    unfold input. rewrite Hl. apply fails_bad_request.
Qed.

Lemma delete_cases ctx raw env d :
  fails ctx (run env (R.delete uuid ctx raw) d) d \/
  exists u a,
    userId ctx = Some u /\ u <> "" /\ uuid raw = true /\
    Spec.owns d u raw a /\
    run env (R.delete uuid ctx raw) d
    = (Ok (R.Acknowledgment true), (Drizzle.delete (eq_id raw) d).2).
Proof.
  destruct (delete_ctx ctx raw) as [[Hanon ->] | (u & Hctx & Hu & ->)];
    [left; apply fails_anonymous, Hanon |].
  destruct (uuid raw) eqn:Hid.
  - rewrite (RouterFacts.delete_run uuid u raw env d Hu Hid).
    destruct (select _ _ _ d) as [| r l] eqn:Hsel;
      [left; apply fails_not_found |].
    right. exists u, r. repeat (split; [assumption || reflexivity |]).
    split; [exact (select_head_owns d raw u r l Hsel) | reflexivity].
  - left. unfold R.delete. rewrite RouterFacts.protected_signed_in by assumption.
    unfold input. rewrite RouterFacts.id_schema_invalid by assumption.
    apply fails_bad_request.
Qed.

(** Every call to the router ends in one of the six ways of
    [Invariant.effect]. *)
Lemma handle_effect ctx c env d out d' :
  run env (AppRouter.handle uuid ctx c) d = (out, d') ->
  Invariant.effect env ctx d c out d'.
Proof.
  destruct c as [| id | p | [id data] | id]; unfold AppRouter.handle;
    rewrite run_bind.
  - destruct (list_cases ctx env d) as [(e & -> & He) | (u & Hctx & Hu & ->)];
      intros [= <- <-]; [apply Invariant.failed, He |].
    apply Invariant.listed; assumption.
  - destruct (getById_cases ctx id env d)
      as [(e & -> & He) | (u & r & Hctx & Hu & _ & Hown & ->)];
      intros [= <- <-]; [apply Invariant.failed, He |].
    apply (Invariant.fetched env ctx d u); assumption.
  - destruct (create_cases ctx p env d)
      as [(e & -> & He)
         | (u & n & a & c & s & z & naics & descr & avg & Hctx & Hu & -> & Hc
            & Hfit & Hfresh & ->)];
      intros [= <- <-]; [apply Invariant.failed, He |].
    apply Invariant.inserted; assumption.
  - destruct (update_cases ctx (R.UpdateInput id data) env d)
      as [(e & -> & He) | (u & a & Hctx & Hu & _ & Hd & Hfit & Hown & ->)];
      intros [= <- <-]; [apply Invariant.failed, He |].
    apply (Invariant.updated env ctx d u id data a); assumption.
  - destruct (delete_cases ctx id env d)
      as [(e & -> & He) | (u & a & Hctx & Hu & _ & Hown & ->)];
      intros [= <- <-]; [apply Invariant.failed, He |].
    apply (Invariant.deleted env ctx d u id a); assumption.
Qed.

End WithUuid.

End CallFacts.

(** ** What every call to the router keeps *)

Section Calls.
Import Schema Drizzle Trpc AppRouter.
Import Spec(signed_in, anonymous).

(** From [H : Ok x = Ok a], with [a] a variable: [a] becomes [x] as
    it is written. *)
Ltac ok_inj H a :=
  apply (f_equal (fun o => match o with Ok x => x | Err _ => a end)) in H;
  cbv beta iota in H; subst a.

(** X10.  The middleware of [protectedProcedure] stands before every
    procedure of the router: a call fails with [UNAUTHORIZED] exactly
    when its context has no user id, no user or an empty user id, and
    such a call sends no statement to the store and leaves it as it
    is, whatever its input. *)
Theorem unauthorized_exactly_when_not_signed_in
    (uuid : string -> bool) (ctx : context) (c : call) (env : environment)
    (d : database) :
  (anonymous ctx <-> run env (handle uuid ctx c) d = (Err unauthorized, d)) /\
  (anonymous ctx -> statements env (handle uuid ctx c) d = []).
Proof.
  split; [split |].
  - intros Hanon. destruct c; unfold handle, R.list, R.getById, R.create,
      R.update, R.delete; rewrite CallFacts.protected_anonymous by assumption;
      reflexivity.
  - intros Hrun. apply CallFacts.handle_effect in Hrun.
    remember (Err unauthorized) as out eqn:Hout.
    destruct Hrun as [c' e He | | | | |]; try discriminate Hout.
    apply He. congruence.
  - intros Hanon. destruct c; unfold handle, R.list, R.getById, R.create,
      R.update, R.delete; rewrite CallFacts.protected_anonymous by assumption;
      reflexivity.
Qed.

Lemma unauthorized_exactly_when_not_signed_in_witness :
  run Fixture.env
    (handle Zod.uuid (createTRPCContext None) (establishment_delete Fixture.id1))
    Fixture.store
  = (Err unauthorized, Fixture.store) /\
  statements Fixture.env
    (handle Zod.uuid (createTRPCContext None) (establishment_delete Fixture.id1))
    Fixture.store = [].
Proof.
  destruct (unauthorized_exactly_when_not_signed_in Zod.uuid
              (createTRPCContext None) (establishment_delete Fixture.id1)
              Fixture.env Fixture.store) as [[H1 _] H2].
  split; [apply H1 | apply H2]; left; reflexivity.
Defined.

(** X11.  A call that throws has written nothing, and [list] and
    [getById] never write: the store after the call is the store
    before it. *)
Theorem failed_calls_and_reads_leave_the_store
    (uuid : string -> bool) (ctx : context) (c : call) (env : environment)
    (d : database) (out : outcome reply) (d' : database) :
  run env (handle uuid ctx c) d = (out, d') ->
  (exists e, out = Err e) \/ c = establishment_list \/
    (exists id, c = establishment_getById id) ->
  d' = d.
Proof.
  intros Hrun Hcase. apply CallFacts.handle_effect in Hrun.
  destruct Hrun; try reflexivity;
    destruct Hcase as [[e He] | [Hc | [i Hc]]]; discriminate.
Qed.

Lemma failed_calls_and_reads_leave_the_store_witness :
  (run Fixture.env
     (handle Zod.uuid (signed_in Fixture.alice)
        (establishment_update (R.UpdateInput Fixture.id2 Fixture.headcount_only)))
     Fixture.store).2 = Fixture.store.
Proof.
  apply (failed_calls_and_reads_leave_the_store Zod.uuid
           (signed_in Fixture.alice)
           (establishment_update (R.UpdateInput Fixture.id2 Fixture.headcount_only))
           Fixture.env Fixture.store (Err R.not_found)).
  - vm_compute. reflexivity.
  - left. exists R.not_found. reflexivity.
Defined.

(** X12.  Under the primary key, every establishment that a reply of
    the router carries (the rows of [list], the row of [getById],
    [create] or [update]) belongs to the caller, and is a row of the
    store as the call leaves it. *)
Theorem replies_carry_only_the_callers_rows
    (uuid : string -> bool) (ctx : context) (c : call) (env : environment)
    (d : database) (answer : reply) (d' : database) (r : establishment) :
  Spec.primary_key d ->
  run env (handle uuid ctx c) d = (Ok answer, d') ->
  r ∈ disclosed answer ->
  userId ctx = Some (E.userId r) /\ r ∈ establishments d'.
Proof.
  intros Hpk Hrun Hr. apply CallFacts.handle_effect in Hrun.
  remember (Ok answer) as out eqn:Hout.
  destruct Hrun as
    [ c e He | u Hctx Hu | u id a Hctx Hu Hown
    | u n a0 c0 s z naics descr avg Hctx Hu Hc Hfit Hfresh
    | u id data a Hctx Hu Hd Hfit Hown | u id a Hctx Hu Hown ];
    [discriminate Hout | ok_inj Hout answer ..]; cbn [disclosed] in Hr.
  - apply CallFacts.elem_of_select_by_owner in Hr as [Hin <-]. auto.
  - apply list_elem_of_singleton in Hr. subst r.
    destruct Hown as (Hin & _ & <-). auto.
  - apply list_elem_of_singleton in Hr. subst r. split; [assumption |].
    cbn [establishments]. apply elem_of_app. right. left.
  - destruct Hown as (Hin & Hid & <-).
    rewrite (StoreFacts.matching_id_unique d id a Hpk Hin Hid) in Hr.
    cbn [fmap list_fmap head] in Hr.
    apply list_elem_of_singleton in Hr. subst r.
    split; [assumption |]. cbn [establishments].
    apply CallFacts.elem_of_updated. exists a. split; [assumption |].
    apply StoreFacts.holds_eq_id in Hid. rewrite Hid. reflexivity.
  - inversion Hr.
Qed.

Lemma replies_carry_only_the_callers_rows_witness :
  userId (signed_in Fixture.alice) = Some (E.userId Fixture.foundry) /\
  Fixture.foundry ∈ establishments Fixture.store.
Proof.
  apply (replies_carry_only_the_callers_rows Zod.uuid (signed_in Fixture.alice)
           (establishment_getById Fixture.id1) Fixture.env Fixture.store
           (Row Fixture.foundry) Fixture.store Fixture.foundry).
  - exact fixture_primary_key.
  - vm_compute. reflexivity.
  - left.
Defined.

(** X13.  No call changes what belongs to somebody else.  Under the
    primary key, for a user [v] who is not the caller, the rows of [v]
    are the same after the call, in the same order, and a subscription
    of one of [v]'s establishments is in the store after the call
    exactly if it was before. *)
Theorem calls_leave_the_rows_of_other_users
    (uuid : string -> bool) (ctx : context) (c : call) (env : environment)
    (d : database) (out : outcome reply) (d' : database) (v : string) :
  Spec.primary_key d ->
  run env (handle uuid ctx c) d = (out, d') ->
  userId ctx <> Some v ->
  filter (fun r => E.userId r = v) (establishments d')
  = filter (fun r => E.userId r = v) (establishments d) /\
  (forall s r, r ∈ establishments d -> E.userId r = v ->
               S.establishmentId s = E.id r ->
               s ∈ subscriptions d' <-> s ∈ subscriptions d).
Proof.
  intros Hpk Hrun Hv. apply CallFacts.handle_effect in Hrun.
  destruct Hrun as
    [ c e He | u Hctx Hu | u id a Hctx Hu Hown
    | u n a0 c0 s0 z naics descr avg Hctx Hu Hc Hfit Hfresh
    | u id data a Hctx Hu Hd Hfit Hown | u id a Hctx Hu Hown ];
    try (split; [reflexivity | tauto]);
    (assert (Huv : u <> v) by congruence).
  - cbn [establishments subscriptions]. split; [| tauto].
    rewrite filter_app, filter_cons_False, filter_nil, app_nil_r;
      [reflexivity | exact Huv].
  - cbn [establishments subscriptions]. split; [| tauto].
    apply CallFacts.filter_fmap_fixed.
    + intros x _. destruct (holds (eq_id id) x); reflexivity.
    + intros x Hx Hxv. destruct (holds (eq_id id) x) eqn:Hh; [| reflexivity].
      apply StoreFacts.holds_eq_id in Hh.
      rewrite (CallFacts.owner_of_id d u id a x Hpk Hown Hx Hh) in Hxv.
      destruct Hown as (_ & _ & Hau). congruence.
  - cbn [Drizzle.delete snd establishments subscriptions]. split.
    + apply CallFacts.filter_filter_kept.
      intros x Hx Hxv. destruct (holds (eq_id id) x) eqn:Hh; [| exact I].
      apply StoreFacts.holds_eq_id in Hh.
      rewrite (CallFacts.owner_of_id d u id a x Hpk Hown Hx Hh) in Hxv.
      destruct Hown as (_ & _ & Hau). congruence.
    + intros s r Hr Hrv Hs. rewrite list_elem_of_filter.
      split; [tauto | intros Hin; split; [| assumption]].
      intros Hgone. apply list_elem_of_fmap in Hgone as (x & Hsx & Hx).
      apply StoreFacts.elem_of_matching in Hx as [Hh Hx].
      apply StoreFacts.holds_eq_id in Hh.
      assert (r = a)
        by (apply (CallFacts.owner_of_id d u id a r Hpk Hown Hr); congruence).
      destruct Hown as (_ & _ & Hau). congruence.
Qed.

Lemma calls_leave_the_rows_of_other_users_witness :
  filter (fun r => E.userId r = Fixture.bob)
    (establishments
       (run Fixture.env
          (handle Zod.uuid (signed_in Fixture.alice)
             (establishment_delete Fixture.id1)) Fixture.store).2)
  = filter (fun r => E.userId r = Fixture.bob) (establishments Fixture.store).
Proof.
  apply (calls_leave_the_rows_of_other_users Zod.uuid (signed_in Fixture.alice)
           (establishment_delete Fixture.id1) Fixture.env Fixture.store
           (Ok (Done (R.Acknowledgment true)))).
  - exact fixture_primary_key.
  - vm_compute. reflexivity.
  - discriminate.
Defined.

(** X14.  Every call keeps the keys of the store: if no two
    establishments share an id and every subscription references an
    establishment before the call, the same holds after it.  [create]
    keeps the first because a generated id that is taken fails the
    insert, [delete] the second because the subscriptions of the row
    go with it. *)
Theorem calls_keep_the_keys
    (uuid : string -> bool) (ctx : context) (c : call) (env : environment)
    (d : database) (out : outcome reply) (d' : database) :
  Spec.primary_key d -> Invariant.foreign_key d ->
  run env (handle uuid ctx c) d = (out, d') ->
  Spec.primary_key d' /\ Invariant.foreign_key d'.
Proof.
  intros Hpk Hfk Hrun. apply CallFacts.handle_effect in Hrun.
  destruct Hrun as
    [ c e He | u Hctx Hu | u id a Hctx Hu Hown
    | u n a0 c0 s0 z naics descr avg Hctx Hu Hc Hfit Hfresh
    | u id data a Hctx Hu Hd Hfit Hown | u id a Hctx Hu Hown ];
    try (split; assumption).
  - split.
    + unfold Spec.primary_key. cbn [establishments]. rewrite fmap_app.
      apply NoDup_app. split; [assumption |]. split; [| apply NoDup_singleton].
      intros x Hx Hx'. apply list_elem_of_singleton in Hx'. subst x.
      contradiction.
    + intros s Hs. cbn [establishments subscriptions] in *.
      rewrite fmap_app. apply elem_of_app. left. apply Hfk. assumption.
  - split.
    + unfold Spec.primary_key. cbn [establishments].
      rewrite CallFacts.updated_ids. assumption.
    + intros s Hs. cbn [establishments subscriptions] in *.
      rewrite CallFacts.updated_ids. apply Hfk. assumption.
  - split.
    + exact (StoreFacts.execute_primary_key (pg env) (Delete (eq_id id)) d Hpk).
    + intros s Hs. cbn [Drizzle.delete snd establishments subscriptions] in *.
      apply list_elem_of_filter in Hs as [Hkept Hs].
      destruct (proj1 (list_elem_of_fmap _ _ _) (Hfk s Hs)) as (r & Hsr & Hr).
      apply list_elem_of_fmap. exists r. split; [assumption |].
      apply list_elem_of_filter. split; [| assumption].
      destruct (holds (eq_id id) r) eqn:Hh; [| exact I].
      exfalso. apply Hkept. apply list_elem_of_fmap. exists r.
      split; [assumption |]. apply StoreFacts.elem_of_matching. auto.
Qed.

Lemma fixture_foreign_key : Invariant.foreign_key Fixture.store.
Proof.
  intros s Hs. apply list_elem_of_singleton in Hs. subst s. left.
Defined.

Lemma calls_keep_the_keys_witness :
  Spec.primary_key
    (run Fixture.env
       (handle Zod.uuid (signed_in Fixture.alice)
          (establishment_create (Fixture.payload "NV"))) Fixture.store).2 /\
  Invariant.foreign_key
    (run Fixture.env
       (handle Zod.uuid (signed_in Fixture.alice)
          (establishment_create (Fixture.payload "NV"))) Fixture.store).2.
Proof.
  apply (calls_keep_the_keys Zod.uuid (signed_in Fixture.alice)
           (establishment_create (Fixture.payload "NV")) Fixture.env
           Fixture.store
           (run Fixture.env
              (handle Zod.uuid (signed_in Fixture.alice)
                 (establishment_create (Fixture.payload "NV")))
              Fixture.store).1).
  - exact fixture_primary_key.
  - exact fixture_foreign_key.
  - apply surjective_pairing.
Defined.

(** X15.  No call changes who owns an establishment, its id or the
    time it was created: a row of the store after a call has the id,
    the owner and the creation time of a row that was there before,
    unless it is the row that this call created, which the call
    returns, which belongs to the caller and whose id is new. *)
Theorem calls_keep_identity
    (uuid : string -> bool) (ctx : context) (c : call) (env : environment)
    (d : database) (out : outcome reply) (d' : database) (r' : establishment) :
  run env (handle uuid ctx c) d = (out, d') ->
  r' ∈ establishments d' ->
  (exists r, r ∈ establishments d /\ Invariant.same_identity r r') \/
  (out = Ok (Row r') /\ userId ctx = Some (E.userId r') /\
   E.id r' ∉ E.id <$> establishments d).
Proof.
  intros Hrun Hr'. apply CallFacts.handle_effect in Hrun.
  assert (Hsame : forall r, Invariant.same_identity r r)
    by (intros r; repeat split).
  destruct Hrun as
    [ c e He | u Hctx Hu | u id a Hctx Hu Hown
    | u n a0 c0 s0 z naics descr avg Hctx Hu Hc Hfit Hfresh
    | u id data a Hctx Hu Hd Hfit Hown | u id a Hctx Hu Hown ];
    try (left; exists r'; split; [assumption | apply Hsame]).
  - cbn [establishments] in Hr'. apply elem_of_app in Hr' as [Hr' | Hr'].
    + left. exists r'. split; [assumption | apply Hsame].
    + apply list_elem_of_singleton in Hr'. subst r'. right. auto.
  - cbn [establishments] in Hr'.
    apply CallFacts.elem_of_updated in Hr' as (r & Hr & ->).
    left. exists r. split; [assumption |].
    destruct (holds (eq_id id) r); [repeat split | apply Hsame].
  - cbn [Drizzle.delete snd establishments] in Hr'.
    apply list_elem_of_filter in Hr' as [_ Hr'].
    left. exists r'. split; [assumption | apply Hsame].
Qed.

Lemma calls_keep_identity_witness :
  (exists r, r ∈ establishments Fixture.store /\
             Invariant.same_identity r
               (set (R.normalized Fixture.headcount_only) 2000 Fixture.foundry))
  \/ (Ok (MaybeRow
            (Some (set (R.normalized Fixture.headcount_only) 2000
                     Fixture.foundry)))
      = Ok (Row (set (R.normalized Fixture.headcount_only) 2000 Fixture.foundry))
      /\ userId (signed_in Fixture.alice)
         = Some (E.userId (set (R.normalized Fixture.headcount_only) 2000
                             Fixture.foundry))
      /\ E.id (set (R.normalized Fixture.headcount_only) 2000 Fixture.foundry)
         ∉ E.id <$> establishments Fixture.store).
Proof.
  apply (calls_keep_identity Zod.uuid (signed_in Fixture.alice)
           (establishment_update
              (R.UpdateInput Fixture.id1 Fixture.headcount_only))
           Fixture.env Fixture.store _
           (Database
              [set (R.normalized Fixture.headcount_only) 2000 Fixture.foundry;
               Fixture.sawmill] [Fixture.coverage])).
  - vm_compute. reflexivity.
  - left.
Defined.

(** X16.  Every call keeps the rows within the constraints of the
    schema and of the columns: if each row has a name of 1 to 255
    characters, an address of 1 to 500, a city of 1 to 100, a region
    code of two characters none of which is a lower-case letter, a
    postal code of one of the two shapes, a classification code that
    is null or six digits, a description that is null or at most 500
    characters and a head count from 0 to 2147483647, then so does
    each row after the call. *)
Theorem calls_keep_the_rows_valid
    (uuid : string -> bool) (ctx : context) (c : call) (env : environment)
    (d : database) (out : outcome reply) (d' : database) :
  Invariant.valid_rows d ->
  run env (handle uuid ctx c) d = (out, d') ->
  Invariant.valid_rows d'.
Proof.
  intros Hvalid Hrun. apply CallFacts.handle_effect in Hrun.
  destruct Hrun as
    [ c e He | u Hctx Hu | u id a Hctx Hu Hown
    | u n a0 c0 s0 z naics descr avg Hctx Hu Hc Hfit Hfresh
    | u id data a Hctx Hu Hd Hfit Hown | u id a Hctx Hu Hown ];
    try assumption; intros r Hr.
  - cbn [establishments] in Hr. apply elem_of_app in Hr as [Hr | Hr];
      [apply Hvalid; assumption |].
    apply list_elem_of_singleton in Hr. subst r.
    apply CallFacts.created_valid; assumption.
  - cbn [establishments] in Hr.
    apply CallFacts.elem_of_updated in Hr as (x & Hx & ->).
    destruct (holds (eq_id id) x); [| apply Hvalid; assumption].
    apply CallFacts.set_valid; [assumption | assumption |].
    apply Hvalid. assumption.
  - cbn [Drizzle.delete snd establishments] in Hr.
    apply list_elem_of_filter in Hr as [_ Hr]. apply Hvalid. assumption.
Qed.

Lemma fixture_valid_rows : Invariant.valid_rows Fixture.store.
Proof.
  intros r Hr. apply elem_of_cons in Hr as [-> | Hr];
    [| apply list_elem_of_singleton in Hr; subst r]; constructor;
    cbn [Fixture.foundry Fixture.sawmill E.name E.address E.city E.state
         E.zipCode E.naicsCode E.industryDescription E.averageEmployees].
  all: try (apply SchemaFacts.name_checks_nil; vm_compute; reflexivity).
  all: try (apply SchemaFacts.address_checks_nil; vm_compute; reflexivity).
  all: try (apply SchemaFacts.city_checks_nil; vm_compute; reflexivity).
  all: try (apply SchemaFacts.zipCode_checks_nil; vm_compute; reflexivity).
  all: try (split; vm_compute; reflexivity).
  all: try (intros x Hx; discriminate Hx).
  all: try lia.
  - intros x [= <-]. apply SchemaFacts.naicsCode_checks_nil.
    vm_compute. reflexivity.
  - intros x [= <-]. simpl. lia.
Defined.

Lemma calls_keep_the_rows_valid_witness :
  Invariant.valid_rows
    (run Fixture.env
       (handle Zod.uuid (signed_in Fixture.alice)
          (establishment_update
             (R.UpdateInput Fixture.id1 Fixture.headcount_only)))
       Fixture.store).2.
Proof.
  apply (calls_keep_the_rows_valid Zod.uuid (signed_in Fixture.alice)
           (establishment_update
              (R.UpdateInput Fixture.id1 Fixture.headcount_only))
           Fixture.env Fixture.store
           (run Fixture.env
              (handle Zod.uuid (signed_in Fixture.alice)
                 (establishment_update
                    (R.UpdateInput Fixture.id1 Fixture.headcount_only)))
              Fixture.store).1).
  - exact fixture_valid_rows.
  - apply surjective_pairing.
Defined.

End Calls.

(** ** How the procedures compose *)

Section Composition.
Import Schema Drizzle Trpc.
Import Spec(signed_in).

(** X17.  [getById] and [list] agree.  For a signed-in caller and a
    well-formed id, under the primary key, [getById] returns a row
    exactly if that row is in the caller's [list] and has the id, and
    it throws [NOT_FOUND] exactly if no row of the caller's [list] has
    the id. *)
Theorem getById_agrees_with_list
    (uuid : string -> bool) (u id : string) (env : environment)
    (d : database) :
  u <> "" -> uuid id = true -> Spec.primary_key d ->
  exists rows,
    run env (R.list (signed_in u)) d = (Ok rows, d) /\
    (forall r, run env (R.getById uuid (signed_in u) id) d = (Ok r, d)
               <-> r ∈ rows /\ E.id r = uuid_in id) /\
    (run env (R.getById uuid (signed_in u) id) d = (Err R.not_found, d)
     <-> forall r, r ∈ rows -> E.id r <> uuid_in id).
Proof.
  intros Hu Hid Hpk. exists (select (eq_userId u) true None d).
  split; [apply RouterFacts.list_run; assumption |].
  rewrite (RouterFacts.getById_run uuid u id env d Hu Hid).
  destruct (select (and (eq_id id) (eq_userId u)) false (Some 1%nat) d)
    as [| r0 l] eqn:Hsel.
  - split.
    + intros r. split; [discriminate |]. intros [Hr Hrid].
      apply CallFacts.elem_of_select_by_owner in Hr as [Hr Hru].
      exfalso. apply (CallFacts.select_nil_not_owned d id u Hsel r).
      split; [assumption |]. auto.
    + split; [| reflexivity]. intros _ r Hr Hrid.
      apply CallFacts.elem_of_select_by_owner in Hr as [Hr Hru].
      apply (CallFacts.select_nil_not_owned d id u Hsel r).
      split; [assumption |]. auto.
  - assert (Hown : Spec.owns d u id r0)
      by exact (CallFacts.select_head_owns d id u r0 l Hsel).
    split.
    + intros r. split.
      * intros [= <-]. destruct Hown as (Hin & Hrid & Hru).
        split; [| assumption].
        apply CallFacts.elem_of_select_by_owner. auto.
      * intros [Hr Hrid].
        apply CallFacts.elem_of_select_by_owner in Hr as [Hr Hru].
        rewrite (CallFacts.owner_of_id d u id r0 r Hpk Hown Hr Hrid).
        reflexivity.
    + split; [discriminate |]. intros Hnone. exfalso.
      destruct Hown as (Hin & Hrid & Hru). apply (Hnone r0); [| assumption].
      apply CallFacts.elem_of_select_by_owner. auto.
Qed.

Lemma getById_agrees_with_list_witness :
  exists rows,
    run Fixture.env (R.list (signed_in Fixture.alice)) Fixture.store
    = (Ok rows, Fixture.store) /\
    (forall r,
        run Fixture.env
          (R.getById Zod.uuid (signed_in Fixture.alice) Fixture.id1)
          Fixture.store = (Ok r, Fixture.store)
        <-> r ∈ rows /\ E.id r = uuid_in Fixture.id1) /\
    (run Fixture.env (R.getById Zod.uuid (signed_in Fixture.alice) Fixture.id1)
       Fixture.store = (Err R.not_found, Fixture.store)
     <-> forall r, r ∈ rows -> E.id r <> uuid_in Fixture.id1).
Proof.
  apply (getById_agrees_with_list Zod.uuid Fixture.alice Fixture.id1
           Fixture.env Fixture.store).
  - discriminate.
  - vm_compute. reflexivity.
  - exact fixture_primary_key.
Defined.

Lemma create_not_anonymous ctx p env d r d' :
  run env (R.create ctx p) d = (Ok r, d') -> ~ Spec.anonymous ctx.
Proof.
  intros Hrun Hanon. unfold R.create in Hrun.
  rewrite CallFacts.protected_anonymous in Hrun by assumption. discriminate.
Qed.

Lemma update_not_anonymous uuid ctx raw env d o d' :
  run env (R.update uuid ctx raw) d = (Ok o, d') -> ~ Spec.anonymous ctx.
Proof.
  intros Hrun Hanon. unfold R.update in Hrun.
  rewrite CallFacts.protected_anonymous in Hrun by assumption. discriminate.
Qed.

(** What a successful [create] leaves: the row it returns is the
    caller's, it is the last row of the table, and no other row has
    its id. *)
Lemma create_ok_fresh ctx p env d r d' :
  run env (R.create ctx p) d = (Ok r, d') ->
  exists u,
    userId ctx = Some u /\ u <> "" /\ E.userId r = u /\
    (E.id r ∉ E.id <$> establishments d) /\
    d' = Database (establishments d ++ [r]) (subscriptions d).
Proof.
  intros Hrun.
  destruct (CallFacts.create_cases ctx p env d)
    as [(e & He & _)
       | (u & n & a & c & s & z & naics & descr & avg & Hctx & Hu & -> & Hc
          & Hfit & Hfresh & Hok)].
  - rewrite He in Hrun. discriminate.
  - rewrite Hok in Hrun. exists u.
    assert (Hr : r = Spec.created env u n a c s z naics descr avg)
      by congruence.
    subst r. repeat (split; [assumption || reflexivity |]). congruence.
Qed.

Lemma created_row_selected d u r id :
  E.id r ∉ E.id <$> establishments d -> E.userId r = u ->
  uuid_in id = E.id r ->
  select (and (eq_id id) (eq_userId u)) false (Some 1%nat)
    (Database (establishments d ++ [r]) (subscriptions d)) = [r].
Proof.
  intros Hfresh Hru Hlow.
  destruct (StoreFacts.select_owned_some
              (Database (establishments d ++ [r]) (subscriptions d)) id u r)
    as (x & Hsel & Hx & Hxid & _).
  { split; [apply elem_of_app; right; left | auto]. }
  rewrite Hsel. f_equal.
  cbn [establishments] in Hx. apply elem_of_app in Hx as [Hx | Hx].
  - exfalso. apply Hfresh. rewrite <- Hlow, <- Hxid.
    apply list_elem_of_fmap_2. assumption.
  - apply list_elem_of_singleton in Hx. assumption.
Qed.

(** X18.  A row that [create] has returned is read back: [getById]
    by the same caller with the id of the row returns that row, and
    the caller's [list] contains it.  (The id is one that the format
    check accepts and that is in lower case, as the store generates
    it.) *)
Theorem created_row_is_read_back
    (uuid : string -> bool) (ctx : context) (p : Payload.t)
    (env env' : environment) (d : database) (r : establishment)
    (d' : database) :
  run env (R.create ctx p) d = (Ok r, d') ->
  uuid (E.id r) = true -> uuid_in (E.id r) = E.id r ->
  run env' (R.getById uuid ctx (E.id r)) d' = (Ok r, d') /\
  exists rows, run env' (R.list ctx) d' = (Ok rows, d') /\ r ∈ rows.
Proof.
  intros Hrun Huuid Hlow.
  pose proof (create_not_anonymous ctx p env d r d' Hrun) as Hnot.
  destruct (create_ok_fresh ctx p env d r d' Hrun)
    as (u & Hctx & Hu & Hru & Hfresh & ->).
  split.
  - destruct (CallFacts.getById_ctx uuid ctx (E.id r))
      as [[Hanon _] | (u' & Hctx' & _ & ->)]; [contradiction |].
    assert (u' = u) as -> by congruence.
    rewrite (RouterFacts.getById_run uuid u (E.id r) env' _ Hu Huuid).
    rewrite (created_row_selected d u r (E.id r) Hfresh Hru Hlow).
    reflexivity.
  - destruct (CallFacts.list_ctx ctx) as [[Hanon _] | (u' & Hctx' & _ & ->)];
      [contradiction |].
    assert (u' = u) as -> by congruence.
    rewrite (RouterFacts.list_run u env' _ Hu). eexists.
    split; [reflexivity |].
    apply CallFacts.elem_of_select_by_owner. split; [| assumption].
    cbn [establishments]. apply elem_of_app. right. left.
Qed.

Lemma created_row_is_read_back_witness :
  let r := Spec.created Fixture.env Fixture.alice "Press shop" "3 Mill Rd"
             "Reno" "NV" "89501" None (Some "") 7 in
  let d' := Database (establishments Fixture.store ++ [r])
              (subscriptions Fixture.store) in
  run Fixture.env (R.getById Zod.uuid (signed_in Fixture.alice) (E.id r)) d'
  = (Ok r, d') /\
  exists rows,
    run Fixture.env (R.list (signed_in Fixture.alice)) d' = (Ok rows, d') /\
    r ∈ rows.
Proof.
  intros r d'.
  apply (created_row_is_read_back Zod.uuid (signed_in Fixture.alice)
           (Fixture.payload "NV") Fixture.env Fixture.env Fixture.store r d').
  - vm_compute. reflexivity.
  - vm_compute. reflexivity.
  - vm_compute. reflexivity.
Defined.

(** X19.  When no other request's statement comes between the
    statements of an [update] (the request runs alone, as [run] has
    it; C8 is the case where one does), then under the primary key an
    [update] that does not throw returns a row, not [undefined], and a
    [getById] by the same caller with the same id, run next on the
    store that the update left, returns that row. *)
Theorem updated_row_is_read_back
    (uuid : string -> bool) (ctx : context) (raw : R.update_input)
    (env env' : environment) (d : database) (o : option establishment)
    (d' : database) :
  Spec.primary_key d ->
  run env (R.update uuid ctx raw) d = (Ok o, d') ->
  exists r', o = Some r' /\
             run env' (R.getById uuid ctx (R.id raw)) d' = (Ok r', d').
Proof.
  intros Hpk Hrun.
  pose proof (update_not_anonymous uuid ctx raw env d o d' Hrun) as Hnot.
  destruct (CallFacts.update_cases uuid ctx raw env d)
    as [(e & He & _) | (u & a & Hctx & Hu & Hid & Hd & Hfit & Hown & Hok)].
  { rewrite He in Hrun. discriminate. }
  rewrite Hok in Hrun. clear Hok.
  destruct Hown as (Hin & Haid & Hau).
  rewrite (StoreFacts.matching_id_unique d (R.id raw) a Hpk Hin Haid) in Hrun.
  cbn [fmap list_fmap head] in Hrun.
  exists (set (R.normalized (R.data raw)) (clock env) a).
  split; [congruence |].
  assert (Hd' : d' = Database
                  ((fun r => if holds (eq_id (R.id raw)) r
                             then set (R.normalized (R.data raw)) (clock env) r
                             else r) <$> establishments d)
                  (subscriptions d)) by congruence.
  subst d'.
  destruct (CallFacts.getById_ctx uuid ctx (R.id raw))
    as [[Hanon _] | (u' & Hctx' & _ & ->)]; [contradiction |].
  assert (u' = u) as -> by congruence.
  rewrite (RouterFacts.getById_run uuid u (R.id raw) env' _ Hu Hid).
  rewrite (StoreFacts.select_owned_unique _ (R.id raw) u
             (set (R.normalized (R.data raw)) (clock env) a));
    [reflexivity | |].
  - unfold Spec.primary_key. cbn [establishments].
    rewrite CallFacts.updated_ids. assumption.
  - split; [| split; assumption]. cbn [establishments].
    apply CallFacts.elem_of_updated. exists a. split; [assumption |].
    apply StoreFacts.holds_eq_id in Haid. rewrite Haid. reflexivity.
Qed.

Lemma updated_row_is_read_back_witness :
  exists r',
    Some (set (R.normalized Fixture.headcount_only) 2000 Fixture.foundry)
    = Some r' /\
    run Fixture.env (R.getById Zod.uuid (signed_in Fixture.alice) Fixture.id1)
      (Database
         [set (R.normalized Fixture.headcount_only) 2000 Fixture.foundry;
          Fixture.sawmill] [Fixture.coverage])
    = (Ok r',
       Database
         [set (R.normalized Fixture.headcount_only) 2000 Fixture.foundry;
          Fixture.sawmill] [Fixture.coverage]).
Proof.
  apply (updated_row_is_read_back Zod.uuid (signed_in Fixture.alice)
           (R.UpdateInput Fixture.id1 Fixture.headcount_only)
           Fixture.env Fixture.env Fixture.store).
  - exact fixture_primary_key.
  - vm_compute. reflexivity.
Defined.

(** X20.  [delete] undoes [create]: when every subscription of the
    store references an establishment, creating a row and then
    deleting it by its id, by the same caller, gives back the store
    as it was before the two calls. *)
Theorem deleting_the_created_row_restores_the_store
    (uuid : string -> bool) (ctx : context) (p : Payload.t)
    (env env' : environment) (d : database) (r : establishment)
    (d1 : database) :
  Invariant.foreign_key d ->
  run env (R.create ctx p) d = (Ok r, d1) ->
  uuid (E.id r) = true -> uuid_in (E.id r) = E.id r ->
  run env' (R.delete uuid ctx (E.id r)) d1 = (Ok (R.Acknowledgment true), d).
Proof.
  intros Hfk Hrun Huuid Hlow.
  pose proof (create_not_anonymous ctx p env d r d1 Hrun) as Hnot.
  destruct (create_ok_fresh ctx p env d r d1 Hrun)
    as (u & Hctx & Hu & Hru & Hfresh & ->).
  destruct (CallFacts.delete_ctx uuid ctx (E.id r))
    as [[Hanon _] | (u' & Hctx' & _ & ->)]; [contradiction |].
  assert (u' = u) as -> by congruence.
  rewrite (RouterFacts.delete_run uuid u (E.id r) env' _ Hu Huuid).
  rewrite (created_row_selected d u r (E.id r) Hfresh Hru Hlow).
  f_equal. destruct d as [ests subs].
  cbn [Drizzle.delete snd establishments subscriptions] in *.
  assert (Hold : forall x, x ∈ ests -> holds (eq_id (E.id r)) x = false).
  { intros x Hx. destruct (holds (eq_id (E.id r)) x) eqn:Hh; [| reflexivity].
    exfalso. apply Hfresh. apply StoreFacts.holds_eq_id in Hh.
    rewrite <- Hlow, <- Hh. apply list_elem_of_fmap_2. assumption. }
  f_equal.
  - rewrite filter_app, filter_cons_False, filter_nil, app_nil_r.
    + apply CallFacts.filter_all. intros x Hx. rewrite (Hold x Hx). exact I.
    + assert (Hr : holds (eq_id (E.id r)) r = true)
        by (apply StoreFacts.holds_eq_id; auto).
      rewrite Hr. simpl. tauto.
  - apply CallFacts.filter_all. intros s Hs Hgone. apply Hfresh.
    apply list_elem_of_fmap in Hgone as (x & Hsx & Hx).
    apply StoreFacts.elem_of_matching in Hx as [Hh _].
    apply StoreFacts.holds_eq_id in Hh.
    rewrite <- Hlow, <- Hh, <- Hsx. apply Hfk. assumption.
Qed.

Lemma deleting_the_created_row_restores_the_store_witness :
  let r := Spec.created Fixture.env Fixture.alice "Press shop" "3 Mill Rd"
             "Reno" "NV" "89501" None (Some "") 7 in
  run Fixture.env (R.delete Zod.uuid (signed_in Fixture.alice) (E.id r))
    (Database (establishments Fixture.store ++ [r])
       (subscriptions Fixture.store))
  = (Ok (R.Acknowledgment true), Fixture.store).
Proof.
  intros r.
  apply (deleting_the_created_row_restores_the_store Zod.uuid
           (signed_in Fixture.alice) (Fixture.payload "NV") Fixture.env
           Fixture.env Fixture.store r).
  - exact fixture_foreign_key.
  - vm_compute. reflexivity.
  - vm_compute. reflexivity.
  - vm_compute. reflexivity.
Defined.

End Composition.

(** ** Edges of the writes *)

Section Edges.
Import Schema Drizzle Trpc.
Import Spec(signed_in).

Lemma fits_integer_false z : (2147483647 < z)%Z -> fits_integer z = false.
Proof.
  intros Hz. destruct (fits_integer z) eqn:Hfit; [| reflexivity].
  apply CallFacts.fits_integer_le in Hfit. lia.
Qed.

(** X21.  The server schema bounds the head count only from below,
    the column is a 32-bit integer: a head count above 2147483647 in
    a payload that is otherwise accepted passes validation, the
    statement fails in the store, and the caller gets
    [INTERNAL_SERVER_ERROR] with the procedure's message, from
    [create] as from [update] of a row he owns; nothing is written. *)
Theorem head_count_beyond_the_column_is_an_internal_error
    (uuid : string -> bool) (u : string) (env : environment) (d : database)
    (avg : Z) :
  u <> "" -> (2147483647 < avg)%Z ->
  (forall n a c s z naics descr,
      Spec.constraints n a c s z naics descr avg ->
      run env
        (R.create (signed_in u)
           (Payload.Make (Some n) (Some a) (Some c) (Some s) (Some z) naics
              descr (Some avg))) d
      = (Err (R.internal "Failed to create establishment"), d)) /\
  (forall id data r,
      uuid id = true -> R.issues true data = [] ->
      Payload.averageEmployees data = Some avg -> Spec.owns d u id r ->
      run env (R.update uuid (signed_in u) (R.UpdateInput id data)) d
      = (Err (R.internal "Failed to update establishment"), d)).
Proof.
  intros Hu Havg. pose proof (fits_integer_false avg Havg) as Hfit. split.
  - intros n a c s z naics descr Hc.
    rewrite RouterFacts.create_run_insert by assumption.
    destruct (StoreFacts.insert_refuses_head_count (pg env)
                (Values.Make u n a c (Js.toUpperCase s) z (Js.or_null naics)
                   (Js.or_null descr) avg (clock env)) d Hfit) as (e & ->).
    reflexivity.
  - intros id data r Hid Hd Hdata Hown.
    rewrite (RouterFacts.update_run uuid u id data env d Hu Hid Hd).
    destruct (StoreFacts.select_owned_some d id u r Hown) as (x & -> & _).
    destruct (StoreFacts.update_refuses_head_count (R.normalized data)
                (clock env) (eq_id id) d avg Hdata Hfit) as (e & ->).
    reflexivity.
Qed.

Lemma head_count_beyond_the_column_is_an_internal_error_witness :
  run Fixture.env
    (R.update Zod.uuid (signed_in Fixture.alice)
       (R.UpdateInput Fixture.id1
          (Payload.Make None None None None None None None
             (Some 3000000000%Z)))) Fixture.store
  = (Err (R.internal "Failed to update establishment"), Fixture.store).
Proof.
  destruct (head_count_beyond_the_column_is_an_internal_error Zod.uuid
              Fixture.alice Fixture.env Fixture.store 3000000000)
    as [_ Hupdate]; [discriminate | reflexivity |].
  apply (Hupdate Fixture.id1 _ Fixture.foundry).
  - vm_compute. reflexivity.
  - vm_compute. reflexivity.
  - reflexivity.
  - exact fixture_owns.
Defined.

(** X22.  [update] and [delete] do not tell a row of another user
    from no row, as [getById] does not: for a signed-in caller, a
    well-formed id and an accepted payload, when every row with the
    id belongs to somebody else (or there is none), both throw
    [NOT_FOUND], the store is unchanged, and the only statement sent
    is the ownership select. *)
Theorem update_and_delete_hide_foreign_rows
    (uuid : string -> bool) (u id : string) (data : Payload.t)
    (env : environment) (d : database) :
  u <> "" -> uuid id = true -> R.issues true data = [] ->
  (forall r, r ∈ establishments d -> E.id r = uuid_in id -> E.userId r <> u) ->
  run env (R.update uuid (signed_in u) (R.UpdateInput id data)) d
  = (Err R.not_found, d) /\
  run env (R.delete uuid (signed_in u) id) d = (Err R.not_found, d) /\
  statements env (R.update uuid (signed_in u) (R.UpdateInput id data)) d
  = [Select (and (eq_id id) (eq_userId u)) false (Some 1%nat)] /\
  statements env (R.delete uuid (signed_in u) id) d
  = [Select (and (eq_id id) (eq_userId u)) false (Some 1%nat)].
Proof.
  intros Hu Hid Hd Hforeign.
  pose proof (StoreFacts.select_owned_none d id u Hforeign) as Hsel.
  split; [| split; [| split]].
  - rewrite (RouterFacts.update_run uuid u id data env d Hu Hid Hd), Hsel.
    reflexivity.
  - rewrite (RouterFacts.delete_run uuid u id env d Hu Hid), Hsel.
    reflexivity.
  - unfold R.update. rewrite RouterFacts.protected_signed_in by assumption.
    unfold input. rewrite RouterFacts.update_schema_valid by assumption.
    cbn [statements try_catch bind db execute R.id R.data]. rewrite Hsel.
    reflexivity.
  - unfold R.delete. rewrite RouterFacts.protected_signed_in by assumption.
    unfold input. rewrite RouterFacts.id_schema_valid by assumption.
    cbn [statements try_catch bind db execute]. rewrite Hsel.
    reflexivity.
Qed.

Lemma update_and_delete_hide_foreign_rows_witness :
  run Fixture.env
    (R.update Zod.uuid (signed_in Fixture.alice)
       (R.UpdateInput Fixture.id2 Fixture.headcount_only)) Fixture.store
  = (Err R.not_found, Fixture.store) /\
  run Fixture.env (R.delete Zod.uuid (signed_in Fixture.alice) Fixture.id2)
    Fixture.store
  = (Err R.not_found, Fixture.store) /\
  statements Fixture.env
    (R.update Zod.uuid (signed_in Fixture.alice)
       (R.UpdateInput Fixture.id2 Fixture.headcount_only)) Fixture.store
  = [Select (and (eq_id Fixture.id2) (eq_userId Fixture.alice)) false
       (Some 1%nat)] /\
  statements Fixture.env
    (R.delete Zod.uuid (signed_in Fixture.alice) Fixture.id2) Fixture.store
  = [Select (and (eq_id Fixture.id2) (eq_userId Fixture.alice)) false
       (Some 1%nat)].
Proof.
  apply (update_and_delete_hide_foreign_rows Zod.uuid Fixture.alice
           Fixture.id2 Fixture.headcount_only Fixture.env Fixture.store).
  - discriminate.
  - vm_compute. reflexivity.
  - vm_compute. reflexivity.
  - intros r Hr Hrid. apply elem_of_cons in Hr as [-> | Hr].
    + vm_compute in Hrid. discriminate.
    + apply list_elem_of_singleton in Hr. subst r. vm_compute. discriminate.
Defined.

End Edges.
